(** * Korvagen: the route form and the map screen

    A shallow embedding of the two screens of the application,
    [src/screens/CreateRouteScreen.tsx] and the map screen ([MapScreen]),
    and the properties of their handlers.

    Conventions of the embedding.
    - A JavaScript number is a rational ([Q]) wherever a property does not
      depend on how binary64 rounds: coordinates that are stored, compared
      with [===] ([Qeq_bool]) and copied, and the offsets of the panel as
      far as their order goes.  Infinities and [NaN] are outside that
      reading.
    - Where rounding decides the outcome, the code is embedded on binary64
      itself ([float], module [Panel64]): the rest position a released panel
      snaps to.
    - A JavaScript string is a [string] holding its UTF-8 encoding.
    - [null] and [undefined] are [None].
    - A call of a service outside the component (geocoding, the backend, the
      clock) is a node of a program tree ([Prog]); the tree says which calls
      a handler issues, in which order, and what it does with each answer. *)

From Stdlib Require Import QArith Qabs Qminmax Lqa Lia.
From Stdlib Require Import List Bool Arith NArith String Ascii DecimalString.
From Stdlib Require Floats.
Import ListNotations.

Local Open Scope string_scope.
Local Open Scope Q_scope.

(* ===================================================================== *)
(** * JavaScript primitives used by the handlers *)
(* ===================================================================== *)

Module JS.

(** [a < b] on numbers. *)
Definition lt (a b : Q) : bool := negb (Qle_bool b a).

(** [a > b] on numbers. *)
Definition gt (a b : Q) : bool := lt b a.

(** [a === b] on numbers. *)
Definition eq (a b : Q) : bool := Qeq_bool a b.

(** [Math.abs], [Math.min], [Math.max] of two numbers. *)
Definition abs (a : Q) : Q := Qabs a.
Definition min (a b : Q) : Q := if lt b a then b else a.
Definition max (a b : Q) : Q := if lt a b then b else a.

(** [Math.min(...xs)] and [Math.max(...xs)] of a non-empty array
    [x :: xs]. *)
Definition minOf (x : Q) (xs : list Q) : Q := fold_left min xs x.
Definition maxOf (x : Q) (xs : list Q) : Q := fold_left max xs x.

(** [arr.reduce(f)] without an initial value, on the non-empty array
    [x :: xs]: the accumulator starts at the first element. *)
Definition reduce {A} (f : A -> A -> A) (x : A) (xs : list A) : A :=
  fold_left f xs x.

(** [arr.findIndex(p)]: the first index whose element satisfies [p]. *)
Fixpoint findIndex {A} (p : A -> bool) (l : list A) : option nat :=
  match l with
  | [] => None
  | x :: r => if p x then Some 0%nat else option_map S (findIndex p r)
  end.

(** [arr.filter((x, index) => p x index)]. *)
Fixpoint filteri_from {A} (i : nat) (p : A -> nat -> bool) (l : list A) : list A :=
  match l with
  | [] => []
  | x :: r => if p x i then x :: filteri_from (S i) p r else filteri_from (S i) p r
  end.
Definition filteri {A} (p : A -> nat -> bool) (l : list A) : list A :=
  filteri_from 0 p l.

(** [arr.map((x, index) => f x index)]. *)
Fixpoint mapi_from {A B} (i : nat) (f : A -> nat -> B) (l : list A) : list B :=
  match l with
  | [] => []
  | x :: r => f x i :: mapi_from (S i) f r
  end.
Definition mapi {A B} (f : A -> nat -> B) (l : list A) : list B :=
  mapi_from 0 f l.

(** [arr.includes(s)] on an array of strings. *)
Definition includes (l : list string) (s : string) : bool :=
  existsb (String.eqb s) l.

(** [s.startsWith(p)]. *)
Definition startsWith (s p : string) : bool := String.prefix p s.

(** [arr.join(sep)]. *)
Definition join (sep : string) (l : list string) : string :=
  String.concat sep l.

(** The decimal rendering of a natural number, as a template literal
    interpolates it. *)
Definition decimal (n : nat) : string :=
  NilEmpty.string_of_uint (Nat.to_uint n).

(** The same for a large number, such as a time stamp. *)
Definition decimalN (n : N) : string :=
  NilEmpty.string_of_uint (N.to_uint n).

(** Truthiness of a string that may be missing: [null], [undefined] and
    the empty string are falsy. *)
Definition truthy (s : option string) : bool :=
  match s with
  | Some EmptyString | None => false
  | Some _ => true
  end.

(** [parts.filter(Boolean)] on an array of possibly missing strings. *)
Fixpoint filterBoolean (l : list (option string)) : list string :=
  match l with
  | [] => []
  | Some s :: r =>
      if truthy (Some s) then s :: filterBoolean r else filterBoolean r
  | None :: r => filterBoolean r
  end.

(** White space as [String.prototype.trim] knows it, in UTF-8: the six
    ASCII characters TAB, LF, VT, FF, CR and SPACE; U+00A0; U+1680,
    U+2000..U+200A, U+2028, U+2029, U+202F, U+205F, U+3000 and U+FEFF. *)
Definition ws1 (a : ascii) : bool :=
  let n := nat_of_ascii a in
  ((9 <=? n) && (n <=? 13) || (n =? 32))%nat.

Definition ws2 (a b : ascii) : bool :=
  ((nat_of_ascii a =? 194) && (nat_of_ascii b =? 160))%nat.

Definition ws3 (a b c : ascii) : bool :=
  let x := nat_of_ascii a in
  let y := nat_of_ascii b in
  let z := nat_of_ascii c in
  ((x =? 225) && (y =? 154) && (z =? 128)
   || (x =? 226) && (y =? 128)
      && ((128 <=? z) && (z <=? 138) || (z =? 168) || (z =? 169) || (z =? 175))
   || (x =? 226) && (y =? 129) && (z =? 159)
   || (x =? 227) && (y =? 128) && (z =? 128)
   || (x =? 239) && (y =? 187) && (z =? 191))%nat.

(** Drop the leading white space recognised by [w1], [w2] and [w3]. *)
Fixpoint dropWs (w1 : ascii -> bool) (w2 : ascii -> ascii -> bool)
    (w3 : ascii -> ascii -> ascii -> bool) (s : string) : string :=
  match s with
  | EmptyString => s
  | String a r =>
      if w1 a then dropWs w1 w2 w3 r
      else
        match r with
        | EmptyString => s
        | String b r2 =>
            if w2 a b then dropWs w1 w2 w3 r2
            else
              match r2 with
              | EmptyString => s
              | String c r3 => if w3 a b c then dropWs w1 w2 w3 r3 else s
              end
        end
  end.

Fixpoint rev_append (s acc : string) : string :=
  match s with
  | EmptyString => acc
  | String a r => rev_append r (String a acc)
  end.
Definition rev (s : string) : string := rev_append s EmptyString.

Definition trimStart (s : string) : string := dropWs ws1 ws2 ws3 s.

(** The same scan on the reversed string, with the bytes of each
    encoding read backwards. *)
Definition trimEnd (s : string) : string :=
  rev (dropWs ws1 (fun a b => ws2 b a) (fun a b c => ws3 c b a) (rev s)).

(** [s.trim()]. *)
Definition trim (s : string) : string := trimEnd (trimStart s).

(** [!s.trim()]: the string is empty or white space only. *)
Definition blank (s : string) : bool :=
  match trim s with
  | EmptyString => true
  | _ => false
  end.

End JS.

(* ===================================================================== *)
(** * The draggable bottom panel of the map screen *)
(* ===================================================================== *)

(** The panel on rationals: what is stated of it (which cells a handler
    sets, the order of the offsets) holds whatever the three rest positions
    are.  The choice of the rest position at a release, which depends on
    rounding, is stated of [Panel64] below. *)
Module Panel.

(** [type SnapPoints = { collapsed; mid; expanded }]. *)
Record SnapPoints := mkSnapPoints {
  collapsed : Q;
  mid : Q;
  expanded : Q
}.

(** The three rest positions, from the height of the window. *)
Definition snapPoints (screenHeight : Q) : SnapPoints :=
  {| collapsed := screenHeight * 0.8;
     mid := screenHeight * 0.5;
     expanded := screenHeight * 0.1 |}.

(** The gesture handler's [State]. *)
Inductive State := UNDETERMINED | FAILED | BEGAN | CANCELLED | ACTIVE | END.

Definition State_eqb (a b : State) : bool :=
  match a, b with
  | UNDETERMINED, UNDETERMINED | FAILED, FAILED | BEGAN, BEGAN
  | CANCELLED, CANCELLED | ACTIVE, ACTIVE | END, END => true
  | _, _ => false
  end.

(** [event.nativeEvent] of a pan gesture. *)
Record NativeEvent := mkNativeEvent {
  state : State;
  translationY : Q;
  velocityY : Q
}.

(** The mutable cells of the panel: the state [currentSnapPoint], the
    animated value [translateY], and the refs [lastGesture],
    [scrollOffset] and [isDragging]. *)
Record Sheet := mkSheet {
  currentSnapPoint : Q;
  translateY : Q;
  lastGesture : Q;
  scrollOffset : Q;
  isDragging : bool
}.

(** The panel at mount. *)
Definition initial (sp : SnapPoints) : Sheet :=
  {| currentSnapPoint := collapsed sp;
     translateY := collapsed sp;
     lastGesture := collapsed sp;
     scrollOffset := 0;
     isDragging := false |}.

(** [snapTo(point)]: the spring settles [translateY] at [point]. *)
Definition snapTo (point : Q) (s : Sheet) : Sheet :=
  {| currentSnapPoint := point;
     translateY := point;
     lastGesture := lastGesture s;
     scrollOffset := scrollOffset s;
     isDragging := isDragging s |}.

(** [onGestureEvent]. *)
Definition onGestureEvent (sp : SnapPoints) (ev : NativeEvent) (s : Sheet) : Sheet :=
  let newTranslateY := lastGesture s + translationY ev in
  let maxTranslate := collapsed sp in
  let minTranslate := expanded sp in
  let constrainedTranslate :=
    JS.max minTranslate (JS.min maxTranslate newTranslateY) in
  {| currentSnapPoint := currentSnapPoint s;
     translateY := constrainedTranslate;
     lastGesture := lastGesture s;
     scrollOffset := scrollOffset s;
     isDragging := true |}.

(** The reducer of [positions.reduce]: keep [prev] unless [curr] is
    strictly closer to the offset. *)
Definition closer (currentOffset prev curr : Q) : Q :=
  if JS.lt (JS.abs (curr - currentOffset)) (JS.abs (prev - currentOffset))
  then curr else prev.

(** The rest position chosen at release. *)
Definition targetSnapPoint (sp : SnapPoints) (velocityY currentPosition : Q) : Q :=
  if JS.lt velocityY (-500) then expanded sp
  else if JS.gt velocityY 500 then collapsed sp
  else JS.reduce (closer currentPosition) (collapsed sp) [mid sp; expanded sp].

(** [onHandleStateChange]. *)
Definition onHandleStateChange (sp : SnapPoints) (ev : NativeEvent) (s : Sheet) : Sheet :=
  if State_eqb (state ev) END then
    let currentPosition := lastGesture s + translationY ev in
    let s1 :=
      {| currentSnapPoint := currentSnapPoint s;
         translateY := translateY s;
         lastGesture := currentPosition;
         scrollOffset := scrollOffset s;
         isDragging := false |} in
    snapTo (targetSnapPoint sp (velocityY ev) currentPosition) s1
  else s.

(** [handleScroll], with [contentOffset.y] of the list. *)
Definition handleScroll (sp : SnapPoints) (y : Q) (s : Sheet) : Sheet :=
  if isDragging s then s
  else
    let s1 :=
      {| currentSnapPoint := currentSnapPoint s;
         translateY := translateY s;
         lastGesture := lastGesture s;
         scrollOffset := y;
         isDragging := isDragging s |} in
    (* both tests read the [currentSnapPoint] of the render *)
    let s2 :=
      if JS.gt y 0 && JS.eq (currentSnapPoint s) (collapsed sp)
      then snapTo (mid sp) s1 else s1 in
    if JS.eq y 0 && negb (JS.eq (currentSnapPoint s) (collapsed sp))
    then snapTo (collapsed sp) s2 else s2.

End Panel.

(* ===================================================================== *)
(** * The release of the panel, on binary64 *)
(* ===================================================================== *)

(** Where the panel comes to rest after a drag depends on how the
    products [screenHeight * 0.8], [* 0.5], [* 0.1] and the distances
    [Math.abs(curr - currentOffset)] are rounded, so the handler of the
    release is embedded a second time with the numbers of the program:
    [float] is binary64, its operations round to nearest even as
    JavaScript's do, a decimal literal denotes the binary64 number nearest
    to it, and [<?] is false as soon as one side is [NaN]. *)

Module Panel64.

Import PrimFloat.
Local Open Scope float_scope.
#[local] Set Warnings "-inexact-float".

(** [type SnapPoints = { collapsed; mid; expanded }]. *)
Record SnapPoints := mkSnapPoints {
  collapsed : float;
  mid : float;
  expanded : float
}.

(** The three rest positions, from the height of the window. *)
Definition snapPoints (screenHeight : float) : SnapPoints :=
  {| collapsed := screenHeight * 0.8;
     mid := screenHeight * 0.5;
     expanded := screenHeight * 0.1 |}.

(** [event.nativeEvent] of a pan gesture. *)
Record NativeEvent := mkNativeEvent {
  state : Panel.State;
  translationY : float;
  velocityY : float
}.

(** The mutable cells of the panel. *)
Record Sheet := mkSheet {
  currentSnapPoint : float;
  translateY : float;
  lastGesture : float;
  scrollOffset : float;
  isDragging : bool
}.

(** The panel at mount. *)
Definition initial (sp : SnapPoints) : Sheet :=
  {| currentSnapPoint := collapsed sp;
     translateY := collapsed sp;
     lastGesture := collapsed sp;
     scrollOffset := 0;
     isDragging := false |}.

(** [snapTo(point)]: the spring settles [translateY] at [point]. *)
Definition snapTo (point : float) (s : Sheet) : Sheet :=
  {| currentSnapPoint := point;
     translateY := point;
     lastGesture := lastGesture s;
     scrollOffset := scrollOffset s;
     isDragging := isDragging s |}.

(** The reducer of [positions.reduce]: keep [prev] unless
    [Math.abs(curr - currentOffset) < Math.abs(prev - currentOffset)]. *)
Definition closer (currentOffset prev curr : float) : float :=
  if abs (curr - currentOffset) <? abs (prev - currentOffset)
  then curr else prev.

(** The rest position chosen at release. *)
Definition targetSnapPoint (sp : SnapPoints) (velocityY currentPosition : float) : float :=
  if velocityY <? -500 then expanded sp
  else if 500 <? velocityY then collapsed sp
  else JS.reduce (closer currentPosition) (collapsed sp) [mid sp; expanded sp].

(** [onHandleStateChange]. *)
Definition onHandleStateChange (sp : SnapPoints) (ev : NativeEvent) (s : Sheet) : Sheet :=
  if Panel.State_eqb (state ev) Panel.END then
    let currentPosition := lastGesture s + translationY ev in
    let s1 :=
      {| currentSnapPoint := currentSnapPoint s;
         translateY := translateY s;
         lastGesture := currentPosition;
         scrollOffset := scrollOffset s;
         isDragging := false |} in
    snapTo (targetSnapPoint sp (velocityY ev) currentPosition) s1
  else s.

(** How far the position [x] is from the offset [p]: the number the
    program compares, the rounded difference without its sign. *)
Definition distance (p x : float) : float := abs (x - p).

(** A number that is not [NaN]. *)
Definition number (x : float) : Prop := is_nan x = false.

(** The position of a list that is closest to [p], the earlier one of two
    at the same distance: the reading of the specification. *)
Definition closest_first (l : list float) (p t : float) : Prop :=
  exists i,
    nth_error l i = Some t /\
    (forall j x, nth_error l j = Some x ->
                 (distance p t <=? distance p x) = true) /\
    (forall j x, (j < i)%nat -> nth_error l j = Some x ->
                 (distance p t <? distance p x) = true).

End Panel64.

(* ===================================================================== *)
(** * Programs that call services outside the component *)
(* ===================================================================== *)

Module Free.

Section Prog.

(** The calls a program may issue and, for each, the type of its
    answer. *)
Variable E : Type.
Variable R : E -> Type.

(** A program returns, or issues a call and goes on with the answer. *)
Inductive Prog (A : Type) : Type :=
| Ret (a : A)
| Vis (e : E) (k : R e -> Prog A).

Arguments Ret {A} a.
Arguments Vis {A} e k.

Fixpoint bind {A B} (p : Prog A) (f : A -> Prog B) : Prog B :=
  match p with
  | Ret a => f a
  | Vis e k => Vis e (fun r => bind (k r) f)
  end.

(** Issue one call and return its answer. *)
Definition call (e : E) : Prog (R e) := Vis e Ret.

(** A call together with the answer it got. *)
Definition Event : Type := {e : E & R e}.

(** The environment: it answers each call from a state of its own. *)
Definition Handler (S : Type) : Type := forall e : E, S -> R e * S.

(** Run a program against an environment: the calls with their
    answers in the order issued, the result, and the environment
    left. *)
Fixpoint run {S A} (h : Handler S) (p : Prog A) (s : S)
  : list Event * A * S :=
  match p with
  | Ret a => ([], a, s)
  | Vis e k =>
      let (r, s1) := h e s in
      let '(tr, a, s2) := run h (k r) s1 in
      (existT R e r :: tr, a, s2)
  end.

Definition trace {S A} (h : Handler S) (p : Prog A) (s : S) : list Event :=
  fst (fst (run h p s)).

Definition result {S A} (h : Handler S) (p : Prog A) (s : S) : A :=
  snd (fst (run h p s)).

Definition final {S A} (h : Handler S) (p : Prog A) (s : S) : S :=
  snd (run h p s).

(** The calls of a trace, without the answers. *)
Definition calls (tr : list Event) : list E := map (@projT1 E R) tr.

End Prog.

Arguments Ret {E R A} a.
Arguments Vis {E R A} e k.
Arguments bind {E R A B} p f.
Arguments call {E R} e.
Arguments run {E R S A} h p s.
Arguments trace {E R S A} h p s.
Arguments result {E R S A} h p s.
Arguments final {E R S A} h p s.
Arguments calls {E R} tr.

End Free.

Import Free.

Declare Scope prog_scope.
Delimit Scope prog_scope with prog.
Notation "x <- p ;; q" := (bind p (fun x => q))
  (at level 61, p at next level, right associativity) : prog_scope.
Notation "p ;; q" := (bind p (fun _ => q))
  (at level 61, right associativity) : prog_scope.

(* ===================================================================== *)
(** * The device's location service (expo-location) *)
(* ===================================================================== *)

Module Location.

(** [{ latitude, longitude }]. *)
Record Coords := mkCoords {
  latitude : Q;
  longitude : Q
}.

(** [LocationGeocodedAddress]: the parts the screens read. *)
Record Address := mkAddress {
  street : option string;
  city : option string;
  region : option string;
  country : option string
}.

(** The calls of the service. *)
Inductive Call :=
| geocodeAsync (address : string)
| reverseGeocodeAsync (location : Coords)
| getCurrentPositionAsync.

(** The answer of each call; [None] is a rejected promise. *)
Definition Answer (c : Call) : Type :=
  match c with
  | geocodeAsync _ => option (list Coords)
  | reverseGeocodeAsync _ => option (list Address)
  | getCurrentPositionAsync => option Coords
  end.

Definition Prog := Free.Prog Call Answer.
Definition Event := Free.Event Call Answer.
Definition Handler := Free.Handler Call Answer.

(** The calls as programs. *)
Definition geocode (address : string) : Prog (option (list Coords)) :=
  call (geocodeAsync address).
Definition reverseGeocode (location : Coords) : Prog (option (list Address)) :=
  call (reverseGeocodeAsync location).
Definition getCurrentPosition : Prog (option Coords) :=
  call getCurrentPositionAsync.

(** The geocoding calls of a trace, each with its answer. *)
Definition geocodeOf (ev : Event) : option (string * option (list Coords)) :=
  match ev with
  | existT _ c a =>
      match c return Answer c -> option (string * option (list Coords)) with
      | geocodeAsync t => fun a => Some (t, a)
      | _ => fun _ => None
      end a
  end.

Fixpoint geocodes (tr : list Event) : list (string * option (list Coords)) :=
  match tr with
  | [] => []
  | ev :: r =>
      match geocodeOf ev with
      | Some g => g :: geocodes r
      | None => geocodes r
      end
  end.

(** The reverse-geocoding calls of a trace, each with its answer. *)
Definition reverseOf (ev : Event) : option (Coords * option (list Address)) :=
  match ev with
  | existT _ c a =>
      match c return Answer c -> option (Coords * option (list Address)) with
      | reverseGeocodeAsync location => fun a => Some (location, a)
      | _ => fun _ => None
      end a
  end.

Fixpoint reverses (tr : list Event) : list (Coords * option (list Address)) :=
  match tr with
  | [] => []
  | ev :: r =>
      match reverseOf ev with
      | Some g => g :: reverses r
      | None => reverses r
      end
  end.

End Location.

(* ===================================================================== *)
(** * Timers of the event loop *)
(* ===================================================================== *)

Module Timers.

(** A scheduled callback: the handle [setTimeout] returned, the time it
    is due, and what it runs (here: the query it looks up). *)
Record Timer := mkTimer {
  handle : nat;
  due : nat;
  callback : string
}.

(** The clock in milliseconds, the next free handle, the callbacks
    waiting, and the callbacks that ran, oldest first. *)
Record Loop := mkLoop {
  now : nat;
  nextHandle : nat;
  pending : list Timer;
  ran : list string
}.

(** Handles start at 1: a handle is truthy. *)
Definition start : Loop :=
  {| now := 0; nextHandle := 1; pending := []; ran := [] |}.

(** [setTimeout(callback, delay)]. *)
Definition setTimeout (cb : string) (delay : nat) (l : Loop) : nat * Loop :=
  (nextHandle l,
   {| now := now l;
      nextHandle := S (nextHandle l);
      pending := pending l ++ [mkTimer (nextHandle l) (now l + delay) cb];
      ran := ran l |}).

(** [clearTimeout(handle)]. *)
Definition clearTimeout (h : nat) (l : Loop) : Loop :=
  {| now := now l;
     nextHandle := nextHandle l;
     pending := filter (fun t => negb (handle t =? h)%nat) (pending l);
     ran := ran l |}.

(** The clock moves on by [ms]: every callback due by then runs, in the
    order scheduled, and leaves the waiting list.  (All timers here have
    the same delay, so the order scheduled is the order due.) *)
Definition elapse (ms : nat) (l : Loop) : Loop :=
  let t := (now l + ms)%nat in
  {| now := t;
     nextHandle := nextHandle l;
     pending := filter (fun x => negb (due x <=? t)%nat) (pending l);
     ran := ran l ++ map callback (filter (fun x => (due x <=? t)%nat) (pending l)) |}.

End Timers.


(* ===================================================================== *)
(** * The location search of both screens *)
(* ===================================================================== *)

(** [handleSearch] is the same function in [CreateRouteScreen] and in
    [MapScreen]; it is embedded once. *)
Module Search.

Import Location Timers.
Local Open Scope prog_scope.

(** An entry of the result list, [{ ...address[0], coords }]. *)
Record SearchResult := mkSearchResult {
  street : option string;
  city : option string;
  region : option string;
  country : option string;
  coords : option Coords
}.

(** The search state of a screen: [searchQuery], [searchResults],
    [showSearchResults] and [searchTimeout]. *)
Record SearchState := mkSearchState {
  searchQuery : string;
  searchResults : list SearchResult;
  showSearchResults : bool;
  searchTimeout : option nat
}.

Definition initial : SearchState :=
  {| searchQuery := EmptyString;
     searchResults := [];
     showSearchResults := false;
     searchTimeout := None |}.

(** The terms tried after the raw query found nothing. *)
Definition searchTerms (query : string) : list string :=
  [ query ++ ", Sweden";
    query ++ ", Gothenburg";
    query ++ ", Stockholm";
    query ++ ", Malmö";
    query ].

(** [for (const term of searchTerms) { results = await geocodeAsync(term);
    if (results.length > 0) break; }]; [None] when a call throws. *)
Fixpoint tryTerms (terms : list string) (results : list Coords)
  : Prog (option (list Coords)) :=
  match terms with
  | [] => Ret (Some results)
  | term :: rest =>
      a <- geocode term ;;
      match a with
      | None => Ret None
      | Some results' =>
          if (0 <? List.length results')%nat then Ret (Some results')
          else tryTerms rest results'
      end
  end.

(** The geocoding phase: the raw query, then the terms if it found
    nothing. *)
Definition geocodeWithFallback (query : string) : Prog (option (list Coords)) :=
  a <- geocode query ;;
  match a with
  | None => Ret None
  | Some results =>
      if (List.length results =? 0)%nat then tryTerms (searchTerms query) results
      else Ret (Some results)
  end.

(** [{ ...address[0], coords: { latitude, longitude } }]. *)
Definition withCoords (address : list Address) (result : Coords) : SearchResult :=
  match address with
  | a :: _ =>
      {| street := Location.street a;
         city := Location.city a;
         region := Location.region a;
         country := Location.country a;
         coords := Some (mkCoords (latitude result) (longitude result)) |}
  | [] =>
      {| street := None; city := None; region := None; country := None;
         coords := Some (mkCoords (latitude result) (longitude result)) |}
  end.

(** [results.map(async result => ...)]: every reverse-geocoding call is
    issued, in the order of the hits. *)
Fixpoint reverseAll (results : list Coords) : Prog (list (option SearchResult)) :=
  match results with
  | [] => Ret []
  | result :: rest =>
      a <- reverseGeocode (mkCoords (latitude result) (longitude result)) ;;
      r <- reverseAll rest ;;
      Ret (option_map (fun address => withCoords address result) a :: r)
  end.

(** [Promise.all]: the values in order, or a rejection if one rejects. *)
Fixpoint all {A} (l : list (option A)) : option (list A) :=
  match l with
  | [] => Some []
  | Some x :: r => option_map (cons x) (all r)
  | None :: _ => None
  end.

(** [a?.x === b?.x] for a number [x]. *)
Definition sameNumber (a b : option Q) : bool :=
  match a, b with
  | Some x, Some y => JS.eq x y
  | None, None => true
  | _, _ => false
  end.

Definition sameCoords (addr a : SearchResult) : bool :=
  sameNumber (option_map latitude (coords a)) (option_map latitude (coords addr))
  && sameNumber (option_map longitude (coords a)) (option_map longitude (coords addr)).

(** [addresses.filter((addr, index, self) => addr && addr.coords &&
    index === self.findIndex(a => ...))]. *)
Definition uniqueAddresses (addresses : list SearchResult) : list SearchResult :=
  JS.filteri
    (fun addr index =>
       match coords addr with
       | Some _ =>
           match JS.findIndex (sameCoords addr) addresses with
           | Some i => (index =? i)%nat
           | None => false
           end
       | None => false
       end)
    addresses.

(** How a lookup ends: with a list to show, with nothing found, or in the
    [catch]. *)
Inductive Outcome :=
| Found (uniqueAddresses : list SearchResult)
| Nothing
| Caught.

(** The callback of the timer. *)
Definition lookup (query : string) : Prog Outcome :=
  g <- geocodeWithFallback query ;;
  match g with
  | None => Ret Caught
  | Some results =>
      if (0 <? List.length results)%nat then
        addresses <- reverseAll results ;;
        match all addresses with
        | None => Ret Caught
        | Some addresses => Ret (Found (uniqueAddresses addresses))
        end
      else Ret Nothing
  end.

(** The state after a lookup has ended. *)
Definition settle (o : Outcome) (s : SearchState) : SearchState :=
  match o with
  | Found l =>
      {| searchQuery := searchQuery s;
         searchResults := l;
         showSearchResults := true;
         searchTimeout := searchTimeout s |}
  | Nothing | Caught => s
  end.

(** [handleSearch(query)]: the part that runs at once.  The callback it
    schedules is [lookup query]. *)
Definition handleSearch (query : string) (s : SearchState) (l : Loop)
  : SearchState * Loop :=
  let l1 :=
    match searchTimeout s with
    | Some h => clearTimeout h l
    | None => l
    end in
  if JS.blank query then
    ({| searchQuery := query;
        searchResults := [];
        showSearchResults := false;
        searchTimeout := searchTimeout s |}, l1)
  else
    let (timeout, l2) := setTimeout query 300 l1 in
    ({| searchQuery := query;
        searchResults := searchResults s;
        showSearchResults := showSearchResults s;
        searchTimeout := Some timeout |}, l2).

(** The cleanup of the effect on [searchTimeout]: it clears the handle of
    the render the effect belongs to. *)
Definition cleanup (s : SearchState) (l : Loop) : Loop :=
  match searchTimeout s with
  | Some h => clearTimeout h l
  | None => l
  end.

(** Whether the dependency [searchTimeout] of the effect is unchanged. *)
Definition sameHandle (a b : option nat) : bool :=
  match a, b with
  | Some x, Some y => (x =? y)%nat
  | None, None => true
  | _, _ => false
  end.

(** What happens to the search box: a keystroke, or time passing. *)
Inductive Input :=
| Typed (query : string)
| Elapsed (ms : nat).

(** One input.  A keystroke runs [handleSearch] with the state of the
    latest render; when that changes [searchTimeout], the render that
    follows runs the cleanup of the effect of the render before. *)
Definition step (st : SearchState * Loop) (i : Input) : SearchState * Loop :=
  match i with
  | Typed query =>
      let st' := handleSearch query (fst st) (snd st) in
      if sameHandle (searchTimeout (fst st)) (searchTimeout (fst st')) then st'
      else (fst st', cleanup (fst st) (snd st'))
  | Elapsed ms => (fst st, elapse ms (snd st))
  end.

Definition steps (st : SearchState * Loop) (inputs : list Input) : SearchState * Loop :=
  fold_left step inputs st.

(** A burst of keystrokes: the first one now, each further one [gap]
    milliseconds after the one before. *)
Fixpoint burst (rest : list (nat * string)) : list Input :=
  match rest with
  | [] => []
  | (gap, query) :: r => Elapsed gap :: Typed query :: burst r
  end.

(** The last query of a burst that starts with [query]. *)
Fixpoint lastQuery (query : string) (rest : list (nat * string)) : string :=
  match rest with
  | [] => query
  | (_, q) :: r => lastQuery q r
  end.

(** Every pending timer is the one [searchTimeout] holds, and the handle
    [searchTimeout] holds has been handed out. *)
Definition tracked (st : SearchState * Loop) : Prop :=
  (forall t, In t (pending (snd st)) -> searchTimeout (fst st) = Some (handle t))
  /\ (forall h, searchTimeout (fst st) = Some h -> (h < nextHandle (snd st))%nat).

(** The attempts of the geocoding phase against a list of terms, as the
    specification words them: each term in order while the answers are
    empty, stopping at the first answer that is not an empty list. *)
Inductive attempts : list string -> list (string * option (list Coords)) -> Prop :=
| attempts_stop term rest a :
    a <> Some [] -> attempts (term :: rest) [(term, a)]
| attempts_exhausted term :
    attempts [term] [(term, Some [])]
| attempts_next term rest tr :
    rest <> [] -> attempts rest tr ->
    attempts (term :: rest) ((term, Some []) :: tr).

(** The state right after [handleSearch query]: nothing is pending for a
    blank query; otherwise the one pending timer is the lookup of the
    query, due in 300 ms and held by [searchTimeout]. *)
Definition armed (query : string) (st : SearchState * Loop) : Prop :=
  (forall h, searchTimeout (fst st) = Some h -> (h < nextHandle (snd st))%nat)
  /\ if JS.blank query then pending (snd st) = []
     else exists hd,
         pending (snd st) = [mkTimer hd (now (snd st) + 300) query]
         /\ searchTimeout (fst st) = Some hd.

(** A geocoding call that found nothing. *)
Definition emptyAnswer (g : string * option (list Coords)) : Prop :=
  snd g = Some [].

(** An entry that carries coordinates. *)
Definition located (a : SearchResult) : Prop := coords a <> None.

(** Two entries at the same spot: the coordinates are equal numbers. *)
Definition sameSpot (a b : SearchResult) : Prop :=
  match coords a, coords b with
  | Some x, Some y => latitude x == latitude y /\ longitude x == longitude y
  | _, _ => False
  end.

(** Deduplication in first-seen order, as the specification words it:
    going through the hits in order, a hit at a spot seen before is
    dropped, any other is emitted.  [seen] holds the hits gone through. *)
Inductive firstSeen : list SearchResult -> list SearchResult -> list SearchResult -> Prop :=
| firstSeen_nil seen :
    firstSeen seen [] []
| firstSeen_drop seen a rest out :
    (exists b, In b seen /\ sameSpot b a) ->
    firstSeen (seen ++ [a]) rest out ->
    firstSeen seen (a :: rest) out
| firstSeen_emit seen a rest out :
    (forall b, In b seen -> ~ sameSpot b a) ->
    firstSeen (seen ++ [a]) rest out ->
    firstSeen seen (a :: rest) (a :: out).

(** The entry of a hit, as the specification words it: the parts of the
    first address found at the hit, none when no address was found, with
    the coordinates of the hit. *)
Definition entryOf (hit : Coords) (addresses : list Address) : SearchResult :=
  let part (f : Address -> option string) :=
    match hd_error addresses with
    | Some a => f a
    | None => None
    end in
  {| street := part Location.street;
     city := part Location.city;
     region := part Location.region;
     country := part Location.country;
     coords := Some hit |}.

(** [first] is the one entry of [l] at the spot of [a]. *)
Definition onlyAt (a first : SearchResult) (l : list SearchResult) : Prop :=
  exists before after,
    l = (before ++ first :: after)%list
    /\ sameSpot first a
    /\ forall b, In b (before ++ after)%list -> ~ sameSpot b a.

(** [first] is the first entry of [l] at the spot of [a]. *)
Definition firstAt (a first : SearchResult) (l : list SearchResult) : Prop :=
  exists before after,
    l = (before ++ first :: after)%list
    /\ sameSpot first a
    /\ forall b, In b before -> ~ sameSpot b a.

(** Two hits that agree to within [1e-9] in both coordinates. *)
Definition agree (a b : Coords) : Prop :=
  Qabs (latitude a - latitude b) <= 0.000000001
  /\ Qabs (longitude a - longitude b) <= 0.000000001.

End Search.


(* ===================================================================== *)
(** * The records of a route ([types/route], [components]) *)
(* ===================================================================== *)

(** The type declarations the screens import ([Waypoint] of [components];
    [WaypointData], [MediaItem], [MediaUrl], [Exercise] and [RouteData]
    of [types/route]) are not among the sources.  Sections 3 and 6 of the
    specification give their fields, and the screens show how each field
    is used. *)

Module Region.
(** The viewport: the centre and the span shown around it. *)
Record t := mk {
  latitude : Q;
  longitude : Q;
  latitudeDelta : Q;
  longitudeDelta : Q
}.

(** A point is inside the viewport when it is at most half a span away
    from the centre in each direction. *)
Definition shows (r : t) (lat lng : Q) : Prop :=
  latitude r - latitudeDelta r / 2 <= lat <= latitude r + latitudeDelta r / 2
  /\ longitude r - longitudeDelta r / 2 <= lng <= longitude r + longitudeDelta r / 2.
End Region.

Module Waypoint.
(** Modelled from the spec: the type [Waypoint] of [components], missing
    from the sources; a point with a title and a description. *)
Record t := mk {
  latitude : Q;
  longitude : Q;
  title : string;
  description : string
}.
End Waypoint.

Module WaypointData.
(** Modelled from the spec: the type [WaypointData] of [types/route],
    missing from the sources; a persisted waypoint,
    [{lat, lng, title, description}]. *)
Record t := mk {
  lat : Q;
  lng : Q;
  title : string;
  description : string
}.
End WaypointData.

(** Modelled from the spec: the type of [MediaItem.type], missing from
    the sources; [image | video | youtube]. *)
Inductive MediaType := image | video | youtube.

Definition MediaType_eqb (a b : MediaType) : bool :=
  match a, b with
  | image, image | video, video | youtube, youtube => true
  | _, _ => false
  end.

Module MediaUrl.
(** Modelled from the spec: the type [MediaUrl] of [types/route], missing
    from the sources; a persisted attachment, [{type, url, description}]. *)
Record t := mk {
  type : MediaType;
  url : string;
  description : option string
}.
End MediaUrl.

(** The thumbnail of a video link,
    [https://img.youtube.com/vi/${extractYoutubeVideoId(url)}/hqdefault.jpg],
    kept as the link it is computed from. *)
Inductive Thumbnail := youtubeThumbnail (url : string).

Module MediaItem.
(** Modelled from the spec: the type [MediaItem] of [types/route],
    missing from the sources; a media descriptor of the form,
    [{id, type, uri, fileName, description?, thumbnail?}]. *)
Record t := mk {
  id : string;
  type : MediaType;
  uri : string;
  fileName : string;
  description : option string;
  thumbnail : option Thumbnail
}.
End MediaItem.

Module Exercise.
(** Modelled from the spec: the type [Exercise] of [types/route], missing
    from the sources; an exercise of the form,
    [{id, title, description, duration?, repetitions?}]. *)
Record t := mk {
  id : string;
  title : string;
  description : string;
  duration : option string;
  repetitions : option string
}.
End Exercise.

(* ===================================================================== *)
(** * The map screen: the viewport over the loaded routes *)
(* ===================================================================== *)

Module MapScreen.

(** [RouteMetadata]: of its optional fields, [waypoints] is the one read
    here. *)
Module RouteMetadata.
Record t := mk {
  waypoints : option (list WaypointData.t)
}.
End RouteMetadata.

(** A loaded route: the two places its waypoints may be stored in.
    [metadata] is read with [?.], so it may be missing. *)
Module Route.
Record t := mk {
  waypoint_details : option (list WaypointData.t);
  metadata : option RouteMetadata.t
}.
End Route.

(** [route.waypoint_details || route.metadata?.waypoints || []].  An array
    is truthy, also an empty one. *)
Definition waypointsData (route : Route.t) : list WaypointData.t :=
  match Route.waypoint_details route with
  | Some l => l
  | None =>
      match Route.metadata route with
      | Some m =>
          match RouteMetadata.waypoints m with
          | Some l => l
          | None => []
          end
      | None => []
      end
  end.

(** [routes.flatMap(route => ...)] of [getMapRegion]. *)
Definition allWaypoints (routes : list Route.t) : list WaypointData.t :=
  flat_map waypointsData routes.

(** [getMapRegion].  The centre and the spans are computed on rationals;
    which waypoints they are computed from, and whether there is a viewport
    at all, does not depend on the arithmetic. *)
Definition getMapRegion (routes : list Route.t) : option Region.t :=
  if (List.length routes =? 0)%nat then None
  else
    match allWaypoints routes with
    | [] => None
    | wp :: wps =>
        let minLat := JS.minOf (WaypointData.lat wp) (map WaypointData.lat wps) in
        let maxLat := JS.maxOf (WaypointData.lat wp) (map WaypointData.lat wps) in
        let minLng := JS.minOf (WaypointData.lng wp) (map WaypointData.lng wps) in
        let maxLng := JS.maxOf (WaypointData.lng wp) (map WaypointData.lng wps) in
        let latPadding := (maxLat - minLat) * 0.1 in
        let lngPadding := (maxLng - minLng) * 0.1 in
        let minDelta := 0.01 in
        let latDelta := JS.max ((maxLat - minLat) + latPadding) minDelta in
        let lngDelta := JS.max ((maxLng - minLng) + lngPadding) minDelta in
        Some {| Region.latitude := (minLat + maxLat) / 2;
                Region.longitude := (minLng + maxLng) / 2;
                Region.latitudeDelta := latDelta;
                Region.longitudeDelta := lngDelta |}
    end.

(** [initialRegion]. *)
Definition initialRegion : Region.t :=
  {| Region.latitude := 55.7047;
     Region.longitude := 13.191;
     Region.latitudeDelta := 0.1;
     Region.longitudeDelta := 0.1 |}.



End MapScreen.


(* ===================================================================== *)
(** * The route form: what it calls *)
(* ===================================================================== *)

Module Backend.

(** A value thrown: an [Error] with its message, or something else (the
    error objects of the backend client). *)
Inductive Thrown :=
| ErrorObj (message : string)
| NotAnError.

Module FormData.
(** [formData]. *)
Record t := mk {
  name : string;
  description : string;
  difficulty : string;
  spot_type : string;
  visibility : string;
  best_season : string;
  best_times : string;
  vehicle_types : list string;
  activity_level : string;
  spot_subtype : string;
  transmission_type : string;
  category : string
}.
End FormData.

Module Options.
Record t := mk {
  reverse : bool;
  closeLoop : bool;
  doubleBack : bool
}.
End Options.

Module Metadata.
(** [metadata] of the payload. *)
Record t := mk {
  waypoints : list WaypointData.t;
  pins : list WaypointData.t;
  options : Options.t;
  coordinates : list Location.Coords
}.
End Metadata.

(** [suggested_exercises]: the empty string, or [JSON.stringify] of the
    exercises, kept as the list it serialises. *)
Inductive ExercisesBlob :=
| emptyBlob
| stringify (exercises : list Exercise.t).

Module RouteData.
(** [baseRouteData], the row written. *)
Record t := mk {
  name : string;
  description : string;
  difficulty : string;
  spot_type : string;
  visibility : string;
  best_season : string;
  best_times : string;
  vehicle_types : list string;
  activity_level : string;
  spot_subtype : string;
  transmission_type : string;
  category : string;
  creator_id : string;
  updated_at : string;
  is_public : bool;
  waypoint_details : list WaypointData.t;
  metadata : Metadata.t;
  suggested_exercises : ExercisesBlob;
  media_attachments : list MediaUrl.t;
  drawing_mode : string
}.
End RouteData.

Module Row.
(** A row read back ([RouteData] of [types/route]): a column may be
    [null]. *)
Record t := mk {
  name : option string;
  description : option string;
  difficulty : option string;
  spot_type : option string;
  visibility : option string;
  best_season : option string;
  best_times : option string;
  vehicle_types : option (list string);
  activity_level : option string;
  spot_subtype : option string;
  transmission_type : option string;
  category : option string;
  waypoint_details : option (list WaypointData.t);
  exercises : option (list Exercise.t);
  media_attachments : option (list MediaUrl.t)
}.
End Row.

(** The answer of a write that ends in [.select().single()]: the id of
    the row returned, and the error. *)
Module Written.
Record t := mk {
  data : option string;
  error : option Thrown
}.
End Written.

(** The answer of [select('*')...single()]. *)
Module Selected.
Record t := mk {
  data : option Row.t;
  error : option Thrown
}.
End Selected.

(** What the form calls: the alert box, its own [loading] and [error]
    state, the clock, the [routes] table, the [media] bucket, analytics,
    the console and the navigator. *)
Inductive Call :=
| Alert_alert (title message : string)
| setLoading (loading : bool)
| setError (error : option string)
| console_error (label : string)
| toISOString
| Date_now
| Math_random
| select_media_attachments (routeId : string)
| select_all (routeId : string)
| update (routeId : string) (data : RouteData.t)
| insert (data : RouteData.t) (created_at : string)
| update_media_attachments (routeId : string) (attachments : list MediaUrl.t)
| delete (routeId : string)
| storage_upload (filePath uri contentType : string)
| getPublicUrl (filePath : string)
| trackRouteEdit (routeId : string)
| trackRouteCreate (spot_type : string)
| goBack
| previousScreen_name
| mark_shouldRefresh.

(** The answers.  [Math_random] answers with the rendering of the number,
    the only thing the form does with it.  [previousScreen_name] answers
    with the name of the screen below the top of the stack, or, when there
    is none, with the message of the [TypeError] that reading its name
    throws. *)
Definition Answer (c : Call) : Type :=
  match c with
  | Alert_alert _ _ | setLoading _ | setError _ | console_error _
  | goBack | mark_shouldRefresh => unit
  | toISOString | Math_random | getPublicUrl _ => string
  | Date_now => N
  | select_media_attachments _ => option (list MediaUrl.t)
  | select_all _ => Selected.t
  | update _ _ | insert _ _ => Written.t
  | update_media_attachments _ _ | delete _ | storage_upload _ _ _
  | trackRouteEdit _ | trackRouteCreate _ => option Thrown
  | previousScreen_name => (string + string)%type
  end.

Definition Prog := Free.Prog Call Answer.
Definition Event := Free.Event Call Answer.
Definition Handler := Free.Handler Call Answer.

(** Issue a call of the form. *)
Definition ask (c : Call) : Prog (Answer c) := Free.call c.

(** A call that writes a route row: the create and the update of the
    record, the update of its attachments, and its deletion. *)
Definition writes (c : Call) : bool :=
  match c with
  | update _ _ | insert _ _ | update_media_attachments _ _ | delete _
  | storage_upload _ _ _ => true
  | _ => false
  end.

(** A call that reaches the backend at all. *)
Definition reachesBackend (c : Call) : bool :=
  match c with
  | select_media_attachments _ | select_all _ | update _ _ | insert _ _
  | update_media_attachments _ _ | delete _ | storage_upload _ _ _
  | getPublicUrl _ | trackRouteEdit _ | trackRouteCreate _ => true
  | _ => false
  end.

(** The rows a trace writes with [update] or [insert]. *)
Definition writtenRow (c : Call) : option RouteData.t :=
  match c with
  | update _ data | insert data _ => Some data
  | _ => None
  end.

Fixpoint writtenRows (cs : list Call) : list RouteData.t :=
  match cs with
  | [] => []
  | c :: r =>
      match writtenRow c with
      | Some data => data :: writtenRows r
      | None => writtenRows r
      end
  end.

(** The rows a trace writes. *)
Definition rows (tr : list Event) : list RouteData.t :=
  writtenRows (Free.calls tr).

(** The reads of the stored attachments in a trace, each with the route
    asked for and the answer: [data?.media_attachments], [None] when the
    read came back without it. *)
Definition readOf (ev : Event) : option (string * option (list MediaUrl.t)) :=
  match ev with
  | existT _ c a =>
      match c return Answer c -> option (string * option (list MediaUrl.t)) with
      | select_media_attachments routeId => fun a => Some (routeId, a)
      | _ => fun _ => None
      end a
  end.

Fixpoint reads (tr : list Event) : list (string * option (list MediaUrl.t)) :=
  match tr with
  | [] => []
  | ev :: r =>
      match readOf ev with
      | Some g => g :: reads r
      | None => reads r
      end
  end.

End Backend.


(* ===================================================================== *)
(** * The route form: its handlers *)
(* ===================================================================== *)

Module CreateRouteScreen.

Import Backend.
Local Open Scope prog_scope.

(** The state of the form that the handlers below read or set. *)
Record Screen := mkScreen {
  search : Search.SearchState;
  searchFocused : bool;
  waypoints : list Waypoint.t;
  region : Region.t;
  exercises : list Exercise.t;
  media : list MediaItem.t;
  formData : FormData.t;
  error : option string
}.

Definition initialFormData : FormData.t :=
  {| FormData.name := EmptyString;
     FormData.description := EmptyString;
     FormData.difficulty := "beginner";
     FormData.spot_type := "urban";
     FormData.visibility := "public";
     FormData.best_season := "all";
     FormData.best_times := "anytime";
     FormData.vehicle_types := ["passenger_car"];
     FormData.activity_level := "moderate";
     FormData.spot_subtype := "standard";
     FormData.transmission_type := "both";
     FormData.category := "parking" |}.

Definition initialRegion : Region.t :=
  {| Region.latitude := 55.7047;
     Region.longitude := 13.191;
     Region.latitudeDelta := 0.1;
     Region.longitudeDelta := 0.1 |}.

Definition initial : Screen :=
  {| search := Search.initial;
     searchFocused := false;
     waypoints := [];
     region := initialRegion;
     exercises := [];
     media := [];
     formData := initialFormData;
     error := None |}.

(** The setters. *)
Definition setSearchQuery (q : string) (s : Screen) : Screen :=
  mkScreen
    (Search.mkSearchState q (Search.searchResults (search s))
       (Search.showSearchResults (search s)) (Search.searchTimeout (search s)))
    (searchFocused s) (waypoints s) (region s) (exercises s) (media s)
    (formData s) (error s).

Definition setShowSearchResults (b : bool) (s : Screen) : Screen :=
  mkScreen
    (Search.mkSearchState (Search.searchQuery (search s))
       (Search.searchResults (search s)) b (Search.searchTimeout (search s)))
    (searchFocused s) (waypoints s) (region s) (exercises s) (media s)
    (formData s) (error s).

Definition blur (s : Screen) : Screen :=
  mkScreen (search s) false (waypoints s) (region s) (exercises s) (media s)
    (formData s) (error s).

Definition setWaypoints (w : list Waypoint.t) (s : Screen) : Screen :=
  mkScreen (search s) (searchFocused s) w (region s) (exercises s) (media s)
    (formData s) (error s).

Definition setRegion (r : Region.t) (s : Screen) : Screen :=
  mkScreen (search s) (searchFocused s) (waypoints s) r (exercises s) (media s)
    (formData s) (error s).

Definition setExercises (e : list Exercise.t) (s : Screen) : Screen :=
  mkScreen (search s) (searchFocused s) (waypoints s) (region s) e (media s)
    (formData s) (error s).

Definition setMedia (m : list MediaItem.t) (s : Screen) : Screen :=
  mkScreen (search s) (searchFocused s) (waypoints s) (region s) (exercises s) m
    (formData s) (error s).

Definition setFormData (f : FormData.t) (s : Screen) : Screen :=
  mkScreen (search s) (searchFocused s) (waypoints s) (region s) (exercises s)
    (media s) f (error s).

Definition setScreenError (e : option string) (s : Screen) : Screen :=
  mkScreen (search s) (searchFocused s) (waypoints s) (region s) (exercises s)
    (media s) (formData s) e.

(** What a handler of the location service leaves behind: the update of
    the state, to apply when the handler is done, and the alerts shown. *)
Record Effect := mkEffect {
  apply : Screen -> Screen;
  alerts : list (string * string)
}.

(** [[address.street, address.city, address.country].filter(Boolean)
    .join(', ')]. *)
Definition titleOf (street city country : option string) : string :=
  JS.join ", " (JS.filterBoolean [street; city; country]).

(** [`Waypoint ${n}`]. *)
Definition waypointLabel (n : nat) : string := "Waypoint " ++ JS.decimal n.

(** [handleMapPress], for a tap at [coordinate].  [s0] is the state of
    the render the handler belongs to: the label counts its waypoints. *)
Definition handleMapPress (s0 : Screen) (coordinate : Location.Coords)
  : Location.Prog Effect :=
  let latitude := Location.latitude coordinate in
  let longitude := Location.longitude coordinate in
  a <- Location.reverseGeocode (Location.mkCoords latitude longitude) ;;
  match a with
  | Some addresses =>
      let title :=
        match addresses with
        | address :: _ =>
            titleOf (Location.street address) (Location.city address)
              (Location.country address)
        | [] => waypointLabel (List.length (waypoints s0) + 1)
        end in
      let newWaypoint := Waypoint.mk latitude longitude title "Tapped location" in
      Ret {| apply := fun prev =>
               let s1 := setWaypoints (waypoints prev ++ [newWaypoint]) prev in
               let s2 := setSearchQuery title s1 in
               setRegion (Region.mk latitude longitude 0.01 0.01) s2;
             alerts := [] |}
  | None =>
      let newWaypoint :=
        Waypoint.mk latitude longitude
          (waypointLabel (List.length (waypoints s0) + 1)) "Tapped location" in
      Ret {| apply := fun prev => setWaypoints (waypoints prev ++ [newWaypoint]) prev;
             alerts := [] |}
  end.

(** The alert of the [catch] of [handleLocateMe]. *)
Definition locateAlert : string * string :=
  ("Error",
   "Failed to get your current location. Please check your location permissions and try again.").

(** [handleLocateMe]. *)
Definition handleLocateMe : Location.Prog Effect :=
  l <- Location.getCurrentPosition ;;
  match l with
  | None => Ret {| apply := fun prev => prev; alerts := [locateAlert] |}
  | Some coords =>
      let latitude := Location.latitude coords in
      let longitude := Location.longitude coords in
      let moved := setRegion (Region.mk latitude longitude 0.01 0.01) in
      a <- Location.reverseGeocode (Location.mkCoords latitude longitude) ;;
      match a with
      | None => Ret {| apply := moved; alerts := [locateAlert] |}
      | Some addresses =>
          let joined :=
            match addresses with
            | address :: _ =>
                titleOf (Location.street address) (Location.city address)
                  (Location.country address)
            | [] => titleOf None None None
            end in
          let title :=
            if JS.truthy (Some joined) then joined else "Current Location" in
          let newWaypoint := Waypoint.mk latitude longitude title "Current location" in
          Ret {| apply := fun prev =>
                   let s1 := moved prev in
                   let s2 := setWaypoints (waypoints s1 ++ [newWaypoint]) s1 in
                   blur (setSearchQuery title s2);
                 alerts := [] |}
      end
  end.

(** [handleLocationSelect(result)]. *)
Definition handleLocationSelect (result : Search.SearchResult) (s : Screen) : Screen :=
  match Search.coords result with
  | Some coords =>
      let latitude := Location.latitude coords in
      let longitude := Location.longitude coords in
      let s1 := setRegion (Region.mk latitude longitude 0.01 0.01) s in
      let title :=
        titleOf (Search.street result) (Search.city result) (Search.country result) in
      let newWaypoint := Waypoint.mk latitude longitude title "Searched location" in
      let s2 := setWaypoints (waypoints s1 ++ [newWaypoint]) s1 in
      blur (setShowSearchResults false (setSearchQuery title s2))
  | None => s
  end.

(** [handleMapPressWrapper]: its body is empty. *)
Definition handleMapPressWrapper : Location.Prog Effect :=
  Ret {| apply := fun prev => prev; alerts := [] |}.

(** What the user presses over the map of the form, with what the press
    hands over: the map at a point, the button [Locate Me], a row of the
    result list. *)
Inductive Press :=
| mapPress (coordinate : Location.Coords)
| locateMePress
| resultPress (result : Search.SearchResult).

(** The handler each press runs, as the form renders them:
    [<Map onPress={handleMapPressWrapper}>], which drops the point,
    [<Button onPress={handleLocateMe}>] and
    [<Button onPress={() => handleLocationSelect(result)}>].
    [handleMapPress] is passed to no component. *)
Definition onPress (p : Press) : Location.Prog Effect :=
  match p with
  | mapPress _ => handleMapPressWrapper
  | locateMePress => handleLocateMe
  | resultPress r => Ret {| apply := handleLocationSelect r; alerts := [] |}
  end.

(** The three handlers written to add a waypoint, each with what it is
    called with.  [mapTap] stands for a call of [handleMapPress], which the
    form itself never makes (see [onPress]). *)
Inductive Addition :=
| mapTap (coordinate : Location.Coords)
| deviceLocation
| searchSelection (result : Search.SearchResult).

(** The state after one of the three handlers has run against the
    environment [h]. *)
Definition add {S} (h : Location.Handler S) (e : S) (a : Addition) (s : Screen)
  : Screen :=
  match a with
  | mapTap coordinate => apply (result h (handleMapPress s coordinate) e) s
  | deviceLocation => apply (result h handleLocateMe e) s
  | searchSelection r => handleLocationSelect r s
  end.

(** [waypoints.slice(0, -1)], the button that removes the last waypoint. *)
Definition removeLast (s : Screen) : Screen :=
  setWaypoints (List.removelast (waypoints s)) s.

(** [handleRemoveMedia(index)]. *)
Definition handleRemoveMedia (index : nat) (s : Screen) : Screen :=
  setMedia (JS.filteri (fun _ i => negb (i =? index)%nat) (media s)) s.

(** The elements of a list that satisfy a property, in the order of the
    list. *)
Inductive Kept {A} (P : A -> Prop) : list A -> list A -> Prop :=
| Kept_nil : Kept P [] []
| Kept_keep x l k : P x -> Kept P l k -> Kept P (x :: l) (x :: k)
| Kept_drop x l k : ~ P x -> Kept P l k -> Kept P (x :: l) k.

(** A stored attachment is still referenced when its url is the uri of a
    local media item. *)
Definition stillReferenced (media : list MediaItem.t) (m : MediaUrl.t) : Prop :=
  In (MediaUrl.url m) (map MediaItem.uri media).

(** A local media item is newly added when its uri is not the url of a
    stored attachment and does not start with [http]. *)
Definition newlyAdded (stored : list MediaUrl.t) (m : MediaItem.t) : Prop :=
  ~ In (MediaItem.uri m) (map MediaUrl.url stored)
  /\ ~ exists rest, MediaItem.uri m = "http" ++ rest.

(** What [handleCreate] closes over: the signed-in user's id, the route
    being edited, and the state of the render. *)
Record Closure := mkClosure {
  user_id : option string;
  routeId : option string;
  screen : Screen
}.

(** [isEditing = !!routeId]. *)
Definition isEditing (c : Closure) : bool := JS.truthy (routeId c).

(** [const waypointDetails = waypoints.map((wp, index) => ...)]. *)
Definition waypointDetails (waypoints : list Waypoint.t) : list WaypointData.t :=
  JS.mapi
    (fun wp index =>
       {| WaypointData.lat := Waypoint.latitude wp;
          WaypointData.lng := Waypoint.longitude wp;
          WaypointData.title :=
            if JS.truthy (Some (Waypoint.title wp)) then Waypoint.title wp
            else waypointLabel (index + 1);
          WaypointData.description := Waypoint.description wp |})
    waypoints.

(** [item => ({ type, url: item.uri, description })]. *)
Definition attachmentOf (item : MediaItem.t) : MediaUrl.t :=
  {| MediaUrl.type := MediaItem.type item;
     MediaUrl.url := MediaItem.uri item;
     MediaUrl.description := MediaItem.description item |}.

(** [mediaToUpdate] when editing, from the attachments read back. *)
Definition reconcile (existingMedia : list MediaUrl.t) (media : list MediaItem.t)
  : list MediaUrl.t :=
  let existingMediaUrls := map MediaUrl.url existingMedia in
  let currentMediaUrls := map MediaItem.uri media in
  (filter (fun m => JS.includes currentMediaUrls (MediaUrl.url m)) existingMedia
   ++ map attachmentOf
        (filter
           (fun m => negb (JS.includes existingMediaUrls (MediaItem.uri m))
                     && negb (JS.startsWith (MediaItem.uri m) "http"))
           media))%list.

(** [existingRoute?.media_attachments || []]. *)
Definition orEmpty {A} (l : option (list A)) : list A :=
  match l with
  | Some l => l
  | None => []
  end.

(** [baseRouteData]. *)
Definition baseRouteData (creator : string) (s : Screen) (updated_at : string)
    (mediaToUpdate : list MediaUrl.t) : RouteData.t :=
  let f := formData s in
  let waypointDetails := waypointDetails (waypoints s) in
  {| RouteData.name := FormData.name f;
     RouteData.description := FormData.description f;
     RouteData.difficulty := FormData.difficulty f;
     RouteData.spot_type := FormData.spot_type f;
     RouteData.visibility := FormData.visibility f;
     RouteData.best_season := FormData.best_season f;
     RouteData.best_times := FormData.best_times f;
     RouteData.vehicle_types := FormData.vehicle_types f;
     RouteData.activity_level := FormData.activity_level f;
     RouteData.spot_subtype := FormData.spot_subtype f;
     RouteData.transmission_type := FormData.transmission_type f;
     RouteData.category := FormData.category f;
     RouteData.creator_id := creator;
     RouteData.updated_at := updated_at;
     RouteData.is_public := String.eqb (FormData.visibility f) "public";
     RouteData.waypoint_details := waypointDetails;
     RouteData.metadata :=
       {| Metadata.waypoints := waypointDetails;
          Metadata.pins := [];
          Metadata.options := Options.mk false false false;
          Metadata.coordinates := [] |};
     RouteData.suggested_exercises :=
       if (0 <? List.length (exercises s))%nat then stringify (exercises s)
       else emptyBlob;
     RouteData.media_attachments := mediaToUpdate;
     RouteData.drawing_mode := "waypoints" |}.

(** [s.split(sep).pop()]: what follows the last separator. *)
Fixpoint lastPiece (sep : ascii) (acc s : string) : string :=
  match s with
  | EmptyString => acc
  | String a r =>
      if Ascii.eqb a sep then lastPiece sep EmptyString r
      else lastPiece sep (acc ++ String a EmptyString) r
  end.

(** [s.split(sep).pop() || fallback]. *)
Definition popOr (sep : ascii) (s fallback : string) : string :=
  let piece := lastPiece sep EmptyString s in
  if JS.truthy (Some piece) then piece else fallback.

(** Whether a media item is still to be uploaded:
    [!m.uri.startsWith('http')]. *)
Definition isNew (m : MediaItem.t) : bool :=
  negb (JS.startsWith (MediaItem.uri m) "http").

(** The loop of [uploadMediaInBackground]; it ends with the value thrown,
    if any. *)
Fixpoint uploadEach (items : list MediaItem.t) (routeId : string)
  : Prog (option Thrown) :=
  match items with
  | [] => Ret None
  | item :: rest =>
      let fileExtension := popOr "." (MediaItem.fileName item) "jpg" in
      now <- ask Date_now ;;
      let filePath :=
        "routes/" ++ routeId ++ "/" ++ JS.decimalN now ++ "." ++ fileExtension in
      uploadError <-
        ask (storage_upload filePath (MediaItem.uri item)
                (if MediaType_eqb (MediaItem.type item) video
                 then "video/mp4" else "image/jpeg")) ;;
      match uploadError with
      | Some e => Ret (Some e)
      | None =>
          publicUrl <- ask (getPublicUrl filePath) ;;
          currentRoute <- ask (select_media_attachments routeId) ;;
          let currentAttachments := orEmpty currentRoute in
          let updatedAttachments :=
            (currentAttachments
             ++ [MediaUrl.mk (MediaItem.type item) publicUrl
                   (MediaItem.description item)])%list in
          updateError <- ask (update_media_attachments routeId updatedAttachments) ;;
          match updateError with
          | Some e => Ret (Some e)
          | None => uploadEach rest routeId
          end
      end
  end.

(** [uploadMediaInBackground(media, routeId)]. *)
Definition uploadMediaInBackground (media : list MediaItem.t) (routeId : string)
  : Prog (option Thrown) :=
  let newMediaItems := filter isNew media in
  r <- uploadEach newMediaItems routeId ;;
  match r with
  | Some e => ask (console_error "Error uploading media:") ;; Ret (Some e)
  | None => Ret None
  end.

(** The [catch] of [handleCreate]. *)
Definition failed (err : Thrown) : Prog unit :=
  ask (console_error "Route operation error:") ;;
  ask (setError
          (Some match err with
                | ErrorObj message => message
                | NotAnError => "Failed to save route. Please try again."
                end)) ;;
  ask (setLoading false).

(** [handleCreate] once the row is written: the uploads, then the way
    back. *)
Definition afterWrite (c : Closure) (route : option string) : Prog unit :=
  let media := media (screen c) in
  (match route with
   | Some id =>
       if (0 <? List.length media)%nat && JS.truthy route then
         let newMedia := filter isNew media in
         if (0 <? List.length newMedia)%nat then
           r <- uploadMediaInBackground newMedia id ;;
           match r with
           | Some _ => ask (console_error "Media upload error:")
           | None => Ret tt
           end
         else Ret tt
       else Ret tt
   | None => Ret tt
   end) ;;
  ask (setLoading false) ;;
  if isEditing c then
    ask goBack ;;
    previous <- ask previousScreen_name ;;
    match previous with
    | inl message => failed (ErrorObj message)
    | inr name =>
        if String.eqb name "RouteDetail" then ask mark_shouldRefresh
        else Ret tt
    end
  else ask goBack.

(** [handleCreate]. *)
Definition handleCreate (c : Closure) : Prog unit :=
  match user_id c with
  | None | Some EmptyString =>
      ask (Alert_alert "Error" "Please sign in to create a route")
  | Some user =>
      if JS.blank (FormData.name (formData (screen c))) then
        ask (Alert_alert "Error" "Please enter a route name")
      else
        ask (setLoading true) ;;
        ask (setError None) ;;
        match routeId c with
        | Some (String a r) =>
            let routeId := String a r in
            existingRoute <- ask (select_media_attachments routeId) ;;
            let existingMedia := orEmpty existingRoute in
            let mediaToUpdate := reconcile existingMedia (media (screen c)) in
            updated_at <- ask toISOString ;;
            w <- ask (update routeId
                         (baseRouteData user (screen c) updated_at mediaToUpdate)) ;;
            match Written.error w with
            | Some updateError => failed updateError
            | None =>
                t <- ask (trackRouteEdit routeId) ;;
                match t with
                | Some e => failed e
                | None => afterWrite c (Written.data w)
                end
            end
        | _ =>
            let mediaToUpdate := map attachmentOf (media (screen c)) in
            updated_at <- ask toISOString ;;
            created_at <- ask toISOString ;;
            w <- ask (insert (baseRouteData user (screen c) updated_at mediaToUpdate)
                         created_at) ;;
            match Written.error w with
            | Some createError => failed createError
            | None =>
                t <- ask (trackRouteCreate
                             (FormData.spot_type (formData (screen c)))) ;;
                match t with
                | Some e => failed e
                | None => afterWrite c (Written.data w)
                end
            end
        end
  end.

(** [s || fallback] for a column that may be [null]. *)
Definition orString (s : option string) (fallback : string) : string :=
  match s with
  | Some (String a r) => String a r
  | _ => fallback
  end.

(** [route.media_attachments.map((m: any) => ...)] of [loadRouteData]:
    each item takes a fresh id from the clock and the random source. *)
Fixpoint mediaItems (attachments : list MediaUrl.t) : Prog (list MediaItem.t) :=
  match attachments with
  | [] => Ret []
  | m :: rest =>
      now <- ask Date_now ;;
      random <- ask Math_random ;;
      items <- mediaItems rest ;;
      Ret ({| MediaItem.id := JS.decimalN now ++ random;
              MediaItem.type := MediaUrl.type m;
              MediaItem.uri := MediaUrl.url m;
              MediaItem.fileName := popOr "/" (MediaUrl.url m) "unknown";
              MediaItem.description := MediaUrl.description m;
              MediaItem.thumbnail :=
                if MediaType_eqb (MediaUrl.type m) youtube
                then Some (youtubeThumbnail (MediaUrl.url m)) else None |}
             :: items)
  end.

(** [route.waypoint_details.map((wp: any) => ...)] of [loadRouteData]. *)
Definition waypointsOf (waypoint_details : list WaypointData.t) : list Waypoint.t :=
  map (fun wp =>
         {| Waypoint.latitude := WaypointData.lat wp;
            Waypoint.longitude := WaypointData.lng wp;
            Waypoint.title := WaypointData.title wp;
            Waypoint.description := WaypointData.description wp |})
    waypoint_details.

(** The state [loadRouteData] sets from the row it read. *)
Definition loaded (route : Row.t) (items : option (list MediaItem.t)) (s : Screen)
  : Screen :=
  let s1 :=
    setFormData
      {| FormData.name := orString (Row.name route) EmptyString;
         FormData.description := orString (Row.description route) EmptyString;
         FormData.difficulty := orString (Row.difficulty route) "beginner";
         FormData.spot_type := orString (Row.spot_type route) "urban";
         FormData.visibility := orString (Row.visibility route) "public";
         FormData.best_season := orString (Row.best_season route) "all";
         FormData.best_times := orString (Row.best_times route) "anytime";
         FormData.vehicle_types :=
           match Row.vehicle_types route with
           | Some v => v
           | None => ["passenger_car"]
           end;
         FormData.activity_level := orString (Row.activity_level route) "moderate";
         FormData.spot_subtype := orString (Row.spot_subtype route) "standard";
         FormData.transmission_type := orString (Row.transmission_type route) "both";
         FormData.category := orString (Row.category route) "parking" |}
      s in
  let s2 :=
    match Row.waypoint_details route with
    | Some details =>
        let waypoints := waypointsOf details in
        let s' := setWaypoints waypoints s1 in
        match waypoints with
        | firstWaypoint :: _ =>
            setSearchQuery (Waypoint.title firstWaypoint)
              (setRegion
                 (Region.mk (Waypoint.latitude firstWaypoint)
                    (Waypoint.longitude firstWaypoint) 0.02 0.02) s')
        | [] => s'
        end
    | None => s1
    end in
  let s3 :=
    match Row.exercises route with
    | Some e => setExercises e s2
    | None => s2
    end in
  match items with
  | Some m => setMedia m s3
  | None => s3
  end.

(** [loadRouteData(id)]: the update of the state it ends with. *)
Definition loadRouteData (id : string) : Prog (Screen -> Screen) :=
  sel <- ask (select_all id) ;;
  match Selected.error sel with
  | Some _ =>
      ask (console_error "Error loading route:") ;;
      Ret (setScreenError (Some "Failed to load route data"))
  | None =>
      match Selected.data sel with
      | None => Ret (fun s => s)
      | Some route =>
          match Row.media_attachments route with
          | Some attachments =>
              items <- mediaItems attachments ;;
              Ret (loaded route (Some items))
          | None => Ret (loaded route None)
          end
      end
  end.

End CreateRouteScreen.

(* ===================================================================== *)
(** * A backend in memory *)
(* ===================================================================== *)

(** An environment to run the form against: one table row, a clock that
    ticks at every reading, a navigator with the route's detail screen
    below the form.  Nothing fails in it. *)
Module Memory.

Import Backend.

Record Store := mkStore {
  row : option RouteData.t;
  clock : N
}.

Definition withAttachments (d : RouteData.t) (a : list MediaUrl.t) : RouteData.t :=
  RouteData.mk (RouteData.name d) (RouteData.description d)
    (RouteData.difficulty d) (RouteData.spot_type d) (RouteData.visibility d)
    (RouteData.best_season d) (RouteData.best_times d)
    (RouteData.vehicle_types d) (RouteData.activity_level d)
    (RouteData.spot_subtype d) (RouteData.transmission_type d)
    (RouteData.category d) (RouteData.creator_id d) (RouteData.updated_at d)
    (RouteData.is_public d) (RouteData.waypoint_details d)
    (RouteData.metadata d) (RouteData.suggested_exercises d) a
    (RouteData.drawing_mode d).

(** The row as a later [select('*')] returns it. *)
Definition rowOf (d : RouteData.t) : Row.t :=
  {| Row.name := Some (RouteData.name d);
     Row.description := Some (RouteData.description d);
     Row.difficulty := Some (RouteData.difficulty d);
     Row.spot_type := Some (RouteData.spot_type d);
     Row.visibility := Some (RouteData.visibility d);
     Row.best_season := Some (RouteData.best_season d);
     Row.best_times := Some (RouteData.best_times d);
     Row.vehicle_types := Some (RouteData.vehicle_types d);
     Row.activity_level := Some (RouteData.activity_level d);
     Row.spot_subtype := Some (RouteData.spot_subtype d);
     Row.transmission_type := Some (RouteData.transmission_type d);
     Row.category := Some (RouteData.category d);
     Row.waypoint_details := Some (RouteData.waypoint_details d);
     Row.exercises := None;
     Row.media_attachments := Some (RouteData.media_attachments d) |}.

Definition handler : Handler Store :=
  fun c =>
    match c return Store -> Answer c * Store with
    | Alert_alert _ _ | setLoading _ | setError _ | console_error _
    | goBack | mark_shouldRefresh => fun s => (tt, s)
    | toISOString => fun s => ("2024-05-01T10:00:00.000Z", s)
    | Math_random => fun s => ("0.5", s)
    | getPublicUrl filePath => fun s => ("https://cdn/" ++ filePath, s)
    | Date_now => fun s => (clock s, mkStore (row s) (N.succ (clock s)))
    | select_media_attachments _ =>
        fun s => (option_map RouteData.media_attachments (row s), s)
    | select_all _ =>
        fun s => (Selected.mk (option_map rowOf (row s)) None, s)
    | update routeId data =>
        fun s => (Written.mk (Some routeId) None, mkStore (Some data) (clock s))
    | insert data _ =>
        fun s => (Written.mk (Some "route-1") None, mkStore (Some data) (clock s))
    | update_media_attachments _ a =>
        fun s =>
          (None,
           mkStore (option_map (fun d => withAttachments d a) (row s)) (clock s))
    | delete _ => fun s => (None, mkStore None (clock s))
    | storage_upload _ _ _ | trackRouteEdit _ | trackRouteCreate _ =>
        fun s => (None, s)
    | previousScreen_name => fun s => (inr "RouteDetail", s)
    end.

(** The same backend while the stored attachments cannot be read:
    [select('media_attachments')...single()] answers with an error and
    with [data: null].  Every other call is answered as before. *)
Definition unreadable : Handler Store :=
  fun c =>
    match c as c' return Store -> Answer c' * Store with
    | select_media_attachments _ => fun s => (None, s)
    | c' => handler c'
    end.

End Memory.


(* ===================================================================== *)
(** * A scripted location service *)
(* ===================================================================== *)

(** An environment to run the location handlers against: it answers the
    geocoding calls and the reverse-geocoding calls from two scripts, in
    order, and the position from a fixed value.  A script that has run out
    answers with an empty list. *)
Module Scripted.

Import Location.

Record Script := mkScript {
  geocoded : list (option (list Coords));
  reversed : list (option (list Address));
  position : option Coords
}.

Definition handler : Handler Script :=
  fun c =>
    match c return Script -> Answer c * Script with
    | geocodeAsync _ =>
        fun s =>
          match geocoded s with
          | a :: r => (a, mkScript r (reversed s) (position s))
          | [] => (Some [], s)
          end
    | reverseGeocodeAsync _ =>
        fun s =>
          match reversed s with
          | a :: r => (a, mkScript (geocoded s) r (position s))
          | [] => (Some [], s)
          end
    | getCurrentPositionAsync => fun s => (position s, s)
    end.

End Scripted.


(* ===================================================================== *)
(** * Sample data *)
(* ===================================================================== *)

Module Example.

Import CreateRouteScreen.

(** The stored attachments [a] and [b], and the local media: [a] again
    and a new file. *)
Definition a : MediaUrl.t := MediaUrl.mk image "http://a" None.
Definition b : MediaUrl.t := MediaUrl.mk image "http://b" None.
Definition localA : MediaItem.t := MediaItem.mk "1" image "http://a" "a" None None.
Definition localNew : MediaItem.t :=
  MediaItem.mk "2" image "file://new" "new" None None.

(** The waypoints [A] and [B] of the specification's round trip. *)
Definition A : Waypoint.t := Waypoint.mk 37.0 (-122.0) "A" EmptyString.
Definition B : Waypoint.t := Waypoint.mk 37.1 (-122.1) "B" EmptyString.

(** A waypoint from a search result without address parts: its title is
    empty. *)
Definition untitled : Waypoint.t :=
  Waypoint.mk 59.3293 18.0686 EmptyString "Searched location".

Definition form (name : string) : Backend.FormData.t :=
  Backend.FormData.mk name EmptyString "beginner" "urban" "public" "all" "anytime"
    ["passenger_car"] "moderate" "standard" "both" "parking".

Definition screenWith (name : string) (w : list Waypoint.t) (m : list MediaItem.t)
  : Screen :=
  setMedia m (setWaypoints w (setFormData (form name) initial)).

(** A signed-in user edits the route [route-1]. *)
Definition editing (s : Screen) : Closure :=
  mkClosure (Some "user-1") (Some "route-1") s.

(** A signed-in user creates a route. *)
Definition creating (s : Screen) : Closure :=
  mkClosure (Some "user-1") None s.

(** The table holds the route with the attachments [a] and [b]. *)
Definition stored : Memory.Store :=
  Memory.mkStore
    (Some (baseRouteData "user-1" (screenWith "Evening loop" [A; B] [])
             "2024-04-30T08:00:00.000Z" [a; b]))
    1714557600000%N.

Definition empty : Memory.Store := Memory.mkStore None 1714557600000%N.

(** Two places and an address. *)
Definition lund : Location.Coords := Location.mkCoords 55.7047 13.191.
Definition nearLund : Location.Coords := Location.mkCoords 55.7047000001 13.191.
Definition malmo : Location.Coords := Location.mkCoords 55.605 13.0038.
Definition storgatan : Location.Address :=
  Location.mkAddress (Some "Storgatan 1") (Some "Lund") None (Some "Sweden").

(** A lookup of [Lund] that finds three hits, two of them at the same
    spot, and the list it shows. *)
Definition lundScript : Scripted.Script :=
  Scripted.mkScript [Some [lund; malmo; lund]]
    [Some [storgatan]; Some []; Some [storgatan]] None.

Definition lundShown : list Search.SearchResult :=
  [Search.withCoords [storgatan] lund; Search.withCoords [] malmo].

(** A lookup that finds two hits a tenth of a billionth of a degree
    apart. *)
Definition nearScript : Scripted.Script :=
  Scripted.mkScript [Some [lund; nearLund]]
    [Some [storgatan]; Some [storgatan]] None.

(** A service that finds nothing and fails nowhere. *)
Definition silent : Scripted.Script := Scripted.mkScript [] [] None.

(** The search box showing the results for [Lund]. *)
Definition showing : Search.SearchState :=
  Search.mkSearchState "Lund" lundShown true (Some 3%nat).




End Example.


(* ===================================================================== *)
(** * The map screen: the panel and the markers as the screen drives them *)
(* ===================================================================== *)

Module MapSheet.

Import Panel.

(** [translateY.setValue(v)]: the animated value jumps to [v]; the state
    [currentSnapPoint] and the refs are not touched. *)
Definition setValue (v : Q) (s : Sheet) : Sheet :=
  {| currentSnapPoint := currentSnapPoint s;
     translateY := v;
     lastGesture := lastGesture s;
     scrollOffset := scrollOffset s;
     isDragging := isDragging s |}.

(** The panel and the selection of the map screen. *)
Record Screen := mkScreen {
  sheet : Sheet;
  selectedRoute : option MapScreen.Route.t
}.

Definition initial (sp : SnapPoints) : Screen :=
  {| sheet := Panel.initial sp; selectedRoute := None |}.

(** [handleMarkerPress(route)]. *)
Definition handleMarkerPress (sp : SnapPoints) (route : MapScreen.Route.t)
    (scr : Screen) : Screen :=
  {| sheet := setValue (collapsed sp) (sheet scr);
     selectedRoute := Some route |}.

(** [handleMapPress] of the map screen. *)
Definition handleMapPress (sp : SnapPoints) (scr : Screen) : Screen :=
  match selectedRoute scr with
  | Some _ =>
      {| sheet := setValue (collapsed sp) (sheet scr);
         selectedRoute := None |}
  | None => scr
  end.

(** What reaches the screen: a move of the drag, a change of the state of
    the gesture, a scroll of the list, a press on a marker, a press on the
    map. *)
Inductive Input :=
| Gesture (ev : NativeEvent)
| StateChange (ev : NativeEvent)
| Scrolled (y : Q)
| MarkerPressed (route : MapScreen.Route.t)
| MapPressed.

Definition step (sp : SnapPoints) (scr : Screen) (i : Input) : Screen :=
  match i with
  | Gesture ev =>
      {| sheet := onGestureEvent sp ev (sheet scr);
         selectedRoute := selectedRoute scr |}
  | StateChange ev =>
      {| sheet := onHandleStateChange sp ev (sheet scr);
         selectedRoute := selectedRoute scr |}
  | Scrolled y =>
      {| sheet := handleScroll sp y (sheet scr);
         selectedRoute := selectedRoute scr |}
  | MarkerPressed route => handleMarkerPress sp route scr
  | MapPressed => handleMapPress sp scr
  end.

Definition run (sp : SnapPoints) (scr : Screen) (inputs : list Input) : Screen :=
  fold_left (step sp) inputs scr.



(** A rest position of the panel. *)
Definition restPosition (sp : SnapPoints) (x : Q) : Prop :=
  x = collapsed sp \/ x = mid sp \/ x = expanded sp.

(** What every state of the panel satisfies: it counts a rest position as
    its snap point, and shows an offset between [expanded] and
    [collapsed]. *)
Definition settled (sp : SnapPoints) (s : Sheet) : Prop :=
  restPosition sp (currentSnapPoint s)
  /\ expanded sp <= translateY s <= collapsed sp.

(** A marker of the map: where it is, and the route [handleMarkerPress]
    is called with when it is pressed. *)
Record Marker := mkMarker {
  latitude : Q;
  longitude : Q;
  onPress : MapScreen.Route.t
}.

(** [arr.filter(x => x !== null)]. *)
Fixpoint filterNotNull {A} (l : list (option A)) : list A :=
  match l with
  | [] => []
  | Some x :: r => x :: filterNotNull r
  | None :: r => filterNotNull r
  end.

(** [getAllWaypoints]. *)
Definition getAllWaypoints (routes : list MapScreen.Route.t) : list Marker :=
  filterNotNull
    (map (fun route =>
            let waypointsData := MapScreen.waypointsData route in
            match waypointsData with
            | [] => None
            | firstWaypoint :: _ =>
                Some {| latitude := WaypointData.lat firstWaypoint;
                        longitude := WaypointData.lng firstWaypoint;
                        onPress := route |}
            end)
       routes).

(** The waypoints the map screen takes a route to have, case by case:
    those of [waypoint_details] when the field holds an array, an empty one
    included; without it those of [metadata.waypoints]; none when that is
    missing too. *)
Inductive waypointsRead (route : MapScreen.Route.t) : list WaypointData.t -> Prop :=
| read_details l :
    MapScreen.Route.waypoint_details route = Some l ->
    waypointsRead route l
| read_metadata m l :
    MapScreen.Route.waypoint_details route = None ->
    MapScreen.Route.metadata route = Some m ->
    MapScreen.RouteMetadata.waypoints m = Some l ->
    waypointsRead route l
| read_no_waypoints m :
    MapScreen.Route.waypoint_details route = None ->
    MapScreen.Route.metadata route = Some m ->
    MapScreen.RouteMetadata.waypoints m = None ->
    waypointsRead route []
| read_no_metadata :
    MapScreen.Route.waypoint_details route = None ->
    MapScreen.Route.metadata route = None ->
    waypointsRead route [].

(** The markers of a list of routes: going through the routes in order,
    a route read without waypoints gets none, any other gets one marker at
    the first waypoint read, which selects the route when pressed. *)
Inductive markersOf : list MapScreen.Route.t -> list Marker -> Prop :=
| markers_done : markersOf [] []
| markers_skip route routes markers :
    waypointsRead route [] ->
    markersOf routes markers ->
    markersOf (route :: routes) markers
| markers_mark route routes markers first rest :
    waypointsRead route (first :: rest) ->
    markersOf routes markers ->
    markersOf (route :: routes)
      ({| latitude := WaypointData.lat first;
          longitude := WaypointData.lng first;
          onPress := route |} :: markers).

End MapSheet.

(* ===================================================================== *)
(** * The location search: rejected calls and the teardown *)
(* ===================================================================== *)

Module SearchTrace.

Import Location Search Timers.

(** A call that was rejected. *)
Definition rejected (ev : Location.Event) : bool :=
  match ev with
  | existT _ c a =>
      match c return Answer c -> bool with
      | geocodeAsync _ => fun a => match a with None => true | Some _ => false end
      | reverseGeocodeAsync _ =>
          fun a => match a with None => true | Some _ => false end
      | getCurrentPositionAsync =>
          fun a => match a with None => true | Some _ => false end
      end a
  end.

(** The hits of the geocoding phase, none when a call was rejected. *)
Definition hitsOf (g : option (list Coords)) : list Coords :=
  match g with
  | Some hits => hits
  | None => []
  end.

(** The screen goes away: the cleanup of the effect runs. *)
Definition unmount (st : SearchState * Loop) : SearchState * Loop :=
  (fst st, cleanup (fst st) (snd st)).

(** No two entries of a list at the same spot. *)
Fixpoint distinctSpots (l : list SearchResult) : Prop :=
  match l with
  | [] => True
  | a :: r => (forall b, In b r -> ~ sameSpot a b) /\ distinctSpots r
  end.

End SearchTrace.

(* ===================================================================== *)
(** * The map screen: its location handlers *)
(* ===================================================================== *)

Module MapSearch.

Import Location.
Local Open Scope prog_scope.

(** The state the two handlers set. *)
Record Screen := mkScreen {
  region : Region.t;
  search : Search.SearchState
}.

(** [handleLocationSelect(result)] of the map screen. *)
Definition handleLocationSelect (result : Search.SearchResult) (s : Screen) : Screen :=
  match Search.coords result with
  | Some coords =>
      {| region := Region.mk (latitude coords) (longitude coords) 0.01 0.01;
         search :=
           Search.mkSearchState
             (JS.trim
                (CreateRouteScreen.orString (Search.street result) EmptyString
                 ++ " "
                 ++ CreateRouteScreen.orString (Search.city result) EmptyString
                 ++ " "
                 ++ CreateRouteScreen.orString (Search.country result) EmptyString))
             (Search.searchResults (search s)) false
             (Search.searchTimeout (search s)) |}
  | None => s
  end.

(** [handleLocateMe] of the map screen: the update of the state it ends
    with. *)
Definition handleLocateMe : Location.Prog (Screen -> Screen) :=
  location <- getCurrentPosition ;;
  match location with
  | Some coords =>
      Ret (fun prev =>
             {| region := Region.mk (latitude coords) (longitude coords) 0.01 0.01;
                search := search prev |})
  | None => Ret (fun prev => prev)
  end.

End MapSearch.

(* ===================================================================== *)
(** * The route form: the other handlers *)
(* ===================================================================== *)

Module RouteForm.

Import Backend CreateRouteScreen.
Local Open Scope prog_scope.

(** [handleAddMedia(newMedia)]: the update of the state, with the id taken
    from the clock. *)
Definition handleAddMedia (type : MediaType) (uri : string)
  : Backend.Prog (Screen -> Screen) :=
  now <- ask Date_now ;;
  let newMediaItem :=
    {| MediaItem.id := JS.decimalN now;
       MediaItem.type := type;
       MediaItem.uri := uri;
       MediaItem.fileName := popOr "/" uri "unknown";
       MediaItem.description := None;
       MediaItem.thumbnail := None |} in
  Ret (fun prev => setMedia (media prev ++ [newMediaItem])%list prev).

(** [newExercise], a [Partial<Exercise>]. *)
Record NewExercise := mkNewExercise {
  title : option string;
  description : option string;
  duration : option string;
  repetitions : option string
}.

(** [{}]. *)
Definition noExercise : NewExercise := mkNewExercise None None None None.

(** [handleAddExercise]: the exercises and the draft it leaves. *)
Definition handleAddExercise (newExercise : NewExercise)
    (exercises : list Exercise.t)
  : Backend.Prog (list Exercise.t * NewExercise) :=
  match title newExercise with
  | Some (String a r) =>
      now <- ask Date_now ;;
      Ret ((exercises
            ++ [ {| Exercise.id := JS.decimalN now;
                    Exercise.title := String a r;
                    Exercise.description :=
                      orString (description newExercise) EmptyString;
                    Exercise.duration := duration newExercise;
                    Exercise.repetitions := repetitions newExercise |} ])%list,
           noExercise)
  | _ => Ret (exercises, newExercise)
  end.

(** [handleRemoveExercise(id)]. *)
Definition handleRemoveExercise (id : string) (exercises : list Exercise.t)
  : list Exercise.t :=
  filter (fun ex => negb (String.eqb (Exercise.id ex) id)) exercises.

(** The buttons of the prompt of [handleDelete]. *)
Inductive Choice := Cancel | Delete.

(** [handleDelete], and what the button pressed in its prompt does. *)
Definition handleDelete (c : Closure) (pressed : Choice) : Backend.Prog unit :=
  match routeId c with
  | Some (String a r) =>
      let routeId := String a r in
      ask (Alert_alert "Delete Route"
             "Are you sure you want to delete this route? This action cannot be undone.") ;;
      match pressed with
      | Cancel => Ret tt
      | Delete =>
          ask (setLoading true) ;;
          error <- ask (delete routeId) ;;
          match error with
          | Some _ => ask (setError (Some "Failed to delete route"))
          | None => ask goBack
          end ;;
          ask (setLoading false)
      end
  | _ => Ret tt
  end.

(** The value of [loading] after the calls of a trace, from [loading]
    before. *)
Definition loadingAfter (loading : bool) (cs : list Call) : bool :=
  fold_left (fun l c => match c with setLoading b => b | _ => l end) cs loading.

(** The uris a trace uploads, in order. *)
Fixpoint uploads (cs : list Call) : list string :=
  match cs with
  | [] => []
  | storage_upload _ uri _ :: r => uri :: uploads r
  | _ :: r => uploads r
  end.

(** How often a trace navigates back. *)
Fixpoint wentBack (cs : list Call) : nat :=
  match cs with
  | [] => 0
  | goBack :: r => S (wentBack r)
  | _ :: r => wentBack r
  end.

(** A write of the row, or the analytics call after it, that failed. *)
Definition writeFailed (ev : Backend.Event) : bool :=
  match ev with
  | existT _ c a =>
      match c return Answer c -> bool with
      | update _ _ | insert _ _ =>
          fun w => match Written.error w with Some _ => true | None => false end
      | trackRouteEdit _ | trackRouteCreate _ =>
          fun t => match t with Some _ => true | None => false end
      | _ => fun _ => false
      end a
  end.

(** A write of the row that returned the row with an id. *)
Definition returnedId (ev : Backend.Event) : bool :=
  match ev with
  | existT _ c a =>
      match c return Answer c -> bool with
      | update _ _ | insert _ _ => fun w => JS.truthy (Written.data w)
      | _ => fun _ => false
      end a
  end.

(** An upload, or the update of the attachments after it, that failed. *)
Definition uploadFailed (ev : Backend.Event) : bool :=
  match ev with
  | existT _ c a =>
      match c return Answer c -> bool with
      | storage_upload _ _ _ | update_media_attachments _ _ =>
          fun e => match e with Some _ => true | None => false end
      | _ => fun _ => false
      end a
  end.

(** A deletion that failed. *)
Definition deleteFailed (ev : Backend.Event) : bool :=
  match ev with
  | existT _ c a =>
      match c return Answer c -> bool with
      | delete _ => fun e => match e with Some _ => true | None => false end
      | _ => fun _ => false
      end a
  end.

(** The id of the row the in-memory backend returns from a write. *)
Definition savedId (c : Closure) : string :=
  match routeId c with
  | Some (String a r) => String a r
  | _ => "route-1"
  end.

(** The attachments the uploads of [items] add to the row of the in-memory
    backend, the first of them at the time [now]: one for each item, with
    the public url of the file. *)
Fixpoint published (routeId : string) (now : N) (items : list MediaItem.t)
  : list MediaUrl.t :=
  match items with
  | [] => []
  | item :: rest =>
      MediaUrl.mk (MediaItem.type item)
        ("https://cdn/" ++ "routes/" ++ routeId ++ "/" ++ JS.decimalN now ++ "."
         ++ popOr "." (MediaItem.fileName item) "jpg")
        (MediaItem.description item)
      :: published routeId (N.succ now) rest
  end.

(** Every field of the form that [loadRouteData] reads with a default
    other than the empty string holds a choice. *)
Definition filledIn (f : FormData.t) : Prop :=
  FormData.difficulty f <> EmptyString
  /\ FormData.spot_type f <> EmptyString
  /\ FormData.visibility f <> EmptyString
  /\ FormData.best_season f <> EmptyString
  /\ FormData.best_times f <> EmptyString
  /\ FormData.activity_level f <> EmptyString
  /\ FormData.spot_subtype f <> EmptyString
  /\ FormData.transmission_type f <> EmptyString
  /\ FormData.category f <> EmptyString.

(** The list without its element at [index]. *)
Definition without {A} (index : nat) (l : list A) : list A :=
  (firstn index l ++ skipn (S index) l)%list.

(** The characters of a string. *)
Fixpoint chars (s : string) : list ascii :=
  match s with
  | EmptyString => []
  | String a r => a :: chars r
  end.

End RouteForm.

(* ===================================================================== *)
(** * What the screens do when they are mounted *)
(* ===================================================================== *)

Module Startup.

Import Location.
Local Open Scope prog_scope.

(** The calls of the two effects: the permission request of the map
    screen, the two functions the form takes from its location context,
    the console, and the location service. *)
Inductive Call :=
| requestForegroundPermissionsAsync
| requestLocationPermission
| getCurrentLocation
| console_error (label : string)
| service (c : Location.Call).

(** The answers.  A rejected promise is [None]; the permission request
    answers with its [status]; [getCurrentLocation] may answer [null]. *)
Definition Answer (c : Call) : Type :=
  match c with
  | requestForegroundPermissionsAsync => option string
  | requestLocationPermission => option unit
  | getCurrentLocation => option (option Coords)
  | console_error _ => unit
  | service c => Location.Answer c
  end.

Definition Prog := Free.Prog Call Answer.
Definition Event := Free.Event Call Answer.
Definition Handler := Free.Handler Call Answer.

Definition ask (c : Call) : Prog (Answer c) := Free.call c.

(** The state of the map screen the effect sets. *)
Record MapState := mkMapState {
  region : Region.t;
  isMapReady : bool
}.

(** The effect of the map screen that asks for the position: the update
    of the state it ends with.  Nothing catches a rejection. *)
Definition mapMounted : Prog (MapState -> MapState) :=
  permission <- ask requestForegroundPermissionsAsync ;;
  match permission with
  | None => Ret (fun prev => prev)
  | Some status =>
      if String.eqb status "granted" then
        location <- ask (service getCurrentPositionAsync) ;;
        match location with
        | None => Ret (fun prev => prev)
        | Some coords =>
            Ret (fun prev =>
                   {| region :=
                        Region.mk (latitude coords) (longitude coords)
                          (Region.latitudeDelta (region prev))
                          (Region.longitudeDelta (region prev));
                      isMapReady := true |})
        end
      else Ret (fun prev => {| region := region prev; isMapReady := true |})
  end.

(** The [catch] of the effect of the form. *)
Definition caught : Prog (CreateRouteScreen.Screen -> CreateRouteScreen.Screen) :=
  ask (console_error "Error getting current location:") ;;
  Ret (CreateRouteScreen.setRegion CreateRouteScreen.initialRegion).

(** The effect of the form that starts a new route at the position of the
    device, for the [isEditing] and [locationPermission] of the render:
    the update of the state it ends with. *)
Definition formMounted (isEditing locationPermission : bool)
  : Prog (CreateRouteScreen.Screen -> CreateRouteScreen.Screen) :=
  if isEditing then Ret (fun prev => prev)
  else
    let located :=
      if locationPermission then
        location <- ask getCurrentLocation ;;
        match location with
        | None => caught
        | Some None => Ret (fun prev => prev)
        | Some (Some coords) =>
            let latitude := latitude coords in
            let longitude := longitude coords in
            let moved :=
              CreateRouteScreen.setRegion (Region.mk latitude longitude 0.02 0.02) in
            a <- ask (service (reverseGeocodeAsync (mkCoords latitude longitude))) ;;
            match a with
            | None => caught
            | Some [] => Ret moved
            | Some (address :: _) =>
                let title :=
                  CreateRouteScreen.titleOf (street address) (city address)
                    (country address) in
                let newWaypoint :=
                  Waypoint.mk latitude longitude title "Current location" in
                Ret (fun prev =>
                       CreateRouteScreen.setSearchQuery title
                         (CreateRouteScreen.setWaypoints [newWaypoint] (moved prev)))
            end
        end
      else Ret (fun prev => prev) in
    if locationPermission then located
    else
      r <- ask requestLocationPermission ;;
      match r with
      | None => caught
      | Some _ => located
      end.

(** A call that was rejected. *)
Definition rejected (ev : Event) : bool :=
  match ev with
  | existT _ c a =>
      match c return Answer c -> bool with
      | requestForegroundPermissionsAsync =>
          fun a => match a with None => true | Some _ => false end
      | requestLocationPermission =>
          fun a => match a with None => true | Some _ => false end
      | getCurrentLocation =>
          fun a => match a with None => true | Some _ => false end
      | console_error _ => fun _ => false
      | service c => fun a => SearchTrace.rejected (existT Location.Answer c a)
      end a
  end.

(** A call that asks where the device is. *)
Definition locates (c : Call) : bool :=
  match c with
  | getCurrentLocation | service getCurrentPositionAsync => true
  | _ => false
  end.

End Startup.

(* ===================================================================== *)
(** * The route form: picking media *)
(* ===================================================================== *)

Module Picker.

Import CreateRouteScreen.
Local Open Scope prog_scope.

(** An asset of the image picker: its [type] and its [uri]. *)
Record Asset := mkAsset {
  type : option string;
  uri : string
}.

(** The calls of the three pickers: the image picker, and what the form
    calls elsewhere. *)
Inductive Call :=
| requestCameraPermissionsAsync
| requestMediaLibraryPermissionsAsync
| launchImageLibraryAsync (allowsMultipleSelection : bool)
| launchCameraAsync (videos : bool)
| form (c : Backend.Call).

(** The answers.  A rejected promise is [None]; a permission request
    answers with its [status]; a launch answers with the assets, or with
    [None] when it was canceled. *)
Definition Answer (c : Call) : Type :=
  match c with
  | requestCameraPermissionsAsync | requestMediaLibraryPermissionsAsync =>
      option string
  | launchImageLibraryAsync _ | launchCameraAsync _ =>
      option (option (list Asset))
  | form c => Backend.Answer c
  end.

Definition Prog := Free.Prog Call Answer.
Definition Event := Free.Event Call Answer.
Definition Handler := Free.Handler Call Answer.

Definition ask (c : Call) : Prog (Answer c) := Free.call c.

(** The [catch] of a picker. *)
Definition caught (label message : string) : Prog (Screen -> Screen) :=
  ask (form (Backend.console_error label)) ;;
  ask (form (Backend.Alert_alert "Error" message)) ;;
  Ret (fun prev => prev).

(** The alert of a permission that was not granted. *)
Definition denied (message : string) : Prog (Screen -> Screen) :=
  ask (form (Backend.Alert_alert "Permission needed" message)) ;;
  Ret (fun prev => prev).

(** [Date.now().toString() + Math.random()]. *)
Definition freshId : Prog string :=
  now <- ask (form Backend.Date_now) ;;
  random <- ask (form Backend.Math_random) ;;
  Ret (JS.decimalN now ++ random)%string.

(** [result.assets.map((asset) => ...)] of [pickMedia]. *)
Fixpoint itemsOf (assets : list Asset) : Prog (list MediaItem.t) :=
  match assets with
  | [] => Ret []
  | asset :: rest =>
      id <- freshId ;;
      items <- itemsOf rest ;;
      Ret ({| MediaItem.id := id;
              MediaItem.type :=
                match type asset with
                | Some t => if String.eqb t "video" then video else image
                | None => image
                end;
              MediaItem.uri := uri asset;
              MediaItem.fileName := popOr "/" (uri asset) "file";
              MediaItem.description := None;
              MediaItem.thumbnail := None |}
             :: items)
  end.

(** [pickMedia(useCamera)], with the [media] of the render: the update of
    the state it ends with. *)
Definition pickMedia (useCamera : bool) (media : list MediaItem.t)
  : Prog (Screen -> Screen) :=
  let failed :=
    caught "Error picking media:" "Failed to select media. Please try again." in
  let launch :=
    result <- ask (launchImageLibraryAsync (negb useCamera)) ;;
    match result with
    | None => failed
    | Some None => Ret (fun prev => prev)
    | Some (Some assets) =>
        newMedia <- itemsOf assets ;;
        Ret (setMedia (media ++ newMedia)%list)
    end in
  if useCamera then
    permission <- ask requestCameraPermissionsAsync ;;
    match permission with
    | None => failed
    | Some status =>
        if String.eqb status "granted" then launch
        else denied "Camera permission is required to take photos/videos"
    end
  else
    permission <- ask requestMediaLibraryPermissionsAsync ;;
    match permission with
    | None => failed
    | Some status =>
        if String.eqb status "granted" then launch
        else denied "Media library permission is required to select photos/videos"
    end.

(** [takePhoto] and [recordVideo]: the same function but for the media
    type, the texts and the fallback file name.  The [id] of the new item
    is made before [asset.uri] is read. *)
Definition capture (videos : bool) (media : list MediaItem.t)
  : Prog (Screen -> Screen) :=
  let failed :=
    if videos
    then caught "Error recording video:" "Failed to record video. Please try again."
    else caught "Error taking photo:" "Failed to take photo. Please try again." in
  permission <- ask requestCameraPermissionsAsync ;;
  match permission with
  | None => failed
  | Some status =>
      if String.eqb status "granted" then
        result <- ask (launchCameraAsync videos) ;;
        match result with
        | None => failed
        | Some None => Ret (fun prev => prev)
        | Some (Some assets) =>
            id <- freshId ;;
            match assets with
            | [] => failed
            | asset :: _ =>
                let newMedia :=
                  {| MediaItem.id := id;
                     MediaItem.type := if videos then video else image;
                     MediaItem.uri := uri asset;
                     MediaItem.fileName :=
                       popOr "/" (uri asset)
                         (if videos then "video.mp4" else "photo.jpg");
                     MediaItem.description := None;
                     MediaItem.thumbnail := None |} in
                Ret (setMedia (media ++ [newMedia])%list)
            end
        end
      else
        denied (if videos
                then "Camera permission is required to record videos"
                else "Camera permission is required to take photos")
  end.

Definition takePhoto : list MediaItem.t -> Prog (Screen -> Screen) := capture false.
Definition recordVideo : list MediaItem.t -> Prog (Screen -> Screen) := capture true.

(** An alert. *)
Definition alerts (c : Call) : bool :=
  match c with
  | form (Backend.Alert_alert _ _) => true
  | _ => false
  end.

(** A launch of the camera. *)
Definition camera (c : Call) : bool :=
  match c with
  | launchCameraAsync _ => true
  | _ => false
  end.

(** A launch of the camera that came back with no asset. *)
Definition cameraEmpty (ev : Event) : bool :=
  match ev with
  | existT _ c a =>
      match c return Answer c -> bool with
      | launchCameraAsync _ =>
          fun a => match a with Some (Some []) => true | _ => false end
      | _ => fun _ => false
      end a
  end.

(** A launch of the picker or of the camera. *)
Definition launches (c : Call) : bool :=
  match c with
  | launchCameraAsync _ | launchImageLibraryAsync _ => true
  | _ => false
  end.

(** The answer to a permission request: its [status], or [None] when the
    request was rejected. *)
Definition permissionOf (ev : Event) : option (option string) :=
  match ev with
  | existT _ c a =>
      match c return Answer c -> option (option string) with
      | requestCameraPermissionsAsync | requestMediaLibraryPermissionsAsync =>
          fun a => Some a
      | _ => fun _ => None
      end a
  end.

(** The answer to the permission request a trace starts with. *)
Definition permission (tr : list Event) : option (option string) :=
  match tr with
  | ev :: _ => permissionOf ev
  | [] => None
  end.

End Picker.


(* ===================================================================== *)
(** * Properties *)
(* ===================================================================== *)

Import Free.
Local Open Scope list_scope.

(* ===================================================================== *)
(** * Numbers *)
(* ===================================================================== *)

Lemma lt_true (a b : Q) : JS.lt a b = true <-> a < b.
Proof.
  unfold JS.lt. rewrite negb_true_iff.
  split; intro H.
  - apply Qnot_le_lt. intro L. apply Qle_bool_iff in L. congruence.
  - destruct (Qle_bool b a) eqn:E; [| reflexivity].
    apply Qle_bool_iff in E. exfalso. apply (Qlt_not_le _ _ H E).
Qed.

Lemma lt_false (a b : Q) : JS.lt a b = false <-> b <= a.
Proof.
  unfold JS.lt. rewrite negb_false_iff. apply Qle_bool_iff.
Qed.

Lemma lt_cases (a b : Q) :
  (JS.lt a b = true /\ a < b) \/ (JS.lt a b = false /\ b <= a).
Proof.
  destruct (JS.lt a b) eqn:E.
  - left. split; [reflexivity | now apply lt_true].
  - right. split; [reflexivity | now apply lt_false].
Qed.

Lemma min_le_l (a b : Q) : JS.min a b <= a.
Proof.
  unfold JS.min. destruct (lt_cases b a) as [[E H] | [E H]]; rewrite E; lra.
Qed.

Lemma max_ge_l (a b : Q) : a <= JS.max a b.
Proof.
  unfold JS.max. destruct (lt_cases a b) as [[E H] | [E H]]; rewrite E; lra.
Qed.

Lemma max_pick (a b : Q) : JS.max a b = a \/ JS.max a b = b.
Proof. unfold JS.max. destruct (JS.lt a b); auto. Qed.

(* ===================================================================== *)
(** * The release of the panel, on binary64 *)
(* ===================================================================== *)

Section Binary64.

Import SpecFloat PrimFloat FloatOps FloatAxioms.
Local Open Scope float_scope.
#[local] Set Warnings "-inexact-float".

(** The comparison of two binary64 numbers, read in the other direction. *)
Lemma SFcompare_antisym (x y : spec_float) :
  SFcompare y x = option_map CompOpp (SFcompare x y).
Proof.
  destruct x as [sx | sx | | sx mx ex], y as [sy | sy | | sy my ey];
    try destruct sx; try destruct sy; cbn; try reflexivity.
  - rewrite (Z.compare_antisym ey ex).
    destruct (Z.compare ey ex); cbn; try reflexivity.
    rewrite (Pos.compare_cont_antisym mx my Eq). cbn. reflexivity.
  - rewrite (Z.compare_antisym ey ex).
    destruct (Z.compare ey ex); cbn; try reflexivity.
    rewrite (Pos.compare_cont_antisym mx my Eq). cbn. reflexivity.
Qed.

Ltac by_cases x y z :=
  destruct x as [? | ? | | ? ?mx ?ex], y as [? | ? | | ? ?my ?ey],
    z as [? | ? | | ? ?mz ?ez];
  repeat match goal with b : bool |- _ => destruct b end; cbn;
  try discriminate; try reflexivity; intros ? ?;
  repeat match goal with
         | H : context [Pos.compare_cont Eq ?a ?b] |- _ =>
             change (Pos.compare_cont Eq a b) with (Pos.compare a b) in H
         | |- context [Pos.compare_cont Eq ?a ?b] =>
             change (Pos.compare_cont Eq a b) with (Pos.compare a b)
         end;
  repeat match goal with
         | H : context [Z.compare ?a ?b] |- _ =>
             destruct (Z.compare_spec a b); try discriminate; try lia
         | |- context [Z.compare ?a ?b] =>
             destruct (Z.compare_spec a b); try discriminate; try lia
         end;
  repeat match goal with
         | H : context [Pos.compare ?a ?b] |- _ =>
             destruct (Pos.compare_spec a b); try discriminate; try lia
         | |- context [Pos.compare ?a ?b] =>
             destruct (Pos.compare_spec a b); try discriminate; try lia
         end;
  try reflexivity.

Lemma SFcompare_lt_trans (x y z : spec_float) :
  SFcompare x y = Some Lt -> SFcompare y z = Some Lt -> SFcompare x z = Some Lt.
Proof. by_cases x y z. Qed.

Lemma SFcompare_lt_eq (x y z : spec_float) :
  SFcompare x y = Some Lt -> SFcompare y z = Some Eq -> SFcompare x z = Some Lt.
Proof. by_cases x y z. Qed.

(** A number compares with a number. *)
Lemma number_compares (a b : float) :
  Panel64.number a -> Panel64.number b ->
  SFcompare (Prim2SF a) (Prim2SF b) <> None.
Proof.
  unfold Panel64.number, is_nan. rewrite !eqb_spec. unfold SFeqb.
  destruct (Prim2SF a), (Prim2SF b); cbn; congruence.
Qed.

Lemma ltb_leb (a b : float) : (a <? b) = true -> (a <=? b) = true.
Proof.
  rewrite ltb_spec, leb_spec. unfold SFltb, SFleb.
  destruct (SFcompare (Prim2SF a) (Prim2SF b)) as [[ | | ] | ]; congruence.
Qed.

Lemma ltb_trans (a b c : float) :
  (a <? b) = true -> (b <? c) = true -> (a <? c) = true.
Proof.
  rewrite !ltb_spec. unfold SFltb. intros H1 H2.
  rewrite (SFcompare_lt_trans (Prim2SF a) (Prim2SF b) (Prim2SF c)); [reflexivity | |].
  - destruct (SFcompare (Prim2SF a) (Prim2SF b)) as [[ | | ] | ]; congruence.
  - destruct (SFcompare (Prim2SF b) (Prim2SF c)) as [[ | | ] | ]; congruence.
Qed.

Lemma ltb_leb_trans (a b c : float) :
  (a <? b) = true -> (b <=? c) = true -> (a <? c) = true.
Proof.
  rewrite !ltb_spec, leb_spec. unfold SFltb, SFleb. intros H1 H2.
  destruct (SFcompare (Prim2SF a) (Prim2SF b)) as [[ | | ] | ] eqn:Eab;
    try discriminate.
  destruct (SFcompare (Prim2SF b) (Prim2SF c)) as [[ | | ] | ] eqn:Ebc;
    try discriminate.
  - rewrite (SFcompare_lt_eq _ _ _ Eab Ebc). reflexivity.
  - rewrite (SFcompare_lt_trans _ _ _ Eab Ebc). reflexivity.
Qed.

Lemma nltb_leb (a b : float) :
  Panel64.number a -> Panel64.number b -> (a <? b) = false -> (b <=? a) = true.
Proof.
  intros Ha Hb. pose proof (number_compares a b Ha Hb) as Hc.
  rewrite ltb_spec, leb_spec. unfold SFltb, SFleb.
  rewrite (SFcompare_antisym (Prim2SF a) (Prim2SF b)).
  destruct (SFcompare (Prim2SF a) (Prim2SF b)) as [[ | | ] | ]; cbn; congruence.
Qed.

Lemma leb_refl (a : float) : Panel64.number a -> (a <=? a) = true.
Proof.
  unfold Panel64.number, is_nan. rewrite eqb_spec, leb_spec.
  unfold SFeqb, SFleb.
  destruct (SFcompare (Prim2SF a) (Prim2SF a)) as [[ | | ] | ]; cbn; congruence.
Qed.

Lemma eqb_nltb (a b : float) : (a =? b) = true -> (b <? a) = false.
Proof.
  rewrite eqb_spec, ltb_spec. unfold SFeqb, SFltb.
  rewrite (SFcompare_antisym (Prim2SF a) (Prim2SF b)).
  destruct (SFcompare (Prim2SF a) (Prim2SF b)) as [[ | | ] | ]; cbn; congruence.
Qed.

(** The reducer keeps the accumulator unless the next position is
    strictly closer. *)
Lemma closer64_cases (p prev curr : float) :
  ((Panel64.distance p curr <? Panel64.distance p prev) = true
   /\ Panel64.closer p prev curr = curr)
  \/ ((Panel64.distance p curr <? Panel64.distance p prev) = false
      /\ Panel64.closer p prev curr = prev).
Proof.
  unfold Panel64.closer, Panel64.distance.
  destruct (abs (curr - p) <? abs (prev - p)); auto.
Qed.

(** The entries of a list of three. *)
Lemma nth_error_three {A} (a b c x : A) (j : nat) :
  nth_error [a; b; c] j = Some x ->
  (j = 0%nat /\ x = a) \/ (j = 1%nat /\ x = b) \/ (j = 2%nat /\ x = c).
Proof.
  destruct j as [| [| [| j]]]; cbn; intros H.
  - injection H as <-. auto.
  - injection H as <-. auto.
  - injection H as <-. auto.
  - destruct j; discriminate.
Qed.

(** The reduction over three positions yields the closest one, the
    earliest of those at the least distance. *)
Lemma reduce_closest_first (p c m e : float) :
  Panel64.number (Panel64.distance p c) ->
  Panel64.number (Panel64.distance p m) ->
  Panel64.number (Panel64.distance p e) ->
  Panel64.closest_first [c; m; e] p
    (JS.reduce (Panel64.closer p) c [m; e]).
Proof.
  intros Nc Nm Ne. unfold JS.reduce. cbn [fold_left].
  destruct (closer64_cases p c m) as [[H1 E1] | [H1 E1]]; rewrite E1;
    [destruct (closer64_cases p m e) as [[H2 E2] | [H2 E2]]
    | destruct (closer64_cases p c e) as [[H2 E2] | [H2 E2]]]; rewrite E2.
  - exists 2%nat. split; [reflexivity |]. split.
    + intros j x Hx.
      destruct (nth_error_three _ _ _ _ _ Hx) as [[_ ->] | [[_ ->] | [_ ->]]].
      * apply ltb_leb. eapply ltb_trans; eassumption.
      * apply ltb_leb. assumption.
      * apply leb_refl. assumption.
    + intros j x Hj Hx.
      destruct (nth_error_three _ _ _ _ _ Hx) as [[_ ->] | [[_ ->] | [-> _]]].
      * eapply ltb_trans; eassumption.
      * assumption.
      * lia.
  - exists 1%nat. split; [reflexivity |]. split.
    + intros j x Hx.
      destruct (nth_error_three _ _ _ _ _ Hx) as [[_ ->] | [[_ ->] | [_ ->]]].
      * apply ltb_leb. assumption.
      * apply leb_refl. assumption.
      * apply nltb_leb; assumption.
    + intros j x Hj Hx.
      destruct (nth_error_three _ _ _ _ _ Hx) as [[_ ->] | [[-> _] | [-> _]]].
      * assumption.
      * lia.
      * lia.
  - assert (Hcm : (Panel64.distance p c <=? Panel64.distance p m) = true)
      by (apply nltb_leb; assumption).
    exists 2%nat. split; [reflexivity |]. split.
    + intros j x Hx.
      destruct (nth_error_three _ _ _ _ _ Hx) as [[_ ->] | [[_ ->] | [_ ->]]].
      * apply ltb_leb. assumption.
      * apply ltb_leb. eapply ltb_leb_trans; eassumption.
      * apply leb_refl. assumption.
    + intros j x Hj Hx.
      destruct (nth_error_three _ _ _ _ _ Hx) as [[_ ->] | [[_ ->] | [-> _]]].
      * assumption.
      * eapply ltb_leb_trans; eassumption.
      * lia.
  - exists 0%nat. split; [reflexivity |]. split.
    + intros j x Hx.
      destruct (nth_error_three _ _ _ _ _ Hx) as [[_ ->] | [[_ ->] | [_ ->]]].
      * apply leb_refl. assumption.
      * apply nltb_leb; assumption.
      * apply nltb_leb; assumption.
    + intros j x Hj. lia.
Qed.

(** Of two later positions at the same distance, the reduction takes the
    first when it is strictly closer than the position before them. *)
Lemma reduce_tie (p c m e : float) :
  (Panel64.distance p m =? Panel64.distance p e) = true ->
  (Panel64.distance p m <? Panel64.distance p c) = true ->
  JS.reduce (Panel64.closer p) c [m; e] = m.
Proof.
  intros Htie Hm. unfold JS.reduce. cbn [fold_left].
  destruct (closer64_cases p c m) as [[H1 E1] | [H1 E1]]; [| congruence].
  rewrite E1.
  destruct (closer64_cases p m e) as [[H2 E2] | [H2 E2]]; [| assumption].
  rewrite (eqb_nltb _ _ Htie) in H2. discriminate.
Qed.

(** What a release does to the cells of the panel. *)
Lemma release_cells (sp : Panel64.SnapPoints) (ty v : float) (s : Panel64.Sheet) :
  Panel64.onHandleStateChange sp (Panel64.mkNativeEvent Panel.END ty v) s
  = {| Panel64.currentSnapPoint :=
         Panel64.targetSnapPoint sp v (Panel64.lastGesture s + ty);
       Panel64.translateY :=
         Panel64.targetSnapPoint sp v (Panel64.lastGesture s + ty);
       Panel64.lastGesture := Panel64.lastGesture s + ty;
       Panel64.scrollOffset := Panel64.scrollOffset s;
       Panel64.isDragging := false |}.
Proof. reflexivity. Qed.

(** Claim C2.  Release of the bottom panel.  When a drag ends with
    translation [ty] and velocity [v], the offset of the release is
    [p = lastGesture + ty]; the panel is no longer dragged, [lastGesture]
    becomes [p], and the panel settles: [currentSnapPoint] and the
    animated [translateY] both become the target [t], one of the three rest
    positions of the window.  With [v > 500] the target is [collapsed] and
    with [v < -500] it is [expanded], whatever [p] is.  Otherwise, the
    distances [Math.abs(x - p)] of the three positions being numbers, [t]
    is the position of [[collapsed; mid; expanded]] at the least distance
    from [p], and strictly closer than every position listed before it: of
    two positions at the same distance the earlier one wins.  So when [mid]
    and [expanded] are at the same distance from [p] and [mid] is closer
    than [collapsed], the panel settles at [mid].  An event of any other
    state changes nothing.  All numbers are binary64, and a distance is
    the one the program computes. *)
Theorem panel_release_settles (screenHeight ty v : float) (s : Panel64.Sheet) :
  let sp := Panel64.snapPoints screenHeight in
  let p := Panel64.lastGesture s + ty in
  let d := Panel64.distance p in
  let s' :=
    Panel64.onHandleStateChange sp (Panel64.mkNativeEvent Panel.END ty v) s in
  let t := Panel64.currentSnapPoint s' in
  Panel64.translateY s' = t
  /\ Panel64.lastGesture s' = p
  /\ Panel64.isDragging s' = false
  /\ Panel64.scrollOffset s' = Panel64.scrollOffset s
  /\ In t [Panel64.collapsed sp; Panel64.mid sp; Panel64.expanded sp]
  /\ ((500 <? v) = true -> t = Panel64.collapsed sp)
  /\ ((v <? -500) = true -> t = Panel64.expanded sp)
  /\ ((500 <? v) = false -> (v <? -500) = false ->
      Panel64.number (d (Panel64.collapsed sp)) ->
      Panel64.number (d (Panel64.mid sp)) ->
      Panel64.number (d (Panel64.expanded sp)) ->
      Panel64.closest_first
        [Panel64.collapsed sp; Panel64.mid sp; Panel64.expanded sp] p t
      /\ ((d (Panel64.mid sp) =? d (Panel64.expanded sp)) = true ->
          (d (Panel64.mid sp) <? d (Panel64.collapsed sp)) = true ->
          t = Panel64.mid sp))
  /\ (forall st, st <> Panel.END ->
      Panel64.onHandleStateChange sp (Panel64.mkNativeEvent st ty v) s = s).
Proof.
  intros sp p d s' t. subst s' t. rewrite release_cells.
  cbn [Panel64.currentSnapPoint Panel64.translateY Panel64.lastGesture
       Panel64.isDragging Panel64.scrollOffset].
  fold p. unfold Panel64.targetSnapPoint.
  split; [reflexivity |]. split; [reflexivity |]. split; [reflexivity |].
  split; [reflexivity |]. split; [| split; [| split; [| split]]].
  - destruct (v <? -500); [cbn; auto |].
    destruct (500 <? v); [cbn; auto |].
    unfold JS.reduce. cbn [fold_left].
    destruct (closer64_cases p (Panel64.collapsed sp) (Panel64.mid sp))
      as [[_ E1] | [_ E1]]; rewrite E1;
      match goal with
      | |- In (Panel64.closer p ?a ?b) _ =>
          destruct (closer64_cases p a b) as [[_ E2] | [_ E2]]; rewrite E2
      end; cbn; auto.
  - intros Hv. destruct (v <? -500) eqn:Hu; [| rewrite Hv; reflexivity].
    exfalso.
    assert (H : (500 <? -500) = true) by (eapply ltb_trans; eassumption).
    vm_compute in H. discriminate.
  - intros Hv. rewrite Hv. reflexivity.
  - intros Hdown Hup Nc Nm Ne. rewrite Hdown, Hup. split.
    + apply reduce_closest_first; assumption.
    + intros Htie Hm. apply reduce_tie; assumption.
  - intros st Hst. unfold Panel64.onHandleStateChange. cbn [Panel64.state].
    destruct st; try reflexivity. contradiction.
Qed.

(** On a window 1000 high, a release 500 above the start at rest
    ([p = 300], at the distance 200 from both [mid = 500] and
    [expanded = 100]) settles the panel at [mid]. *)
Lemma panel_release_settles_witness :
  Panel64.lastGesture
    (Panel64.onHandleStateChange (Panel64.snapPoints 1000)
       (Panel64.mkNativeEvent Panel.END (-500) 0)
       (Panel64.initial (Panel64.snapPoints 1000)))
  = 300
  /\ Panel64.distance 300 (Panel64.mid (Panel64.snapPoints 1000)) = 200
  /\ Panel64.distance 300 (Panel64.expanded (Panel64.snapPoints 1000)) = 200
  /\ Panel64.currentSnapPoint
       (Panel64.onHandleStateChange (Panel64.snapPoints 1000)
          (Panel64.mkNativeEvent Panel.END (-500) 0)
          (Panel64.initial (Panel64.snapPoints 1000)))
     = 500
  /\ Panel64.translateY
       (Panel64.onHandleStateChange (Panel64.snapPoints 1000)
          (Panel64.mkNativeEvent Panel.END (-500) 0)
          (Panel64.initial (Panel64.snapPoints 1000)))
     = 500.
Proof.
  pose proof (panel_release_settles 1000 (-500) 0
                (Panel64.initial (Panel64.snapPoints 1000))) as H.
  cbv zeta in H.
  destruct H as (Hy & Hp & _ & _ & _ & _ & _ & Hc & _).
  destruct Hc as [_ Ht]; try reflexivity.
  rewrite Hy, Hp, Ht by reflexivity.
  repeat split; reflexivity.
Defined.

(** On a window 1366 high the same gesture is no tie: [expanded] is
    [136.59999999999999] and the release is at [409.79999999999995], nearer
    to it than to [mid = 683]; the panel settles at [expanded].  So it does
    from rest after a swipe upwards at the velocity [-600]. *)
Lemma release_on_1366 :
  Panel64.expanded (Panel64.snapPoints 1366) = 136.59999999999999
  /\ Panel64.mid (Panel64.snapPoints 1366) = 683
  /\ Panel64.lastGesture
       (Panel64.onHandleStateChange (Panel64.snapPoints 1366)
          (Panel64.mkNativeEvent Panel.END (-683) 0)
          (Panel64.initial (Panel64.snapPoints 1366)))
     = 409.79999999999995
  /\ (Panel64.distance 409.79999999999995
        (Panel64.expanded (Panel64.snapPoints 1366))
      <? Panel64.distance 409.79999999999995
           (Panel64.mid (Panel64.snapPoints 1366))) = true
  /\ Panel64.currentSnapPoint
       (Panel64.onHandleStateChange (Panel64.snapPoints 1366)
          (Panel64.mkNativeEvent Panel.END (-683) 0)
          (Panel64.initial (Panel64.snapPoints 1366)))
     = Panel64.expanded (Panel64.snapPoints 1366)
  /\ Panel64.translateY
       (Panel64.onHandleStateChange (Panel64.snapPoints 1366)
          (Panel64.mkNativeEvent Panel.END (-683) 0)
          (Panel64.initial (Panel64.snapPoints 1366)))
     = Panel64.expanded (Panel64.snapPoints 1366)
  /\ Panel64.currentSnapPoint
       (Panel64.onHandleStateChange (Panel64.snapPoints 1366)
          (Panel64.mkNativeEvent Panel.END 0 (-600))
          (Panel64.initial (Panel64.snapPoints 1366)))
     = Panel64.expanded (Panel64.snapPoints 1366).
Proof. repeat split; vm_compute; reflexivity. Qed.

End Binary64.

(* ===================================================================== *)
(** * The viewport over the loaded routes *)
(* ===================================================================== *)



(* ===================================================================== *)
(** * Running programs *)
(* ===================================================================== *)

Section Running.

Context {E : Type} {R : E -> Type} {S : Type}.
Variable h : Handler E R S.

Lemma trace_ret {A} (a : A) (s : S) : trace h (Ret a) s = [].
Proof. reflexivity. Qed.

Lemma result_ret {A} (a : A) (s : S) : result h (Ret a) s = a.
Proof. reflexivity. Qed.

Lemma final_ret {A} (a : A) (s : S) : final h (Ret a) s = s.
Proof. reflexivity. Qed.

Lemma trace_vis {A} (e : E) (k : R e -> Prog E R A) (s : S) :
  trace h (Vis e k) s
  = existT R e (fst (h e s)) :: trace h (k (fst (h e s))) (snd (h e s)).
Proof.
  unfold trace. cbn [run]. destruct (h e s) as [r s1]. cbn [fst snd].
  destruct (run h (k r) s1) as [[tr a] s2]. reflexivity.
Qed.

Lemma result_vis {A} (e : E) (k : R e -> Prog E R A) (s : S) :
  result h (Vis e k) s = result h (k (fst (h e s))) (snd (h e s)).
Proof.
  unfold result. cbn [run]. destruct (h e s) as [r s1]. cbn [fst snd].
  destruct (run h (k r) s1) as [[tr a] s2]. reflexivity.
Qed.

Lemma final_vis {A} (e : E) (k : R e -> Prog E R A) (s : S) :
  final h (Vis e k) s = final h (k (fst (h e s))) (snd (h e s)).
Proof.
  unfold final. cbn [run]. destruct (h e s) as [r s1]. cbn [fst snd].
  destruct (run h (k r) s1) as [[tr a] s2]. reflexivity.
Qed.

Lemma trace_bind {A B} (p : Prog E R A) (f : A -> Prog E R B) :
  forall s,
    trace h (bind p f) s
    = trace h p s ++ trace h (f (result h p s)) (final h p s).
Proof.
  induction p as [a | e k IH]; intro s.
  - reflexivity.
  - cbn [bind]. rewrite !trace_vis, result_vis, final_vis, IH. reflexivity.
Qed.

Lemma result_bind {A B} (p : Prog E R A) (f : A -> Prog E R B) :
  forall s,
    result h (bind p f) s = result h (f (result h p s)) (final h p s).
Proof.
  induction p as [a | e k IH]; intro s.
  - reflexivity.
  - cbn [bind]. rewrite !result_vis, final_vis, IH. reflexivity.
Qed.

Lemma final_bind {A B} (p : Prog E R A) (f : A -> Prog E R B) :
  forall s,
    final h (bind p f) s = final h (f (result h p s)) (final h p s).
Proof.
  induction p as [a | e k IH]; intro s.
  - reflexivity.
  - cbn [bind]. rewrite !final_vis, result_vis, IH. reflexivity.
Qed.

Lemma trace_call (e : E) (s : S) :
  trace h (call e) s = [existT R e (fst (h e s))].
Proof. unfold call. rewrite trace_vis. reflexivity. Qed.

Lemma result_call (e : E) (s : S) : result h (call e) s = fst (h e s).
Proof. unfold call. rewrite result_vis. reflexivity. Qed.

Lemma final_call (e : E) (s : S) : final h (call e) s = snd (h e s).
Proof. unfold call. rewrite final_vis. reflexivity. Qed.

End Running.

(* ===================================================================== *)
(** * The lookup of the location search *)
(* ===================================================================== *)

Section Lookup.

Import Location Search.

Context {S : Type}.
Variable h : Location.Handler S.

Lemma geocodes_app (a b : list Location.Event) :
  geocodes (a ++ b) = geocodes a ++ geocodes b.
Proof.
  induction a as [| ev a IH]; [reflexivity |].
  cbn [app geocodes]. destruct (geocodeOf ev); rewrite IH; reflexivity.
Qed.

Lemma trace_geocode {A} (t : string) (k : option (list Coords) -> Prog A) (s : S) :
  geocodes (trace h (bind (geocode t) k) s)
  = (t, fst (h (geocodeAsync t) s))
      :: geocodes (trace h (k (fst (h (geocodeAsync t) s)))
                     (snd (h (geocodeAsync t) s))).
Proof.
  unfold geocode, call. cbn [bind]. rewrite trace_vis. reflexivity.
Qed.

(** The loop over the terms tries each term while the answers are empty. *)
Lemma tryTerms_attempts (terms : list string) :
  forall results s,
    terms <> [] ->
    attempts terms (geocodes (trace h (tryTerms terms results) s)).
Proof.
  induction terms as [| term rest IH]; intros results s Hne; [now elim Hne |].
  cbn [tryTerms]. rewrite trace_geocode.
  destruct (fst (h (geocodeAsync term) s)) as [[| c l] |] eqn:Ea.
  - cbn [List.length Nat.ltb Nat.leb].
    destruct rest as [| term' rest'].
    + cbn [tryTerms]. rewrite trace_ret. apply attempts_exhausted.
    + apply attempts_next; [discriminate |]. apply IH. discriminate.
  - cbn [List.length Nat.ltb Nat.leb]. rewrite trace_ret.
    apply attempts_stop. discriminate.
  - rewrite trace_ret. apply attempts_stop. discriminate.
Qed.

Lemma fallback_attempts (query : string) (s : S) :
  attempts (query :: searchTerms query)
    (geocodes (trace h (geocodeWithFallback query) s)).
Proof.
  unfold geocodeWithFallback. rewrite trace_geocode.
  destruct (fst (h (geocodeAsync query) s)) as [[| c l] |] eqn:Ea.
  - cbn [List.length Nat.eqb].
    apply attempts_next; [discriminate |].
    apply tryTerms_attempts. discriminate.
  - cbn [List.length Nat.eqb]. rewrite trace_ret.
    apply attempts_stop. discriminate.
  - rewrite trace_ret. apply attempts_stop. discriminate.
Qed.

Lemma reverseAll_no_geocode (results : list Coords) :
  forall s, geocodes (trace h (reverseAll results) s) = [].
Proof.
  induction results as [| r rest IH]; intro s; [reflexivity |].
  cbn [reverseAll]. unfold reverseGeocode, call. cbn [bind].
  rewrite trace_vis. cbn [geocodes geocodeOf].
  rewrite trace_bind, geocodes_app, IH, trace_ret. reflexivity.
Qed.

(** The geocoding calls of a lookup are those of its geocoding phase. *)
Lemma lookup_geocodes (query : string) (s : S) :
  geocodes (trace h (lookup query) s)
  = geocodes (trace h (geocodeWithFallback query) s).
Proof.
  unfold lookup. rewrite trace_bind, geocodes_app.
  destruct (result h (geocodeWithFallback query) s) as [results |].
  - destruct (0 <? List.length results)%nat.
    + rewrite trace_bind, geocodes_app, reverseAll_no_geocode.
      destruct (all _); rewrite trace_ret, app_nil_r; reflexivity.
    + rewrite trace_ret, app_nil_r. reflexivity.
  - rewrite trace_ret, app_nil_r. reflexivity.
Qed.

End Lookup.

Lemma attempts_nonempty (terms : list string)
    (tr : list (string * option (list Location.Coords))) :
  Search.attempts terms tr -> tr <> [].
Proof. destruct 1; discriminate. Qed.

(** Claim C4.  A lookup geocodes the raw query first.  If and only if
    that finds nothing, it goes on with the query followed by [", Sweden"],
    [", Gothenburg"], [", Stockholm"] and [", Malmö"], in this order, and
    last with the raw query again; it stops at the first attempt that
    does not answer with an empty list.  This holds against every
    environment, and the lookup always comes to an end. *)
Theorem lookup_attempts {S : Type} (h : Location.Handler S) (s : S) (query : string) :
  Search.attempts
    [ query;
      (query ++ ", Sweden")%string;
      (query ++ ", Gothenburg")%string;
      (query ++ ", Stockholm")%string;
      (query ++ ", Malmö")%string;
      query ]
    (Location.geocodes (trace h (Search.lookup query) s))
  /\ exists a retries,
      Location.geocodes (trace h (Search.lookup query) s) = (query, a) :: retries
      /\ (retries <> [] <-> a = Some []).
Proof.
  assert (H : Search.attempts (query :: Search.searchTerms query)
                (Location.geocodes (trace h (Search.lookup query) s)))
    by (rewrite lookup_geocodes; apply fallback_attempts).
  split; [exact H |].
  inversion H as [term rest a Ha | term | term rest tr Hne Hrest]; subst.
  - exists a, []. split; [reflexivity |]. split; [now intros [] | contradiction].
  - exists (Some []), tr. split; [reflexivity |].
    split; [reflexivity |]. intros _. eapply attempts_nonempty; eassumption.
Qed.

Section LookupResult.

Import Location Search.

Context {S : Type}.
Variable h : Location.Handler S.

Lemma result_geocode {A} (t : string) (k : option (list Coords) -> Prog A) (s : S) :
  result h (bind (geocode t) k) s
  = result h (k (fst (h (geocodeAsync t) s))) (snd (h (geocodeAsync t) s)).
Proof. unfold geocode, call. cbn [bind]. rewrite result_vis. reflexivity. Qed.

Lemma tryTerms_nothing (terms : list string) :
  forall s,
    Forall emptyAnswer (geocodes (trace h (tryTerms terms []) s)) ->
    result h (tryTerms terms []) s = Some [].
Proof.
  induction terms as [| term rest IH]; intros s Hall; [reflexivity |].
  cbn [tryTerms] in *. rewrite trace_geocode in Hall. rewrite result_geocode.
  destruct (fst (h (geocodeAsync term) s)) as [[| c l] |];
    inversion Hall as [| g gs Hg Hgs]; subst; try discriminate Hg.
  cbn [List.length Nat.ltb Nat.leb] in *.
  apply IH. exact Hgs.
Qed.

Lemma fallback_nothing (query : string) (s : S) :
  Forall emptyAnswer (geocodes (trace h (geocodeWithFallback query) s)) ->
  result h (geocodeWithFallback query) s = Some [].
Proof.
  unfold geocodeWithFallback. intros Hall.
  rewrite trace_geocode in Hall. rewrite result_geocode.
  destruct (fst (h (geocodeAsync query) s)) as [[| c l] |];
    inversion Hall as [| g gs Hg Hgs]; subst; try discriminate Hg.
  cbn [List.length Nat.eqb] in *.
  apply tryTerms_nothing. exact Hgs.
Qed.

Lemma lookup_nothing (query : string) (s : S) :
  Forall emptyAnswer (geocodes (trace h (lookup query) s)) ->
  result h (lookup query) s = Nothing.
Proof.
  intros Hall. rewrite lookup_geocodes in Hall.
  apply fallback_nothing in Hall.
  unfold lookup. rewrite result_bind, Hall. reflexivity.
Qed.

(** Every entry built from a hit carries the coordinates of the hit. *)
Lemma withCoords_coords (address : list Address) (r : Coords) :
  coords (withCoords address r) = Some r.
Proof. destruct r, address; reflexivity. Qed.

Lemma all_Forall2 {A B} (f : A -> B -> Prop) (l : list (option B)) :
  forall (xs : list A) (ys : list B),
    Forall2 (fun x o => forall y, o = Some y -> f x y) xs l ->
    all l = Some ys -> Forall2 f xs ys.
Proof.
  induction l as [| o l IH]; intros xs ys HF Hall; inversion HF; subst.
  - injection Hall as <-. constructor.
  - destruct o as [y |]; [| discriminate]. cbn [all] in Hall.
    destruct (all l) as [ys' |] eqn:E; [| discriminate].
    injection Hall as <-. constructor; auto.
Qed.

Lemma reverseAll_coords (results : list Coords) :
  forall s,
    Forall2 (fun r o => forall a, o = Some a -> coords a = Some r)
      results (result h (reverseAll results) s).
Proof.
  induction results as [| r rest IH]; intro s.
  - constructor.
  - cbn [reverseAll]. unfold reverseGeocode, call. cbn [bind].
    rewrite result_vis, result_bind, result_ret.
    constructor; [| apply IH].
    intros a Ha. destruct (fst (h _ s)); [| discriminate].
    injection Ha as <-. destruct r. apply withCoords_coords.
Qed.

(** A lookup that ends with a list shows the deduplicated entries of the
    hits of its geocoding phase. *)
Lemma lookup_found (query : string) (s : S) (out : list SearchResult) :
  result h (lookup query) s = Found out ->
  exists hits addresses,
    result h (geocodeWithFallback query) s = Some hits
    /\ hits <> []
    /\ Forall2 (fun r a => coords a = Some r) hits addresses
    /\ out = uniqueAddresses addresses.
Proof.
  unfold lookup. rewrite result_bind.
  destruct (result h (geocodeWithFallback query) s) as [hits |];
    [| discriminate].
  destruct hits as [| r rest]; [discriminate |].
  cbn [List.length Nat.ltb Nat.leb]. rewrite result_bind.
  set (answers := result h (reverseAll (r :: rest)) _).
  destruct (all answers) as [addresses |] eqn:Eall; [| discriminate].
  rewrite result_ret. intros [= <-].
  exists (r :: rest), addresses. repeat split; [discriminate |].
  eapply all_Forall2; [| exact Eall]. apply reverseAll_coords.
Qed.

End LookupResult.

(* ===================================================================== *)
(** * Deduplication of the hits *)
(* ===================================================================== *)

Section Dedup.

Import Location Search.

Lemma eq_true_iff (a b : Q) : JS.eq a b = true <-> a == b.
Proof. unfold JS.eq. apply Qeq_bool_iff. Qed.

Lemma sameCoords_spot (a x : SearchResult) :
  located a -> located x -> (sameCoords a x = true <-> sameSpot x a).
Proof.
  unfold located, sameCoords, sameSpot, sameNumber.
  destruct (coords a) as [ca |], (coords x) as [cx |]; try congruence.
  intros _ _. cbn [option_map]. rewrite andb_true_iff, !eq_true_iff. tauto.
Qed.

Lemma sameSpot_refl (a : SearchResult) : located a -> sameSpot a a.
Proof.
  unfold located, sameSpot. destruct (coords a); [| congruence].
  intros _. split; reflexivity.
Qed.

Lemma sameSpot_sym (a b : SearchResult) : sameSpot a b -> sameSpot b a.
Proof.
  unfold sameSpot. destruct (coords a), (coords b); try tauto.
  intros [H1 H2]. split; symmetry; assumption.
Qed.

Lemma sameSpot_trans (a b c : SearchResult) :
  sameSpot a b -> sameSpot b c -> sameSpot a c.
Proof.
  unfold sameSpot. destruct (coords a), (coords b), (coords c); try tauto.
  intros [H1 H2] [H3 H4]. split; etransitivity; eassumption.
Qed.

Lemma findIndex_none {A} (p : A -> bool) (l : list A) :
  JS.findIndex p l = None <-> forall x, In x l -> p x = false.
Proof.
  induction l as [| y l IH]; cbn [JS.findIndex].
  - split; [intros _ x [] | reflexivity].
  - destruct (p y) eqn:E.
    + split; [discriminate |]. intros H. specialize (H y (or_introl eq_refl)).
      congruence.
    + destruct (JS.findIndex p l); cbn [option_map].
      * split; [discriminate |]. intros H.
        assert (Some n = None) by (apply IH; intros x Hx; apply H; now right).
        discriminate.
      * split; [| reflexivity]. intros _ x [<- | Hx]; [exact E |].
        now apply IH.
Qed.

Lemma findIndex_some {A} (p : A -> bool) (l : list A) (i : nat) :
  JS.findIndex p l = Some i ->
  exists x, nth_error l i = Some x /\ p x = true.
Proof.
  revert i. induction l as [| y l IH]; intros i; cbn [JS.findIndex];
    [discriminate |].
  destruct (p y) eqn:E.
  - intros [= <-]. exists y. auto.
  - destruct (JS.findIndex p l) as [j |]; cbn [option_map]; [| discriminate].
    intros [= <-]. apply IH. reflexivity.
Qed.

Lemma findIndex_app {A} (p : A -> bool) (l1 l2 : list A) :
  JS.findIndex p (l1 ++ l2)
  = match JS.findIndex p l1 with
    | Some i => Some i
    | None => option_map (Nat.add (List.length l1)) (JS.findIndex p l2)
    end.
Proof.
  induction l1 as [| y l1 IH]; cbn [JS.findIndex app List.length].
  - destruct (JS.findIndex p l2); reflexivity.
  - destruct (p y); [reflexivity |]. rewrite IH.
    destruct (JS.findIndex p l1); [reflexivity |].
    destruct (JS.findIndex p l2); reflexivity.
Qed.

(** The filter of [uniqueAddresses], from the entries gone through. *)
Lemma filter_firstSeen (rest : list SearchResult) :
  forall seen,
    Forall located (seen ++ rest) ->
    firstSeen seen rest
      (JS.filteri_from (List.length seen)
         (fun addr index =>
            match coords addr with
            | Some _ =>
                match JS.findIndex (sameCoords addr) (seen ++ rest) with
                | Some i => (index =? i)%nat
                | None => false
                end
            | None => false
            end)
         rest).
Proof.
  induction rest as [| a rest IH]; intros seen Hloc; [constructor |].
  assert (La : located a).
  { rewrite Forall_forall in Hloc. apply Hloc, in_or_app. right. now left. }
  assert (Lseen : forall b, In b seen -> located b).
  { rewrite Forall_forall in Hloc. intros b Hb. apply Hloc, in_or_app. now left. }
  specialize (IH (seen ++ [a])).
  rewrite <- app_assoc in IH. cbn [app] in IH.
  rewrite length_app in IH. cbn [List.length] in IH.
  rewrite Nat.add_1_r in IH. specialize (IH Hloc).
  cbn [JS.filteri_from].
  destruct (coords a) as [ca |] eqn:Ec; [| now elim La].
  rewrite findIndex_app.
  destruct (JS.findIndex (sameCoords a) seen) as [i |] eqn:Ef.
  - destruct (findIndex_some _ _ _ Ef) as (b & Hb & Hs).
    assert (Hi : (i < List.length seen)%nat) by (apply nth_error_Some; congruence).
    replace (List.length seen =? i)%nat with false
      by (symmetry; apply Nat.eqb_neq; lia).
    apply firstSeen_drop; [| exact IH].
    exists b. split; [eapply nth_error_In; eassumption |].
    apply sameCoords_spot; auto. apply Lseen. eapply nth_error_In; eassumption.
  - cbn [JS.findIndex].
    replace (sameCoords a a) with true
      by (symmetry; apply sameCoords_spot; auto using sameSpot_refl).
    cbn [option_map]. rewrite Nat.add_0_r, Nat.eqb_refl.
    apply firstSeen_emit; [| exact IH].
    intros b Hb Hs. rewrite findIndex_none in Ef.
    specialize (Ef b Hb).
    apply sameCoords_spot in Hs; auto. congruence.
Qed.

Lemma unique_firstSeen (addresses : list SearchResult) :
  Forall located addresses ->
  firstSeen [] addresses (uniqueAddresses addresses).
Proof. intros H. apply (filter_firstSeen addresses []). exact H. Qed.

End Dedup.

Lemma Forall2_located (hits : list Location.Coords) (addresses : list Search.SearchResult) :
  Forall2 (fun r a => Search.coords a = Some r) hits addresses ->
  Forall Search.located addresses.
Proof.
  induction 1 as [| r a hits addresses Hra _ IH]; constructor; [| exact IH].
  unfold Search.located. congruence.
Qed.

(** A lookup never shows an empty list. *)
Lemma lookup_found_nonempty {S : Type} (h : Location.Handler S) (s : S)
    (query : string) (out : list Search.SearchResult) :
  result h (Search.lookup query) s = Search.Found out -> out <> [].
Proof.
  intros Hout.
  destruct (lookup_found h query s out Hout) as (hits & addresses & _ & Hne & Hc & ->).
  assert (Hloc := Forall2_located _ _ Hc).
  destruct Hc as [| r a hits addresses Hra Hrest]; [now elim Hne |].
  assert (F := unique_firstSeen _ Hloc).
  inversion F as [| seen x rest o Hd | seen x rest o Hx Hf]; subst.
  - destruct Hd as (b & [] & _).
  - discriminate.
Qed.

(** Claim C9.  When the query is not blank and every geocoding attempt of
    its lookup, the fallback terms included, finds nothing, the lookup
    leaves the search state as it was: the result list and its visibility
    flag keep their values.  Typing the query did not change them either;
    a lookup that does set the list never sets an empty one; only a blank
    query clears the list and hides it. *)
Theorem empty_lookup_keeps_results {S : Type} (h : Location.Handler S) (s : S)
    (query : string) (st : Search.SearchState) :
  JS.blank query = false ->
  Forall Search.emptyAnswer (Location.geocodes (trace h (Search.lookup query) s)) ->
  Search.settle (result h (Search.lookup query) s) st = st
  /\ (forall loop,
        Search.searchResults (fst (Search.handleSearch query st loop))
        = Search.searchResults st
        /\ Search.showSearchResults (fst (Search.handleSearch query st loop))
           = Search.showSearchResults st)
  /\ (forall q out, result h (Search.lookup q) s = Search.Found out -> out <> [])
  /\ (forall q loop, JS.blank q = true ->
        Search.searchResults (fst (Search.handleSearch q st loop)) = []
        /\ Search.showSearchResults (fst (Search.handleSearch q st loop)) = false).
Proof.
  intros Hq Hall. split; [| split; [| split]].
  - rewrite (lookup_nothing h query s Hall). reflexivity.
  - intros loop. unfold Search.handleSearch. rewrite Hq.
    destruct (Timers.setTimeout _ _ _). split; reflexivity.
  - intros q out. apply lookup_found_nonempty.
  - intros q loop Hb. unfold Search.handleSearch. rewrite Hb. split; reflexivity.
Qed.

(* ===================================================================== *)
(** * The debounce of the location search *)
(* ===================================================================== *)

Section Debounce.

Import Timers Search.

Lemma clear_tracked (s : SearchState) (l : Loop) :
  tracked (s, l) ->
  pending (match searchTimeout s with
           | Some hd => clearTimeout hd l
           | None => l
           end) = [].
Proof.
  unfold tracked. cbn [fst snd]. intros [Htr _].
  destruct (searchTimeout s) as [hd |].
  - cbn [clearTimeout pending].
    induction (pending l) as [| t ts IH]; [reflexivity |].
    cbn [filter].
    assert (E : handle t = hd).
    { specialize (Htr t (or_introl eq_refl)). congruence. }
    rewrite E, Nat.eqb_refl. cbn [negb].
    apply IH. intros t' Ht'. apply Htr. now right.
  - destruct (pending l) as [| t ts]; [reflexivity |].
    specialize (Htr t (or_introl eq_refl)). discriminate.
Qed.

Lemma clear_frame (s : SearchState) (l : Loop) :
  let l1 := match searchTimeout s with
            | Some hd => clearTimeout hd l
            | None => l
            end in
  now l1 = now l /\ ran l1 = ran l /\ nextHandle l1 = nextHandle l.
Proof. destruct (searchTimeout s); repeat split; reflexivity. Qed.

(** The state right after [handleSearch], before the next render. *)
Lemma handleSearch_armed (query : string) (s : SearchState) (l : Loop) :
  tracked (s, l) ->
  armed query (handleSearch query s l)
  /\ ran (snd (handleSearch query s l)) = ran l
  /\ (JS.blank query = true ->
      searchTimeout (fst (handleSearch query s l)) = searchTimeout s)
  /\ (JS.blank query = false ->
      searchTimeout (fst (handleSearch query s l)) = Some (nextHandle l)).
Proof.
  intros Htr.
  assert (Hp := clear_tracked s l Htr).
  destruct (clear_frame s l) as (Hn & Hr & Hh).
  destruct Htr as [_ Hb]. cbn [fst snd] in Hb.
  unfold armed, handleSearch.
  destruct (JS.blank query).
  - cbn [fst snd searchTimeout]. repeat split; auto; try discriminate.
    intros h Hs. rewrite Hh. now apply Hb.
  - unfold setTimeout. cbn [fst snd pending now ran nextHandle searchTimeout].
    rewrite Hp, Hr, Hh. repeat split; try discriminate.
    + intros h [= <-]. lia.
    + eexists. split; reflexivity.
Qed.

(** The cleanup that follows a keystroke clears nothing that is pending. *)
Lemma typed_armed (query : string) (st : SearchState * Loop) :
  tracked st ->
  armed query (step st (Typed query))
  /\ ran (snd (step st (Typed query))) = ran (snd st).
Proof.
  destruct st as [s l]. intros Htr.
  destruct (handleSearch_armed query s l Htr) as (Ha & Hr & Hblank & Hset).
  destruct Htr as [_ Hb]. cbn [fst snd] in Hb.
  unfold step. cbn [fst snd].
  destruct (sameHandle _ _) eqn:Esame; [auto |].
  destruct (JS.blank query) eqn:Eq.
  - rewrite (Hblank eq_refl) in Esame.
    destruct (searchTimeout s) as [h |]; cbn [sameHandle] in Esame;
      [rewrite Nat.eqb_refl in Esame |]; discriminate.
  - unfold armed in *. rewrite Eq in *. cbn [fst snd] in *.
    destruct Ha as (Hbound & hd & Hpend & Hs).
    rewrite (Hset eq_refl) in Hs. injection Hs as <-.
    unfold cleanup. destruct (searchTimeout s) as [h |].
    + assert (Hlt := Hb h eq_refl).
      cbn [clearTimeout pending now ran nextHandle]. rewrite Hpend.
      cbn [filter handle].
      replace (nextHandle l =? h)%nat with false
        by (symmetry; apply Nat.eqb_neq; lia).
      cbn [negb]. repeat split; eauto.
    + repeat split; eauto.
Qed.

Lemma armed_tracked (query : string) (st : SearchState * Loop) :
  armed query st -> tracked st.
Proof.
  unfold armed, tracked. intros [Hb Ha]. split; [| exact Hb].
  destruct (JS.blank query).
  - rewrite Ha. intros t [].
  - destruct Ha as (hd & -> & ->). intros t [<- | []]. reflexivity.
Qed.

Lemma elapsed_before_due (query : string) (st : SearchState * Loop) (gap : nat) :
  armed query st -> (gap < 300)%nat ->
  tracked (step st (Elapsed gap))
  /\ ran (snd (step st (Elapsed gap))) = ran (snd st).
Proof.
  destruct st as [s l]. unfold armed, tracked, step, elapse.
  cbn [fst snd pending ran nextHandle]. intros [Hb Ha] Hgap.
  destruct (JS.blank query).
  - rewrite Ha. cbn [filter map]. rewrite app_nil_r.
    repeat split; [intros t [] | exact Hb].
  - destruct Ha as (hd & -> & Hs). cbn [filter due].
    replace (now l + 300 <=? now l + gap)%nat with false
      by (symmetry; apply Nat.leb_gt; lia).
    cbn [negb map]. rewrite app_nil_r. repeat split; [| exact Hb].
    intros t [<- | []]. exact Hs.
Qed.

(** A burst leaves only the lookup of its last query pending, and runs
    nothing. *)
Lemma burst_armed (rest : list (nat * string)) :
  forall query st,
    armed query st ->
    Forall (fun g => (fst g < 300)%nat) rest ->
    armed (lastQuery query rest) (steps st (burst rest))
    /\ ran (snd (steps st (burst rest))) = ran (snd st).
Proof.
  induction rest as [| [gap q] rest IH]; intros query st Ha Hgaps.
  - split; [exact Ha | reflexivity].
  - inversion Hgaps as [| g gs Hg Hgs]; subst. cbn [fst] in Hg.
    cbn [burst lastQuery]. unfold steps. cbn [fold_left].
    destruct (elapsed_before_due query st gap Ha Hg) as [Htr Hr1].
    destruct (typed_armed q _ Htr) as [Ha2 Hr2].
    destruct (IH q _ Ha2 Hgs) as [Ha3 Hr3].
    split; [exact Ha3 |]. unfold steps in Hr3. rewrite Hr3, Hr2, Hr1. reflexivity.
Qed.

Lemma armed_fires (query : string) (st : SearchState * Loop) (w : nat) :
  armed query st ->
  ran (snd (step st (Elapsed w)))
  = ran (snd st)
    ++ (if (300 <=? w)%nat && negb (JS.blank query) then [query] else []).
Proof.
  destruct st as [s l]. unfold armed, step, elapse. cbn [fst snd ran pending].
  intros [_ Ha]. destruct (JS.blank query).
  - rewrite Ha, andb_false_r. reflexivity.
  - destruct Ha as (hd & -> & _). cbn [filter due]. rewrite andb_true_r.
    destruct (Nat.leb_spec 300 w).
    + replace (now l + 300 <=? now l + w)%nat with true
        by (symmetry; apply Nat.leb_le; lia).
      reflexivity.
    + replace (now l + 300 <=? now l + w)%nat with false
        by (symmetry; apply Nat.leb_gt; lia).
      reflexivity.
Qed.

(** Every state the search box reaches is tracked. *)
Lemma step_tracked (st : SearchState * Loop) (i : Input) :
  tracked st -> tracked (step st i).
Proof.
  intros Htr. destruct i as [query | ms].
  - eapply armed_tracked. apply typed_armed. exact Htr.
  - destruct st as [s l]. unfold tracked, step, elapse in *.
    cbn [fst snd pending nextHandle] in *. destruct Htr as [Htr Hb].
    split; [| exact Hb]. intros t Ht.
    apply filter_In in Ht. apply Htr. tauto.
Qed.

Lemma steps_tracked (inputs : list Input) :
  forall st, tracked st -> tracked (steps st inputs).
Proof.
  induction inputs as [| i inputs IH]; intros st Htr; [exact Htr |].
  apply IH, step_tracked, Htr.
Qed.

Lemma start_tracked : tracked (Search.initial, Timers.start).
Proof. split; [intros t [] | discriminate]. Qed.

Lemma steps_app (st : SearchState * Loop) (a b : list Input) :
  steps st (a ++ b) = steps (steps st a) b.
Proof. apply fold_left_app. Qed.

End Debounce.

(** Claim C8.  After any history of keystrokes and pauses, take a burst of
    calls of [handleSearch], each less than 300 ms after the one before,
    and let [wait] milliseconds pass after the last.  Of the lookups of
    the burst, the one of the last call alone runs, once 300 ms have
    passed, and not even that one when the last query is blank: every
    call cancels the lookup scheduled before it. *)
Theorem debounce_last_call_wins (history : list Search.Input) (query : string)
    (rest : list (nat * string)) (wait : nat) :
  Forall (fun g => (fst g < 300)%nat) rest ->
  Timers.ran
    (snd (Search.steps (Search.initial, Timers.start)
            (history ++ Search.Typed query :: Search.burst rest
               ++ [Search.Elapsed wait])))
  = Timers.ran (snd (Search.steps (Search.initial, Timers.start) history))
    ++ (if (300 <=? wait)%nat && negb (JS.blank (Search.lastQuery query rest))
        then [Search.lastQuery query rest] else []).
Proof.
  intros Hgaps.
  rewrite steps_app.
  set (st := Search.steps (Search.initial, Timers.start) history).
  assert (Htr : Search.tracked st) by (apply steps_tracked, start_tracked).
  change (Search.Typed query :: Search.burst rest ++ [Search.Elapsed wait])
    with ([Search.Typed query] ++ Search.burst rest ++ [Search.Elapsed wait]).
  rewrite !steps_app.
  destruct (typed_armed query st Htr) as [Ha Hr].
  change (Search.steps st [Search.Typed query])
    with (Search.step st (Search.Typed query)).
  destruct (burst_armed rest query _ Ha Hgaps) as [Ha2 Hr2].
  change (Search.steps ?x [Search.Elapsed wait])
    with (Search.step x (Search.Elapsed wait)).
  rewrite (armed_fires _ _ wait Ha2), Hr2, Hr. reflexivity.
Qed.

(* ===================================================================== *)
(** * Submitting the form *)
(* ===================================================================== *)

Section Submit.

Import Backend CreateRouteScreen.

Context {S : Type}.
Variable h : Backend.Handler S.

Lemma trace_ask {A} (c : Call) (k : Answer c -> Backend.Prog A) (s : S) :
  trace h (bind (ask c) k) s
  = existT Answer c (fst (h c s)) :: trace h (k (fst (h c s))) (snd (h c s)).
Proof. unfold ask, call. cbn [bind]. rewrite trace_vis. reflexivity. Qed.

(** The last call of a program. *)
Ltac last_ask := unfold ask, call; rewrite trace_vis, trace_ret.

Lemma result_ask {A} (c : Call) (k : Answer c -> Backend.Prog A) (s : S) :
  result h (bind (ask c) k) s = result h (k (fst (h c s))) (snd (h c s)).
Proof. unfold ask, call. cbn [bind]. rewrite result_vis. reflexivity. Qed.

Lemma writtenRows_app (a b : list Call) :
  writtenRows (a ++ b) = writtenRows a ++ writtenRows b.
Proof.
  induction a as [| c cs IH]; [reflexivity |].
  cbn [app writtenRows]. destruct (writtenRow c); rewrite IH; reflexivity.
Qed.

Lemma rows_app (a b : list Backend.Event) : rows (a ++ b) = rows a ++ rows b.
Proof. unfold rows, calls. rewrite map_app. apply writtenRows_app. Qed.

Lemma rows_cons (c : Call) (r : Answer c) (tr : list Backend.Event) :
  rows (existT Answer c r :: tr)
  = match writtenRow c with
    | Some data => data :: rows tr
    | None => rows tr
    end.
Proof. reflexivity. Qed.

Lemma failed_rows (err : Thrown) (s : S) : rows (trace h (failed err) s) = [].
Proof.
  unfold failed. rewrite !trace_ask. last_ask. reflexivity.
Qed.

Lemma uploadEach_rows (items : list MediaItem.t) (routeId : string) :
  forall s, rows (trace h (uploadEach items routeId) s) = [].
Proof.
  induction items as [| item rest IH]; intro s; [reflexivity |].
  cbn [uploadEach]. rewrite !trace_ask, !rows_cons. cbn [writtenRow].
  destruct (fst (h (storage_upload _ _ _) _)) as [e |];
    [rewrite trace_ret; reflexivity |].
  rewrite !trace_ask, !rows_cons. cbn [writtenRow].
  destruct (fst (h (update_media_attachments _ _) _)) as [e |];
    [rewrite trace_ret; reflexivity |].
  apply IH.
Qed.

Lemma upload_rows (media : list MediaItem.t) (routeId : string) (s : S) :
  rows (trace h (uploadMediaInBackground media routeId) s) = [].
Proof.
  unfold uploadMediaInBackground. rewrite trace_bind, rows_app, uploadEach_rows.
  destruct (result h _ s) as [e |].
  - rewrite trace_ask, trace_ret. reflexivity.
  - rewrite trace_ret. reflexivity.
Qed.

Lemma afterWrite_rows (c : Closure) (route : option string) (s : S) :
  rows (trace h (afterWrite c route) s) = [].
Proof.
  unfold afterWrite. rewrite trace_bind, rows_app.
  match goal with
  | |- rows (trace h ?p s) ++ _ = _ =>
      assert (E : rows (trace h p s) = [])
  end.
  { destruct route as [id |]; [| reflexivity].
    destruct ((0 <? List.length (media (screen c)))%nat && JS.truthy (Some id));
      [| reflexivity].
    destruct (0 <? List.length (filter isNew (media (screen c))))%nat;
      [| reflexivity].
    rewrite trace_bind, rows_app, upload_rows.
    destruct (result h _ s); [last_ask |]; reflexivity. }
  rewrite E. cbn [app]. rewrite trace_ask, rows_cons. cbn [writtenRow].
  destruct (isEditing c).
  - rewrite !trace_ask, !rows_cons. cbn [writtenRow].
    destruct (fst (h previousScreen_name _)) as [message | name].
    + apply failed_rows.
    + destruct (String.eqb name "RouteDetail"); [last_ask |]; reflexivity.
  - last_ask. reflexivity.
Qed.

(** What follows the write of the row writes no further row. *)
Lemma written_then (w : Written.t) (s : S)
    (track : Call) (k : Answer track -> Backend.Prog unit) :
  writtenRow track = None ->
  (forall t s', rows (trace h (k t) s') = []) ->
  rows (trace h
          match Written.error w with
          | Some e => failed e
          | None => bind (ask track) k
          end s) = [].
Proof.
  intros Ht Hk. destruct (Written.error w) as [e |]; [apply failed_rows |].
  rewrite trace_ask, rows_cons, Ht. apply Hk.
Qed.

(** A submission that fails a precondition shows one alert and calls
    nothing else. *)
Lemma rejected_calls (c : Closure) (s : S) :
  JS.truthy (user_id c) = false
  \/ JS.blank (FormData.name (formData (screen c))) = true ->
  calls (trace h (handleCreate c) s)
  = [Alert_alert "Error"
       (if JS.truthy (user_id c) then "Please enter a route name"
        else "Please sign in to create a route")].
Proof.
  intros Hpre. unfold handleCreate.
  destruct (user_id c) as [[| a u] |]; cbn [JS.truthy] in *.
  - last_ask. reflexivity.
  - destruct Hpre as [Hpre | Hpre]; [discriminate |]. rewrite Hpre.
    last_ask. reflexivity.
  - last_ask. reflexivity.
Qed.

(** The calls of a submission in edit mode, up to the write of the row. *)
Lemma edit_calls (c : Closure) (s : S) (user id : string) :
  user_id c = Some user -> user <> EmptyString ->
  JS.blank (FormData.name (formData (screen c))) = false ->
  routeId c = Some id -> id <> EmptyString ->
  exists (stored : option (list MediaUrl.t)) (t : string) (rest : list Backend.Event),
    nth_error (trace h (handleCreate c) s) 2
    = Some (existT Answer (select_media_attachments id) stored)
    /\ calls (trace h (handleCreate c) s)
       = [ setLoading true;
           setError None;
           select_media_attachments id;
           toISOString;
           update id
             (baseRouteData user (screen c) t
                (reconcile (orEmpty stored) (media (screen c)))) ]
         ++ calls rest
    /\ rows rest = [].
Proof.
  intros Hu Hune Hname Hr Hrne. unfold handleCreate.
  rewrite Hu, Hname, Hr.
  destruct user as [| a u]; [now elim Hune |].
  destruct id as [| b i]; [now elim Hrne |].
  rewrite !trace_ask.
  eexists _, _, _. split; [reflexivity |]. split; [reflexivity |].
  apply written_then; [reflexivity |].
  intros t s'. destruct t; [apply failed_rows | apply afterWrite_rows].
Qed.

(** The same with the answers: what the read of the stored attachments
    answered is what the row written is reconciled with. *)
Lemma edit_trace (c : Closure) (s : S) (user id : string) :
  user_id c = Some user -> user <> EmptyString ->
  JS.blank (FormData.name (formData (screen c))) = false ->
  routeId c = Some id -> id <> EmptyString ->
  exists (stored : option (list MediaUrl.t)) (t : string) (w : Written.t)
         (rest : list Backend.Event),
    trace h (handleCreate c) s
    = existT Answer (setLoading true) tt
        :: existT Answer (setError None) tt
        :: existT Answer (select_media_attachments id) stored
        :: existT Answer toISOString t
        :: existT Answer
             (update id
                (baseRouteData user (screen c) t
                   (reconcile (orEmpty stored) (media (screen c))))) w
        :: rest
    /\ rows rest = [].
Proof.
  intros Hu Hune Hname Hr Hrne. unfold handleCreate.
  rewrite Hu, Hname, Hr.
  destruct user as [| a u]; [now elim Hune |].
  destruct id as [| b i]; [now elim Hrne |].
  rewrite !trace_ask.
  destruct (fst (h (setLoading true) s)).
  destruct (fst (h (setError None) (snd (h (setLoading true) s)))).
  eexists _, _, _, _. split; [reflexivity |].
  apply written_then; [reflexivity |].
  intros t s'. destruct t; [apply failed_rows | apply afterWrite_rows].
Qed.

(** The calls of a submission that creates a route, up to the write of
    the row. *)
Lemma create_calls (c : Closure) (s : S) (user : string) :
  user_id c = Some user -> user <> EmptyString ->
  JS.blank (FormData.name (formData (screen c))) = false ->
  JS.truthy (routeId c) = false ->
  exists (t created : string) (rest : list Backend.Event),
    calls (trace h (handleCreate c) s)
    = [ setLoading true;
        setError None;
        toISOString;
        toISOString;
        insert
          (baseRouteData user (screen c) t (map attachmentOf (media (screen c))))
          created ]
      ++ calls rest
    /\ rows rest = [].
Proof.
  intros Hu Hune Hname Hr. unfold handleCreate.
  rewrite Hu, Hname.
  destruct user as [| a u]; [now elim Hune |].
  assert (Hrows : forall w s0,
            rows (trace h
                    match Written.error w with
                    | Some createError => failed createError
                    | None =>
                        bind (ask (trackRouteCreate
                                     (FormData.spot_type (formData (screen c)))))
                          (fun t =>
                             match t with
                             | Some e => failed e
                             | None => afterWrite c (Written.data w)
                             end)
                    end s0) = []).
  { intros w s0. apply written_then; [reflexivity |].
    intros t s'. destruct t; [apply failed_rows | apply afterWrite_rows]. }
  destruct (routeId c) as [[| b i] |]; cbn [JS.truthy] in Hr; try discriminate;
    rewrite !trace_ask; eexists _, _, _; (split; [reflexivity | apply Hrows]).
Qed.

(** Every row a submission writes is [baseRouteData] of the form. *)
Lemma written_rows (c : Closure) (s : S) (data : RouteData.t) :
  In data (rows (trace h (handleCreate c) s)) ->
  exists user t m, data = baseRouteData user (screen c) t m.
Proof.
  destruct (JS.truthy (user_id c)) eqn:Eu.
  2:{ unfold rows. rewrite rejected_calls by auto. rewrite Eu. intros []. }
  destruct (JS.blank (FormData.name (formData (screen c)))) eqn:En.
  1:{ unfold rows. rewrite rejected_calls by auto. rewrite Eu. intros []. }
  destruct (user_id c) as [[| a u] |] eqn:Hu; try discriminate Eu.
  destruct (JS.truthy (routeId c)) eqn:Er.
  - destruct (routeId c) as [[| b i] |] eqn:Hr; try discriminate Er.
    destruct (edit_calls c s _ _ Hu ltac:(discriminate) En Hr ltac:(discriminate))
      as (stored & t & rest & _ & Hc & Hrest).
    unfold rows in *. rewrite Hc, writtenRows_app, Hrest, app_nil_r.
    intros [<- | []]. eauto.
  - destruct (create_calls c s _ Hu ltac:(discriminate) En Er)
      as (t & created & rest & Hc & Hrest).
    unfold rows in *. rewrite Hc, writtenRows_app, Hrest, app_nil_r.
    intros [<- | []]. eauto.
Qed.

End Submit.

(** Claim C5.  When no user is signed in, or the name of the route is
    blank once trimmed, [handleCreate] shows one alert and does nothing
    else: no call reaches the backend, and nothing is written. *)
Theorem submit_rejected {S : Type} (h : Backend.Handler S) (s : S)
    (c : CreateRouteScreen.Closure) :
  JS.truthy (CreateRouteScreen.user_id c) = false
  \/ JS.blank
       (Backend.FormData.name
          (CreateRouteScreen.formData (CreateRouteScreen.screen c))) = true ->
  exists message,
    calls (trace h (CreateRouteScreen.handleCreate c) s)
    = [Backend.Alert_alert "Error" message]
    /\ existsb Backend.reachesBackend
         (calls (trace h (CreateRouteScreen.handleCreate c) s)) = false
    /\ existsb Backend.writes
         (calls (trace h (CreateRouteScreen.handleCreate c) s)) = false.
Proof.
  intros Hpre. rewrite (rejected_calls h c s Hpre).
  eexists. repeat split.
Qed.

(* ===================================================================== *)
(** * The attachments of an edited route *)
(* ===================================================================== *)

Section Reconcile.

Import Backend CreateRouteScreen.

Lemma includes_In (l : list string) (x : string) :
  JS.includes l x = true <-> In x l.
Proof.
  unfold JS.includes. rewrite existsb_exists. split.
  - intros (y & Hy & E). apply String.eqb_eq in E. now subst.
  - intros H. exists x. split; [exact H | apply String.eqb_refl].
Qed.

Lemma startsWith_iff (s p : string) :
  JS.startsWith s p = true <-> exists rest, s = (p ++ rest)%string.
Proof.
  unfold JS.startsWith. revert s.
  induction p as [| a p IH]; intro s.
  - split; [intros _; now exists s | intros _; destruct s; reflexivity].
  - destruct s as [| b s]; simpl.
    + split; [discriminate | intros (rest & E); discriminate].
    + destruct (ascii_dec a b) as [<- | N].
      * rewrite IH. split; intros (rest & E); exists rest; congruence.
      * split; [discriminate | intros (rest & E); congruence].
Qed.

Lemma filter_Kept {A} (P : A -> Prop) (p : A -> bool) (l : list A) :
  (forall x, p x = true <-> P x) -> Kept P l (filter p l).
Proof.
  intros Hp. induction l as [| x l IH]; cbn [filter]; [constructor |].
  destruct (p x) eqn:E.
  - apply Kept_keep; [now apply Hp | exact IH].
  - apply Kept_drop; [| exact IH]. intro H. apply Hp in H. congruence.
Qed.

(** [reconcile] keeps the stored attachments still referenced, then adds
    the local items newly added. *)
Lemma reconcile_spec (stored : list MediaUrl.t) (media : list MediaItem.t) :
  exists kept added,
    reconcile stored media = kept ++ map attachmentOf added
    /\ Kept (stillReferenced media) stored kept
    /\ Kept (newlyAdded stored) media added.
Proof.
  unfold reconcile. eexists _, _. split; [reflexivity |]. split.
  - apply filter_Kept. intros m. apply includes_In.
  - apply filter_Kept. intros m. unfold newlyAdded.
    rewrite andb_true_iff, !negb_true_iff, <- !not_true_iff_false,
      includes_In, startsWith_iff.
    tauto.
Qed.

End Reconcile.

(** What [reconcile] yields when nothing was read back: the local items
    still to be uploaded, and no stored attachment. *)
Lemma reconcile_nothing_read (media : list MediaItem.t) :
  CreateRouteScreen.reconcile [] media
  = map (fun m =>
           MediaUrl.mk (MediaItem.type m) (MediaItem.uri m)
             (MediaItem.description m))
      (filter (fun m => negb (JS.startsWith (MediaItem.uri m) "http")) media).
Proof. reflexivity. Qed.

(** Claim C1, where the code departs from it.  The claim: the
    [media_attachments] written by a submission in edit mode are the
    stored attachments still referenced by the local media, followed by
    the local items newly added.  [handleCreate] takes the stored
    attachments from a read whose error it never looks at: when that read
    comes back without data, against any backend, the one row written
    holds the local items whose uri does not start with [http], each as
    [{type, url: uri, description}], and no stored attachment at all.
    With [a] and [b] stored and [a] and a new file local, the row written
    holds [a] and the new item when the read is answered, as the claim
    says, and the new item alone when the read fails: [a], stored and
    still referenced, is dropped. *)
Theorem edit_failed_read_drops_stored :
  (forall (S : Type) (h : Backend.Handler S) (s : S)
          (c : CreateRouteScreen.Closure) (user id : string),
      CreateRouteScreen.user_id c = Some user -> user <> EmptyString ->
      JS.blank
        (Backend.FormData.name
           (CreateRouteScreen.formData (CreateRouteScreen.screen c))) = false ->
      CreateRouteScreen.routeId c = Some id -> id <> EmptyString ->
      hd_error (Backend.reads (trace h (CreateRouteScreen.handleCreate c) s))
      = Some (id, None) ->
      exists data : Backend.RouteData.t,
        Backend.rows (trace h (CreateRouteScreen.handleCreate c) s) = [data]
        /\ Backend.RouteData.media_attachments data
           = map (fun m =>
                    MediaUrl.mk (MediaItem.type m) (MediaItem.uri m)
                      (MediaItem.description m))
               (filter (fun m => negb (JS.startsWith (MediaItem.uri m) "http"))
                  (CreateRouteScreen.media (CreateRouteScreen.screen c))))
  /\ option_map Backend.RouteData.media_attachments (Memory.row Example.stored)
     = Some [MediaUrl.mk image "http://a" None; MediaUrl.mk image "http://b" None]
  /\ map MediaItem.uri [Example.localA; Example.localNew]
     = ["http://a"; "file://new"]%string
  /\ map Backend.RouteData.media_attachments
       (Backend.rows
          (trace Memory.handler
             (CreateRouteScreen.handleCreate
                (Example.editing
                   (Example.screenWith "Evening loop" [Example.A; Example.B]
                      [Example.localA; Example.localNew])))
             Example.stored))
     = [[MediaUrl.mk image "http://a" None; MediaUrl.mk image "file://new" None]]
  /\ map Backend.RouteData.media_attachments
       (Backend.rows
          (trace Memory.unreadable
             (CreateRouteScreen.handleCreate
                (Example.editing
                   (Example.screenWith "Evening loop" [Example.A; Example.B]
                      [Example.localA; Example.localNew])))
             Example.stored))
     = [[MediaUrl.mk image "file://new" None]].
Proof.
  split; [| repeat split; vm_compute; reflexivity].
  intros S h s c user id Hu Hune Hname Hr Hrne Hread.
  destruct (edit_trace h c s user id Hu Hune Hname Hr Hrne)
    as (stored & t & w & rest & Htr & Hrest).
  rewrite Htr in Hread |- *.
  cbn [Backend.reads Backend.readOf hd_error] in Hread.
  injection Hread as ->.
  eexists. split.
  - rewrite !rows_cons. cbn [Backend.writtenRow]. rewrite Hrest. reflexivity.
  - cbn [CreateRouteScreen.baseRouteData Backend.RouteData.media_attachments
         CreateRouteScreen.orEmpty].
    apply reconcile_nothing_read.
Qed.

(** The edit of the sample route while the attachments cannot be read. *)
Lemma edit_failed_read_drops_stored_witness :
  exists data : Backend.RouteData.t,
    Backend.rows
      (trace Memory.unreadable
         (CreateRouteScreen.handleCreate
            (Example.editing
               (Example.screenWith "Evening loop" [Example.A; Example.B]
                  [Example.localA; Example.localNew])))
         Example.stored) = [data]
    /\ Backend.RouteData.media_attachments data
       = map (fun m =>
                MediaUrl.mk (MediaItem.type m) (MediaItem.uri m)
                  (MediaItem.description m))
           (filter (fun m => negb (JS.startsWith (MediaItem.uri m) "http"))
              [Example.localA; Example.localNew]).
Proof.
  apply (proj1 edit_failed_read_drops_stored Memory.Store Memory.unreadable
           Example.stored
           (Example.editing
              (Example.screenWith "Evening loop" [Example.A; Example.B]
                 [Example.localA; Example.localNew]))
           "user-1"%string "route-1"%string).
  - reflexivity.
  - discriminate.
  - vm_compute. reflexivity.
  - reflexivity.
  - discriminate.
  - vm_compute. reflexivity.
Defined.

(** Extra X30.  A submission in edit mode (a signed-in user, a name that
    is not blank, a route id) first reads the stored attachments of the
    route and writes exactly one row, with [update].  With [stored] the
    attachments that read answered with, none when it answered without
    data, the [media_attachments] of the row are the attachments of
    [stored] whose url is the uri of a local media item, in stored order,
    followed by [{type, url: uri, description}] for each local media item
    whose uri is no url of [stored] and does not start with [http], in
    local order.  With [a] and [b] read back and [a] and a new file local,
    the row keeps [a], drops [b] and holds the new item. *)
Theorem edit_reconciles_read_attachments :
  (forall (S : Type) (h : Backend.Handler S) (s : S)
          (c : CreateRouteScreen.Closure) (user id : string),
      CreateRouteScreen.user_id c = Some user -> user <> EmptyString ->
      JS.blank
        (Backend.FormData.name
           (CreateRouteScreen.formData (CreateRouteScreen.screen c))) = false ->
      CreateRouteScreen.routeId c = Some id -> id <> EmptyString ->
      exists (stored : option (list MediaUrl.t)) (data : Backend.RouteData.t)
             (kept : list MediaUrl.t) (added : list MediaItem.t),
        hd_error (Backend.reads (trace h (CreateRouteScreen.handleCreate c) s))
        = Some (id, stored)
        /\ In (Backend.update id data)
             (calls (trace h (CreateRouteScreen.handleCreate c) s))
        /\ Backend.rows (trace h (CreateRouteScreen.handleCreate c) s) = [data]
        /\ Backend.RouteData.media_attachments data
           = kept
             ++ map (fun m =>
                       MediaUrl.mk (MediaItem.type m) (MediaItem.uri m)
                         (MediaItem.description m))
                  added
        /\ CreateRouteScreen.Kept
             (CreateRouteScreen.stillReferenced
                (CreateRouteScreen.media (CreateRouteScreen.screen c)))
             (CreateRouteScreen.orEmpty stored) kept
        /\ CreateRouteScreen.Kept
             (CreateRouteScreen.newlyAdded (CreateRouteScreen.orEmpty stored))
             (CreateRouteScreen.media (CreateRouteScreen.screen c)) added)
  /\ Backend.reads
       (firstn 3
          (trace Memory.handler
             (CreateRouteScreen.handleCreate
                (Example.editing
                   (Example.screenWith "Evening loop" [Example.A; Example.B]
                      [Example.localA; Example.localNew])))
             Example.stored))
     = [("route-1"%string,
         Some [MediaUrl.mk image "http://a" None; MediaUrl.mk image "http://b" None])]
  /\ map Backend.RouteData.media_attachments
       (Backend.rows
          (trace Memory.handler
             (CreateRouteScreen.handleCreate
                (Example.editing
                   (Example.screenWith "Evening loop" [Example.A; Example.B]
                      [Example.localA; Example.localNew])))
             Example.stored))
     = [[MediaUrl.mk image "http://a" None; MediaUrl.mk image "file://new" None]].
Proof.
  split; [| split; vm_compute; reflexivity].
  intros S h s c user id Hu Hune Hname Hr Hrne.
  destruct (edit_trace h c s user id Hu Hune Hname Hr Hrne)
    as (stored & t & w & rest & Htr & Hrest).
  destruct (reconcile_spec (CreateRouteScreen.orEmpty stored)
              (CreateRouteScreen.media (CreateRouteScreen.screen c)))
    as (kept & added & Hrec & Hkept & Hadded).
  exists stored. eexists. exists kept, added.
  rewrite Htr.
  split; [reflexivity |]. split; [| split; [| split; [| split]]].
  - unfold calls. cbn [map projT1]. do 4 right. left. reflexivity.
  - rewrite !rows_cons. cbn [Backend.writtenRow]. rewrite Hrest. reflexivity.
  - exact Hrec.
  - exact Hkept.
  - exact Hadded.
Qed.

(** The edit of the sample route. *)
Lemma edit_reconciles_read_attachments_witness :
  exists (stored : option (list MediaUrl.t)) (data : Backend.RouteData.t)
         (kept : list MediaUrl.t) (added : list MediaItem.t),
    hd_error
      (Backend.reads
         (trace Memory.handler
            (CreateRouteScreen.handleCreate
               (Example.editing
                  (Example.screenWith "Evening loop" [Example.A; Example.B]
                     [Example.localA; Example.localNew])))
            Example.stored))
    = Some ("route-1"%string, stored)
    /\ In (Backend.update "route-1" data)
         (calls
            (trace Memory.handler
               (CreateRouteScreen.handleCreate
                  (Example.editing
                     (Example.screenWith "Evening loop" [Example.A; Example.B]
                        [Example.localA; Example.localNew])))
               Example.stored))
    /\ Backend.rows
         (trace Memory.handler
            (CreateRouteScreen.handleCreate
               (Example.editing
                  (Example.screenWith "Evening loop" [Example.A; Example.B]
                     [Example.localA; Example.localNew])))
            Example.stored) = [data]
    /\ Backend.RouteData.media_attachments data
       = kept
         ++ map (fun m =>
                   MediaUrl.mk (MediaItem.type m) (MediaItem.uri m)
                     (MediaItem.description m))
              added
    /\ CreateRouteScreen.Kept
         (CreateRouteScreen.stillReferenced [Example.localA; Example.localNew])
         (CreateRouteScreen.orEmpty stored) kept
    /\ CreateRouteScreen.Kept
         (CreateRouteScreen.newlyAdded (CreateRouteScreen.orEmpty stored))
         [Example.localA; Example.localNew] added.
Proof.
  apply (proj1 edit_reconciles_read_attachments Memory.Store Memory.handler
           Example.stored
           (Example.editing
              (Example.screenWith "Evening loop" [Example.A; Example.B]
                 [Example.localA; Example.localNew]))
           "user-1"%string "route-1"%string).
  - reflexivity.
  - discriminate.
  - vm_compute. reflexivity.
  - reflexivity.
  - discriminate.
Defined.

(* ===================================================================== *)
(** * Saving and loading the waypoints *)
(* ===================================================================== *)

Section RoundTrip.

Import Backend CreateRouteScreen.

Lemma length_mapi_from {A B} (f : A -> nat -> B) (l : list A) :
  forall k, List.length (JS.mapi_from k f l) = List.length l.
Proof.
  induction l as [| x l IH]; intro k; cbn [JS.mapi_from List.length];
    [reflexivity | now rewrite IH].
Qed.

Lemma nth_error_mapi_from {A B} (f : A -> nat -> B) (l : list A) :
  forall k i,
    nth_error (JS.mapi_from k f l) i
    = option_map (fun x => f x (k + i)%nat) (nth_error l i).
Proof.
  induction l as [| x l IH]; intros k i; cbn [JS.mapi_from].
  - destruct i; reflexivity.
  - destruct i as [| i]; cbn [nth_error option_map].
    + now rewrite Nat.add_0_r.
    + rewrite IH. now rewrite Nat.add_succ_comm.
Qed.

(** What the projection and its reading back make of the waypoint at
    position [i]. *)
Lemma reload_nth (ws : list Waypoint.t) (i : nat) (wp : Waypoint.t) :
  nth_error ws i = Some wp ->
  nth_error (waypointsOf (waypointDetails ws)) i
  = Some (Waypoint.mk (Waypoint.latitude wp) (Waypoint.longitude wp)
            (if JS.truthy (Some (Waypoint.title wp)) then Waypoint.title wp
             else waypointLabel (i + 1))
            (Waypoint.description wp)).
Proof.
  intros H. unfold waypointsOf, waypointDetails, JS.mapi.
  rewrite nth_error_map, nth_error_mapi_from, H. reflexivity.
Qed.

Lemma reload_length (ws : list Waypoint.t) :
  List.length (waypointsOf (waypointDetails ws)) = List.length ws.
Proof.
  unfold waypointsOf, waypointDetails, JS.mapi.
  now rewrite length_map, length_mapi_from.
Qed.

(** The waypoints of the form after [loadRouteData] has set it. *)
Lemma loaded_waypoints (route : Row.t) (items : option (list MediaItem.t))
    (s : Screen) :
  waypoints (loaded route items s)
  = match Row.waypoint_details route with
    | Some details => waypointsOf details
    | None => waypoints s
    end.
Proof.
  unfold loaded.
  destruct (Row.waypoint_details route) as [details |];
    [destruct (waypointsOf details) |];
    destruct (Row.exercises route), items; reflexivity.
Qed.

Context {S : Type}.
Variable h : Backend.Handler S.

Lemma load_waypoints (id : string) (s : S) (route : Row.t) (scr : Screen) :
  Selected.error (fst (h (select_all id) s)) = None ->
  Selected.data (fst (h (select_all id) s)) = Some route ->
  waypoints (result h (loadRouteData id) s scr)
  = match Row.waypoint_details route with
    | Some details => waypointsOf details
    | None => waypoints scr
    end.
Proof.
  intros He Hd. unfold loadRouteData. rewrite result_ask, He, Hd.
  destruct (Row.media_attachments route) as [attachments |].
  - rewrite result_bind, result_ret. apply loaded_waypoints.
  - rewrite result_ret. apply loaded_waypoints.
Qed.

End RoundTrip.

(** Claim C6, as amended.  The row a submission writes holds the
    projection of the waypoints in both [waypoint_details] and
    [metadata.waypoints]; loading a row with these [waypoint_details]
    gives as many waypoints as were saved, in the same order, each with
    the coordinates and the description it had, and with the title it had
    when that was not empty.  A waypoint saved with an empty title comes
    back titled [Waypoint N], [N] its position counted from one. *)
Theorem waypoints_round_trip {S S' : Type}
    (h : Backend.Handler S) (s : S) (c : CreateRouteScreen.Closure)
    (data : Backend.RouteData.t)
    (h' : Backend.Handler S') (s' : S') (id : string) (route : Backend.Row.t)
    (scr : CreateRouteScreen.Screen) :
  In data (Backend.rows (trace h (CreateRouteScreen.handleCreate c) s)) ->
  Backend.Selected.error (fst (h' (Backend.select_all id) s')) = None ->
  Backend.Selected.data (fst (h' (Backend.select_all id) s')) = Some route ->
  Backend.Row.waypoint_details route
  = Some (Backend.RouteData.waypoint_details data) ->
  Backend.Metadata.waypoints (Backend.RouteData.metadata data)
  = Backend.RouteData.waypoint_details data
  /\ List.length
       (CreateRouteScreen.waypoints
          (result h' (CreateRouteScreen.loadRouteData id) s' scr))
     = List.length (CreateRouteScreen.waypoints (CreateRouteScreen.screen c))
  /\ forall i wp,
       nth_error (CreateRouteScreen.waypoints (CreateRouteScreen.screen c)) i
       = Some wp ->
       nth_error
         (CreateRouteScreen.waypoints
            (result h' (CreateRouteScreen.loadRouteData id) s' scr)) i
       = Some (Waypoint.mk (Waypoint.latitude wp) (Waypoint.longitude wp)
                 (match Waypoint.title wp with
                  | EmptyString => ("Waypoint " ++ JS.decimal (i + 1))%string
                  | title => title
                  end)
                 (Waypoint.description wp)).
Proof.
  intros Hin He Hd Hw.
  destruct (written_rows h c s data Hin) as (user & t & m & ->).
  rewrite (load_waypoints h' id s' route scr He Hd), Hw.
  cbn [Backend.RouteData.waypoint_details Backend.RouteData.metadata
         Backend.Metadata.waypoints CreateRouteScreen.baseRouteData].
  split; [reflexivity |]. split; [apply reload_length |].
  intros i wp Hwp. rewrite (reload_nth _ i wp Hwp).
  destruct (Waypoint.title wp); reflexivity.
Qed.

(** Creating the route with the waypoints [A] and [B] and loading it. *)
Lemma waypoints_round_trip_witness :
  Backend.Metadata.waypoints
    (Backend.RouteData.metadata
       (CreateRouteScreen.baseRouteData "user-1"
          (Example.screenWith "Evening loop" [Example.A; Example.B] [])
          "2024-05-01T10:00:00.000Z" []))
  = Backend.RouteData.waypoint_details
      (CreateRouteScreen.baseRouteData "user-1"
         (Example.screenWith "Evening loop" [Example.A; Example.B] [])
         "2024-05-01T10:00:00.000Z" [])
  /\ List.length
       (CreateRouteScreen.waypoints
          (result Memory.handler (CreateRouteScreen.loadRouteData "route-1")
             (final Memory.handler
                (CreateRouteScreen.handleCreate
                   (Example.creating
                      (Example.screenWith "Evening loop" [Example.A; Example.B] [])))
                Example.empty)
             CreateRouteScreen.initial))
     = 2%nat
  /\ forall i wp,
       nth_error [Example.A; Example.B] i = Some wp ->
       nth_error
         (CreateRouteScreen.waypoints
            (result Memory.handler (CreateRouteScreen.loadRouteData "route-1")
               (final Memory.handler
                  (CreateRouteScreen.handleCreate
                     (Example.creating
                        (Example.screenWith "Evening loop" [Example.A; Example.B] [])))
                  Example.empty)
               CreateRouteScreen.initial)) i
       = Some (Waypoint.mk (Waypoint.latitude wp) (Waypoint.longitude wp)
                 (match Waypoint.title wp with
                  | EmptyString => ("Waypoint " ++ JS.decimal (i + 1))%string
                  | title => title
                  end)
                 (Waypoint.description wp)).
Proof.
  apply (waypoints_round_trip Memory.handler Example.empty
           (Example.creating
              (Example.screenWith "Evening loop" [Example.A; Example.B] []))
           (CreateRouteScreen.baseRouteData "user-1"
              (Example.screenWith "Evening loop" [Example.A; Example.B] [])
              "2024-05-01T10:00:00.000Z" [])
           Memory.handler
           (final Memory.handler
              (CreateRouteScreen.handleCreate
                 (Example.creating
                    (Example.screenWith "Evening loop" [Example.A; Example.B] [])))
              Example.empty)
           "route-1"%string
           (Memory.rowOf
              (CreateRouteScreen.baseRouteData "user-1"
                 (Example.screenWith "Evening loop" [Example.A; Example.B] [])
                 "2024-05-01T10:00:00.000Z" []))
           CreateRouteScreen.initial).
  - vm_compute. left. reflexivity.
  - vm_compute. reflexivity.
  - vm_compute. reflexivity.
  - vm_compute. reflexivity.
Defined.

(** Claim C6 as stated fails: a route created with one waypoint whose
    title is empty comes back with the title [Waypoint 1]. *)
Lemma untitled_waypoint_reloads_labelled :
  map Waypoint.title
    (CreateRouteScreen.waypoints
       (CreateRouteScreen.screen
          (Example.creating
             (Example.screenWith "Evening loop" [Example.untitled] []))))
  = [EmptyString]
  /\ map Waypoint.title
       (CreateRouteScreen.waypoints
          (result Memory.handler (CreateRouteScreen.loadRouteData "route-1")
             (final Memory.handler
                (CreateRouteScreen.handleCreate
                   (Example.creating
                      (Example.screenWith "Evening loop" [Example.untitled] [])))
                Example.empty)
             CreateRouteScreen.initial))
     = ["Waypoint 1"%string].
Proof. split; vm_compute; reflexivity. Qed.

(* ===================================================================== *)
(** * Adding a waypoint *)
(* ===================================================================== *)

Section Additions.

Import Location CreateRouteScreen.

Context {S : Type}.
Variable h : Location.Handler S.

Lemma result_reverse {A} (c : Coords) (k : option (list Address) -> Location.Prog A)
    (e : S) :
  result h (bind (reverseGeocode c) k) e
  = result h (k (fst (h (reverseGeocodeAsync c) e)))
      (snd (h (reverseGeocodeAsync c) e)).
Proof. unfold reverseGeocode, call. cbn [bind]. rewrite result_vis. reflexivity. Qed.

Lemma result_position {A} (k : option Coords -> Location.Prog A) (e : S) :
  result h (bind getCurrentPosition k) e
  = result h (k (fst (h getCurrentPositionAsync e)))
      (snd (h getCurrentPositionAsync e)).
Proof. unfold getCurrentPosition, call. cbn [bind]. rewrite result_vis. reflexivity. Qed.

Lemma trace_reverse {A} (c : Coords) (k : option (list Address) -> Location.Prog A)
    (e : S) :
  calls (trace h (bind (reverseGeocode c) k) e)
  = reverseGeocodeAsync c
      :: calls (trace h (k (fst (h (reverseGeocodeAsync c) e)))
                  (snd (h (reverseGeocodeAsync c) e))).
Proof. unfold reverseGeocode, call. cbn [bind]. rewrite trace_vis. reflexivity. Qed.

(** [handleMapPress] adds a waypoint, whatever reverse geocoding
    answers. *)
Lemma tap_adds (s : Screen) (lat lng : Q) (e : S) :
  waypoints (add h e (mapTap (mkCoords lat lng)) s)
  = waypoints s
    ++ [Waypoint.mk lat lng
          match fst (h (reverseGeocodeAsync (mkCoords lat lng)) e) with
          | Some (address :: _) =>
              titleOf (street address) (city address) (country address)
          | Some [] | None => waypointLabel (List.length (waypoints s) + 1)
          end
          "Tapped location"]
  /\ calls (trace h (handleMapPress s (mkCoords lat lng)) e)
     = [reverseGeocodeAsync (mkCoords lat lng)].
Proof.
  unfold add, handleMapPress. cbn [latitude longitude].
  rewrite result_reverse, trace_reverse.
  destruct (fst (h (reverseGeocodeAsync (mkCoords lat lng)) e)) as [[| a l] |];
    rewrite result_ret, trace_ret; split; reflexivity.
Qed.

(** Locating the device adds a waypoint only when both the position and
    its reverse geocoding are answered. *)
Lemma locate_adds (s : Screen) (e : S) :
  match fst (h getCurrentPositionAsync e) with
  | None =>
      waypoints (add h e deviceLocation s) = waypoints s
      /\ alerts (result h handleLocateMe e) = [locateAlert]
  | Some position =>
      match fst (h (reverseGeocodeAsync
                      (mkCoords (latitude position) (longitude position)))
                   (snd (h getCurrentPositionAsync e))) with
      | None =>
          waypoints (add h e deviceLocation s) = waypoints s
          /\ alerts (result h handleLocateMe e) = [locateAlert]
      | Some addresses =>
          waypoints (add h e deviceLocation s)
          = waypoints s
            ++ [Waypoint.mk (latitude position) (longitude position)
                  match
                    match addresses with
                    | address :: _ =>
                        titleOf (street address) (city address) (country address)
                    | [] => EmptyString
                    end
                  with
                  | EmptyString => "Current Location"%string
                  | title => title
                  end
                  "Current location"]
          /\ alerts (result h handleLocateMe e) = []
      end
  end.
Proof.
  unfold add, handleLocateMe. rewrite result_position.
  destruct (fst (h getCurrentPositionAsync e)) as [position |];
    [| rewrite result_ret; split; reflexivity].
  rewrite result_reverse.
  destruct (fst (h (reverseGeocodeAsync _) _)) as [addresses |];
    rewrite result_ret; [| split; reflexivity].
  split; [| reflexivity].
  cbn [apply waypoints setRegion setWaypoints setSearchQuery blur].
  destruct addresses as [| address l].
  - reflexivity.
  - destruct (titleOf _ _ _); reflexivity.
Qed.

End Additions.

(** A selection adds the waypoint of the result, without a call. *)
Lemma selection_adds (s : CreateRouteScreen.Screen) (r : Search.SearchResult)
    (c : Location.Coords) :
  Search.coords r = Some c ->
  CreateRouteScreen.waypoints (CreateRouteScreen.handleLocationSelect r s)
  = CreateRouteScreen.waypoints s
    ++ [Waypoint.mk (Location.latitude c) (Location.longitude c)
          (CreateRouteScreen.titleOf (Search.street r) (Search.city r)
             (Search.country r))
          "Searched location"].
Proof.
  intros H. unfold CreateRouteScreen.handleLocationSelect. rewrite H. reflexivity.
Qed.

(** Claim C7, as amended.  The form renders its map with
    [handleMapPressWrapper], whose body is empty: a tap on the map issues
    no call and changes nothing.  [handleMapPress], which nothing calls,
    reverse-geocodes the point it is given and appends a waypoint titled
    with the street, city and country of the first address, those present
    joined by [", "]; when no address comes back or the call fails, the
    title is [Waypoint N], [N] one more than the waypoints of the render.
    The button [Locate Me] runs [handleLocateMe], which appends a waypoint
    titled the same way, or [Current Location] when the title would be
    empty; when the position or its reverse geocoding fails it appends
    nothing and shows an alert.  A row of the result list runs
    [handleLocationSelect], which appends a waypoint titled with the parts
    of the result, without a call. *)
Theorem waypoint_additions {S : Type} (h : Location.Handler S) (e : S)
    (s : CreateRouteScreen.Screen) :
  (forall coordinate,
      trace h (CreateRouteScreen.onPress (CreateRouteScreen.mapPress coordinate)) e
      = []
      /\ forall prev,
           CreateRouteScreen.apply
             (result h
                (CreateRouteScreen.onPress (CreateRouteScreen.mapPress coordinate))
                e) prev
           = prev)
  /\ (forall lat lng,
        calls (trace h
                 (CreateRouteScreen.handleMapPress s (Location.mkCoords lat lng)) e)
        = [Location.reverseGeocodeAsync (Location.mkCoords lat lng)]
        /\ CreateRouteScreen.waypoints
             (CreateRouteScreen.apply
                (result h
                   (CreateRouteScreen.handleMapPress s (Location.mkCoords lat lng))
                   e) s)
           = CreateRouteScreen.waypoints s
             ++ [Waypoint.mk lat lng
                   match fst (h (Location.reverseGeocodeAsync
                                   (Location.mkCoords lat lng)) e) with
                   | Some (address :: _) =>
                       JS.join ", "
                         (JS.filterBoolean
                            [Location.street address; Location.city address;
                             Location.country address])
                   | Some [] | None =>
                       ("Waypoint "
                        ++ JS.decimal
                             (List.length (CreateRouteScreen.waypoints s) + 1))%string
                   end
                   "Tapped location"])
  /\ match fst (h Location.getCurrentPositionAsync e) with
     | None =>
         CreateRouteScreen.waypoints
           (CreateRouteScreen.apply
              (result h (CreateRouteScreen.onPress CreateRouteScreen.locateMePress) e)
              s)
         = CreateRouteScreen.waypoints s
         /\ CreateRouteScreen.alerts
              (result h (CreateRouteScreen.onPress CreateRouteScreen.locateMePress) e)
            = [CreateRouteScreen.locateAlert]
     | Some position =>
         match fst (h (Location.reverseGeocodeAsync
                         (Location.mkCoords (Location.latitude position)
                            (Location.longitude position)))
                      (snd (h Location.getCurrentPositionAsync e))) with
         | None =>
             CreateRouteScreen.waypoints
               (CreateRouteScreen.apply
                  (result h
                     (CreateRouteScreen.onPress CreateRouteScreen.locateMePress) e)
                  s)
             = CreateRouteScreen.waypoints s
             /\ CreateRouteScreen.alerts
                  (result h
                     (CreateRouteScreen.onPress CreateRouteScreen.locateMePress) e)
                = [CreateRouteScreen.locateAlert]
         | Some addresses =>
             CreateRouteScreen.waypoints
               (CreateRouteScreen.apply
                  (result h
                     (CreateRouteScreen.onPress CreateRouteScreen.locateMePress) e)
                  s)
             = CreateRouteScreen.waypoints s
               ++ [Waypoint.mk (Location.latitude position)
                     (Location.longitude position)
                     match
                       match addresses with
                       | address :: _ =>
                           JS.join ", "
                             (JS.filterBoolean
                                [Location.street address; Location.city address;
                                 Location.country address])
                       | [] => EmptyString
                       end
                     with
                     | EmptyString => "Current Location"%string
                     | title => title
                     end
                     "Current location"]
             /\ CreateRouteScreen.alerts
                  (result h
                     (CreateRouteScreen.onPress CreateRouteScreen.locateMePress) e)
                = []
         end
     end
  /\ (forall r,
        trace h (CreateRouteScreen.onPress (CreateRouteScreen.resultPress r)) e = []
        /\ CreateRouteScreen.waypoints
             (CreateRouteScreen.apply
                (result h (CreateRouteScreen.onPress (CreateRouteScreen.resultPress r))
                   e) s)
           = match Search.coords r with
             | Some c =>
                 CreateRouteScreen.waypoints s
                 ++ [Waypoint.mk (Location.latitude c) (Location.longitude c)
                       (JS.join ", "
                          (JS.filterBoolean
                             [Search.street r; Search.city r; Search.country r]))
                       "Searched location"]
             | None => CreateRouteScreen.waypoints s
             end)
  /\ JS.join ", " (JS.filterBoolean [Some "Storgatan 1"; None; Some "Sweden"])
     = "Storgatan 1, Sweden"%string.
Proof.
  split; [| split; [| split; [| split]]].
  - intros coordinate. split; [reflexivity | intros prev; reflexivity].
  - intros lat lng. destruct (tap_adds h s lat lng e) as [Hw Hc].
    split; [exact Hc | exact Hw].
  - exact (locate_adds h s e).
  - intros r. split; [reflexivity |].
    cbn [CreateRouteScreen.onPress]. rewrite result_ret.
    cbn [CreateRouteScreen.apply].
    destruct (Search.coords r) as [c |] eqn:E.
    + now apply selection_adds.
    + unfold CreateRouteScreen.handleLocationSelect. now rewrite E.
  - reflexivity.
Qed.

(** Claim C7 as stated fails: when reverse geocoding fails after the
    device was located, no waypoint is added. *)
Lemma locate_failure_adds_no_waypoint :
  CreateRouteScreen.waypoints
    (CreateRouteScreen.add Scripted.handler
       (Scripted.mkScript [] [None] (Some Example.lund))
       CreateRouteScreen.deviceLocation CreateRouteScreen.initial)
  = []
  /\ CreateRouteScreen.alerts
       (result Scripted.handler CreateRouteScreen.handleLocateMe
          (Scripted.mkScript [] [None] (Some Example.lund)))
     = [CreateRouteScreen.locateAlert].
Proof. split; reflexivity. Qed.

(* ===================================================================== *)
(** * The properties at sample inputs *)
(* ===================================================================== *)

(** Claim C3 as stated fails: two hits that agree to within [1e-9]
    without being equal are both shown. *)
Lemma hits_within_tolerance_both_shown :
  Search.agree Example.lund Example.nearLund
  /\ result Scripted.handler (Search.lookup "Lund") Example.nearScript
     = Search.Found
         [Search.withCoords [Example.storgatan] Example.lund;
          Search.withCoords [Example.storgatan] Example.nearLund].
Proof.
  split; [| vm_compute; reflexivity].
  split; unfold Qle; vm_compute; discriminate.
Qed.

(** A lookup that finds nothing while results are shown. *)
Lemma empty_lookup_keeps_results_witness :
  Search.settle
    (result Scripted.handler (Search.lookup "Atlantis") Example.silent)
    Example.showing
  = Example.showing
  /\ (forall loop,
        Search.searchResults
          (fst (Search.handleSearch "Atlantis" Example.showing loop))
        = Search.searchResults Example.showing
        /\ Search.showSearchResults
             (fst (Search.handleSearch "Atlantis" Example.showing loop))
           = Search.showSearchResults Example.showing)
  /\ (forall q out,
        result Scripted.handler (Search.lookup q) Example.silent
        = Search.Found out -> out <> [])
  /\ (forall q loop, JS.blank q = true ->
        Search.searchResults (fst (Search.handleSearch q Example.showing loop)) = []
        /\ Search.showSearchResults
             (fst (Search.handleSearch q Example.showing loop)) = false).
Proof.
  apply (empty_lookup_keeps_results Scripted.handler Example.silent "Atlantis"
           Example.showing).
  - vm_compute. reflexivity.
  - vm_compute. repeat constructor.
Defined.

(** Typing [L], [Lu], [Lun], [Lund] in quick succession. *)
Lemma debounce_last_call_wins_witness :
  Timers.ran
    (snd (Search.steps (Search.initial, Timers.start)
            ([Search.Typed "Malm"; Search.Elapsed 1000]
               ++ Search.Typed "L"
                    :: Search.burst [(120, "Lu"); (90, "Lun"); (299, "Lund")]%nat
               ++ [Search.Elapsed 300])))
  = Timers.ran
      (snd (Search.steps (Search.initial, Timers.start)
              [Search.Typed "Malm"; Search.Elapsed 1000]))
    ++ (if (300 <=? 300)%nat
           && negb (JS.blank
                      (Search.lastQuery "L"
                         [(120, "Lu"); (90, "Lun"); (299, "Lund")]%nat))
        then [Search.lastQuery "L" [(120, "Lu"); (90, "Lun"); (299, "Lund")]%nat]
        else []).
Proof.
  apply (debounce_last_call_wins [Search.Typed "Malm"; Search.Elapsed 1000]
           "L" [(120, "Lu"); (90, "Lun"); (299, "Lund")]%nat 300).
  repeat constructor; cbn [fst]; lia.
Defined.

(** A submission with a blank name. *)
Lemma submit_rejected_witness :
  exists message,
    calls
      (trace Memory.handler
         (CreateRouteScreen.handleCreate
            (CreateRouteScreen.mkClosure (Some "user-1") None
               (Example.screenWith "   " [Example.A; Example.B] [])))
         Example.stored)
    = [Backend.Alert_alert "Error" message]
    /\ existsb Backend.reachesBackend
         (calls
            (trace Memory.handler
               (CreateRouteScreen.handleCreate
                  (CreateRouteScreen.mkClosure (Some "user-1") None
                     (Example.screenWith "   " [Example.A; Example.B] [])))
               Example.stored)) = false
    /\ existsb Backend.writes
         (calls
            (trace Memory.handler
               (CreateRouteScreen.handleCreate
                  (CreateRouteScreen.mkClosure (Some "user-1") None
                     (Example.screenWith "   " [Example.A; Example.B] [])))
               Example.stored)) = false.
Proof.
  apply (submit_rejected Memory.handler Example.stored
           (CreateRouteScreen.mkClosure (Some "user-1") None
              (Example.screenWith "   " [Example.A; Example.B] []))).
  right. vm_compute. reflexivity.
Defined.

(* ===================================================================== *)
(** * The panel under any sequence of events *)
(* ===================================================================== *)

Section Sheet.

Import Panel MapSheet.

Variable sp : SnapPoints.
Hypothesis positions_ordered : expanded sp <= mid sp /\ mid sp <= collapsed sp.

Lemma rest_in_range (x : Q) :
  restPosition sp x -> expanded sp <= x <= collapsed sp.
Proof.
  destruct positions_ordered as [H1 H2].
  intros [-> | [-> | ->]]; split; lra.
Qed.

Lemma closer_picks (p prev curr : Q) :
  closer p prev curr = prev \/ closer p prev curr = curr.
Proof. unfold closer. destruct (JS.lt _ _); auto. Qed.

Lemma target_rests (v p : Q) : restPosition sp (targetSnapPoint sp v p).
Proof.
  unfold targetSnapPoint, restPosition, JS.reduce.
  destruct (JS.lt v (-500)); [auto |].
  destruct (JS.gt v 500); [auto |].
  cbn [fold_left].
  destruct (closer_picks p (collapsed sp) (mid sp)) as [-> | ->];
    match goal with
    | |- context [closer p ?a ?b] =>
        destruct (closer_picks p a b) as [-> | ->]
    end; auto.
Qed.

Lemma snapTo_settled (x : Q) (s : Sheet) :
  restPosition sp x -> settled sp (snapTo x s).
Proof. intros H. split; [exact H | now apply rest_in_range]. Qed.

Lemma gesture_settled (ev : NativeEvent) (s : Sheet) :
  settled sp s -> settled sp (onGestureEvent sp ev s).
Proof.
  intros [Hr _]. split; [exact Hr |].
  unfold onGestureEvent. cbn [translateY].
  destruct positions_ordered as [H1 H2].
  split; [apply max_ge_l |].
  destruct (max_pick (expanded sp)
              (JS.min (collapsed sp) (lastGesture s + translationY ev)))
    as [-> | ->]; [lra | apply min_le_l].
Qed.

Lemma change_settled (ev : NativeEvent) (s : Sheet) :
  settled sp s -> settled sp (onHandleStateChange sp ev s).
Proof.
  intros H. unfold onHandleStateChange.
  destruct (State_eqb (state ev) END); [| exact H].
  apply snapTo_settled, target_rests.
Qed.

Lemma scroll_settled (y : Q) (s : Sheet) :
  settled sp s -> settled sp (handleScroll sp y s).
Proof.
  intros H. unfold handleScroll.
  destruct (isDragging s); [exact H |].
  assert (H1 : settled sp
                 (if JS.gt y 0 && JS.eq (currentSnapPoint s) (collapsed sp)
                  then snapTo (mid sp)
                         (mkSheet (currentSnapPoint s) (translateY s)
                            (lastGesture s) y false)
                  else mkSheet (currentSnapPoint s) (translateY s)
                         (lastGesture s) y false)).
  { destruct (JS.gt y 0 && JS.eq (currentSnapPoint s) (collapsed sp)).
    - apply snapTo_settled. unfold restPosition. auto.
    - exact H. }
  destruct (JS.eq y 0 && negb (JS.eq (currentSnapPoint s) (collapsed sp)));
    [| exact H1].
  apply snapTo_settled. unfold restPosition. auto.
Qed.

Lemma setValue_settled (s : Sheet) :
  settled sp s -> settled sp (setValue (collapsed sp) s).
Proof.
  intros [Hr _]. split; [exact Hr |]. cbn [setValue translateY].
  destruct positions_ordered. split; lra.
Qed.

Lemma step_settled (scr : Screen) (i : Input) :
  settled sp (sheet scr) -> settled sp (sheet (step sp scr i)).
Proof.
  intros H. destruct i; cbn [step sheet].
  - now apply gesture_settled.
  - now apply change_settled.
  - now apply scroll_settled.
  - now apply setValue_settled.
  - unfold handleMapPress. destruct (selectedRoute scr); [| exact H].
    now apply setValue_settled.
Qed.

Lemma run_settled (inputs : list Input) :
  forall scr, settled sp (sheet scr) -> settled sp (sheet (run sp scr inputs)).
Proof.
  induction inputs as [| i inputs IH]; intros scr H; [exact H |].
  apply IH, step_settled, H.
Qed.

Lemma initial_settled : settled sp (sheet (MapSheet.initial sp)).
Proof.
  split; [left; reflexivity |]. cbn [MapSheet.initial sheet Panel.initial translateY].
  destruct positions_ordered. split; lra.
Qed.

End Sheet.

(** Extra X1.  Whatever drags, releases, scrolls, marker presses and map
    presses reach the map screen, in whatever order, the panel counts one
    of [collapsed], [mid], [expanded] as its snap point, and the offset it
    shows lies between [expanded] and [collapsed]. *)
Theorem panel_stays_settled (screenHeight : Q) (inputs : list MapSheet.Input) :
  0 <= screenHeight ->
  MapSheet.settled (Panel.snapPoints screenHeight)
    (MapSheet.sheet
       (MapSheet.run (Panel.snapPoints screenHeight)
          (MapSheet.initial (Panel.snapPoints screenHeight)) inputs)).
Proof.
  intros Hh.
  assert (Ho : Panel.expanded (Panel.snapPoints screenHeight)
               <= Panel.mid (Panel.snapPoints screenHeight)
               /\ Panel.mid (Panel.snapPoints screenHeight)
                  <= Panel.collapsed (Panel.snapPoints screenHeight)).
  { unfold Panel.snapPoints. cbn [Panel.expanded Panel.mid Panel.collapsed].
    split; lra. }
  apply run_settled; [exact Ho |]. apply initial_settled. exact Ho.
Qed.

(** A drag up, a fling, a scroll and a press on a marker, on a window 800
    high. *)
Lemma panel_stays_settled_witness :
  MapSheet.settled (Panel.snapPoints 800)
    (MapSheet.sheet
       (MapSheet.run (Panel.snapPoints 800)
          (MapSheet.initial (Panel.snapPoints 800))
          [ MapSheet.Gesture (Panel.mkNativeEvent Panel.ACTIVE (-900) (-40));
            MapSheet.StateChange (Panel.mkNativeEvent Panel.END (-900) (-700));
            MapSheet.Scrolled 12;
            MapSheet.MarkerPressed (MapScreen.Route.mk None None);
            MapSheet.MapPressed ])).
Proof.
  apply (panel_stays_settled 800). discriminate.
Defined.

Section Origin.

Import Panel MapSheet.

Variable sp : SnapPoints.




End Origin.


(** The two tests of [handleScroll]. *)
Lemma gt_zero (y : Q) : JS.gt y 0 = true <-> 0 < y.
Proof. unfold JS.gt. apply lt_true. Qed.

Lemma eq_zero (y : Q) : JS.eq y 0 = true <-> y == 0.
Proof. unfold JS.eq. apply Qeq_bool_iff. Qed.

Lemma bool_iff_false (b : bool) (P : Prop) : (b = true <-> P) -> ~ P -> b = false.
Proof. intros H N. destruct b; [elim N; now apply H | reflexivity]. Qed.

(** Extra X3.  A scroll of the list does nothing to the panel while a
    drag is going on.  Otherwise it records the offset [y] of the list,
    and: with [y > 0] a panel that counts [collapsed] as its snap point
    snaps to [mid], and any other panel stays where it is; with [y = 0] a
    panel that does not count [collapsed] as its snap point snaps to
    [collapsed], and a collapsed one stays where it is; with [y < 0] the
    panel stays where it is.  So, [mid] and [collapsed] being different
    positions and [y] not negative, the panel counts [collapsed] as its
    snap point after the scroll exactly when the list is at its top. *)
Theorem scroll_collapses_at_top (sp : Panel.SnapPoints) (y : Q) (s : Panel.Sheet) :
  let s' := Panel.handleScroll sp y s in
  let stays :=
    Panel.mkSheet (Panel.currentSnapPoint s) (Panel.translateY s)
      (Panel.lastGesture s) y false in
  (Panel.isDragging s = true -> s' = s)
  /\ (Panel.isDragging s = false ->
      (0 < y -> Panel.currentSnapPoint s == Panel.collapsed sp ->
       s' = Panel.mkSheet (Panel.mid sp) (Panel.mid sp) (Panel.lastGesture s) y false)
      /\ (0 < y -> ~ Panel.currentSnapPoint s == Panel.collapsed sp -> s' = stays)
      /\ (y == 0 -> ~ Panel.currentSnapPoint s == Panel.collapsed sp ->
          s' = Panel.mkSheet (Panel.collapsed sp) (Panel.collapsed sp)
                 (Panel.lastGesture s) y false)
      /\ (y == 0 -> Panel.currentSnapPoint s == Panel.collapsed sp -> s' = stays)
      /\ (y < 0 -> s' = stays)
      /\ (0 <= y -> ~ Panel.mid sp == Panel.collapsed sp ->
          (Panel.currentSnapPoint s' == Panel.collapsed sp <-> y == 0))).
Proof.
  intros s' stays. subst s' stays. unfold Panel.handleScroll.
  split; intros Hd; rewrite Hd; [reflexivity |].
  assert (Hc : JS.eq (Panel.currentSnapPoint s) (Panel.collapsed sp) = true
               <-> Panel.currentSnapPoint s == Panel.collapsed sp)
    by apply Qeq_bool_iff.
  split; [| split; [| split; [| split; [| split]]]].
  - intros Hy Hs.
    rewrite (proj2 (gt_zero y) Hy), (proj2 Hc Hs).
    rewrite (bool_iff_false _ _ (eq_zero y)) by lra.
    reflexivity.
  - intros Hy Hs.
    rewrite (bool_iff_false _ _ Hc Hs).
    rewrite (bool_iff_false _ _ (eq_zero y)) by lra.
    rewrite andb_false_r. reflexivity.
  - intros Hy Hs.
    rewrite (bool_iff_false _ _ Hc Hs), (proj2 (eq_zero y) Hy).
    rewrite andb_false_r. reflexivity.
  - intros Hy Hs.
    rewrite (proj2 Hc Hs), (proj2 (eq_zero y) Hy).
    rewrite (bool_iff_false _ _ (gt_zero y)) by lra.
    reflexivity.
  - intros Hy.
    rewrite (bool_iff_false _ _ (gt_zero y)) by lra.
    rewrite (bool_iff_false _ _ (eq_zero y)) by lra.
    reflexivity.
  - intros Hy Hm.
    destruct (JS.eq (Panel.currentSnapPoint s) (Panel.collapsed sp)) eqn:Ec.
    + assert (Hs := proj1 Hc eq_refl).
      destruct (JS.gt y 0) eqn:Eg; cbn [andb negb].
      * apply gt_zero in Eg. rewrite andb_false_r.
        cbn [Panel.snapTo Panel.currentSnapPoint].
        split; [intros F; now elim Hm | intros F; lra].
      * rewrite andb_false_r. cbn [Panel.currentSnapPoint].
        split; [intros _ | intros _; exact Hs].
        destruct (Qlt_le_dec 0 y) as [L | L]; [| lra].
        apply gt_zero in L. congruence.
    + assert (Hs : ~ Panel.currentSnapPoint s == Panel.collapsed sp)
        by (intro F; apply Hc in F; congruence).
      rewrite andb_false_r, andb_true_r.
      destruct (JS.eq y 0) eqn:E0.
      * cbn [Panel.snapTo Panel.currentSnapPoint].
        split; [intros _; now apply eq_zero | reflexivity].
      * cbn [Panel.currentSnapPoint].
        split; [intros F; now elim Hs |].
        intros F. apply eq_zero in F. congruence.
Qed.

(** A scroll of 40 on a panel at rest, on a window 800 high: the panel
    snaps to [mid]. *)
Lemma scroll_collapses_at_top_witness :
  Panel.handleScroll (Panel.snapPoints 800) 40
    (Panel.initial (Panel.snapPoints 800))
  = Panel.mkSheet (Panel.mid (Panel.snapPoints 800))
      (Panel.mid (Panel.snapPoints 800))
      (Panel.lastGesture (Panel.initial (Panel.snapPoints 800))) 40 false.
Proof.
  apply (proj1 (proj2 (scroll_collapses_at_top (Panel.snapPoints 800) 40
                         (Panel.initial (Panel.snapPoints 800))) eq_refl));
    reflexivity.
Defined.

(* ===================================================================== *)
(** * The markers of the map *)
(* ===================================================================== *)

Section Markers.

Import MapScreen MapSheet.

(** What [waypointsData] yields is what the screen is said to read. *)
Lemma waypointsData_read (route : Route.t) :
  waypointsRead route (waypointsData route).
Proof.
  unfold waypointsData.
  destruct (Route.waypoint_details route) as [l |] eqn:Ed;
    [now apply read_details |].
  destruct (Route.metadata route) as [m |] eqn:Em;
    [| now apply read_no_metadata].
  destruct (RouteMetadata.waypoints m) as [l |] eqn:Ew.
  - eapply read_metadata; eassumption.
  - eapply read_no_waypoints; eassumption.
Qed.

(** A route is read in one way only. *)
Lemma waypointsRead_functional (route : Route.t) (l1 l2 : list WaypointData.t) :
  waypointsRead route l1 -> waypointsRead route l2 -> l1 = l2.
Proof. intros H1 H2. destruct H1, H2; congruence. Qed.

Lemma markers_spec (routes : list Route.t) :
  markersOf routes (getAllWaypoints routes).
Proof.
  unfold getAllWaypoints.
  induction routes as [| r rs IH]; [constructor |].
  cbn [map]. pose proof (waypointsData_read r) as Hr.
  destruct (waypointsData r) as [| first rest]; cbn [filterNotNull].
  - now apply markers_skip.
  - eapply markers_mark; eassumption.
Qed.

Lemma markersOf_functional (routes : list Route.t) (m1 : list Marker) :
  markersOf routes m1 -> forall m2, markersOf routes m2 -> m1 = m2.
Proof.
  induction 1 as [| r rs ms Hr _ IH | r rs ms first rest Hr _ IH];
    intros m2 H2; inversion H2 as [| r' rs' ms' Hr' H' | r' rs' ms' f' t' Hr' H'];
    subst.
  - reflexivity.
  - now apply IH.
  - pose proof (waypointsRead_functional _ _ _ Hr Hr'). discriminate.
  - pose proof (waypointsRead_functional _ _ _ Hr Hr'). discriminate.
  - pose proof (waypointsRead_functional _ _ _ Hr Hr') as E.
    injection E as <- _. f_equal. now apply IH.
Qed.

Lemma no_markers_no_region (routes : list Route.t) :
  getAllWaypoints routes = [] <-> getMapRegion routes = None.
Proof.
  assert (H : getAllWaypoints routes = [] <-> allWaypoints routes = []).
  { unfold getAllWaypoints, allWaypoints.
    induction routes as [| r rs IH]; [tauto |].
    cbn [map flat_map]. destruct (waypointsData r) as [| first rest];
      cbn [filterNotNull app]; [exact IH |].
    split; discriminate. }
  rewrite H. unfold getMapRegion.
  destruct routes as [| r rs]; [cbn; tauto |].
  cbn [List.length Nat.eqb].
  destruct (allWaypoints (r :: rs)); split; congruence || discriminate.
Qed.

End Markers.

(** Extra X4.  The markers of the map are those of the loaded routes in
    the order of the routes: a route gets one marker, at the first of its
    waypoints, which selects the route when pressed, and a route without
    waypoints gets none.  The waypoints of a route are those of its
    [waypoint_details] when that field holds an array, those of
    [metadata.waypoints] when it is missing: a route that keeps its
    waypoints in its metadata alone gets its marker, and a route whose
    [waypoint_details] is an empty array gets none, whatever its metadata
    holds.  There is no marker exactly when [getMapRegion] yields no
    viewport. *)
Theorem markers_follow_routes (routes : list MapScreen.Route.t)
    (w : WaypointData.t) (ws : list WaypointData.t) :
  MapSheet.markersOf routes (MapSheet.getAllWaypoints routes)
  /\ (forall markers,
        MapSheet.markersOf routes markers ->
        markers = MapSheet.getAllWaypoints routes)
  /\ MapSheet.getAllWaypoints
       [MapScreen.Route.mk None (Some (MapScreen.RouteMetadata.mk (Some (w :: ws))))]
     = [MapSheet.mkMarker (WaypointData.lat w) (WaypointData.lng w)
          (MapScreen.Route.mk None
             (Some (MapScreen.RouteMetadata.mk (Some (w :: ws)))))]
  /\ MapSheet.getAllWaypoints
       [MapScreen.Route.mk (Some (w :: ws)) None]
     = [MapSheet.mkMarker (WaypointData.lat w) (WaypointData.lng w)
          (MapScreen.Route.mk (Some (w :: ws)) None)]
  /\ MapSheet.getAllWaypoints
       [MapScreen.Route.mk (Some [])
          (Some (MapScreen.RouteMetadata.mk (Some (w :: ws))))]
     = []
  /\ (MapSheet.getAllWaypoints routes = [] <-> MapScreen.getMapRegion routes = None).
Proof.
  split; [apply markers_spec |].
  split; [intros markers H; apply (markersOf_functional routes _ H), markers_spec |].
  split; [reflexivity |]. split; [reflexivity |]. split; [reflexivity |].
  apply no_markers_no_region.
Qed.

(* ===================================================================== *)
(** * The calls of a lookup *)
(* ===================================================================== *)

Section LookupCalls.

Import Location Search SearchTrace.

Context {S : Type}.
Variable h : Location.Handler S.

Lemma calls_app {E : Type} {R : E -> Type} (a b : list (Free.Event E R)) :
  calls (a ++ b) = calls a ++ calls b.
Proof. apply map_app. Qed.

Lemma calls_geocode {A} (t : string) (k : option (list Coords) -> Location.Prog A)
    (s : S) :
  trace h (bind (geocode t) k) s
  = existT Answer (geocodeAsync t) (fst (h (geocodeAsync t) s))
      :: trace h (k (fst (h (geocodeAsync t) s))) (snd (h (geocodeAsync t) s)).
Proof. unfold geocode, call. cbn [bind]. rewrite trace_vis. reflexivity. Qed.

(** The geocoding phase issues geocoding calls only; a call of it was
    rejected exactly when the phase ends without hits to go on with. *)
Lemma tryTerms_calls (terms : list string) :
  forall results s,
    calls (trace h (tryTerms terms results) s)
    = map geocodeAsync (map fst (geocodes (trace h (tryTerms terms results) s)))
    /\ (existsb rejected (trace h (tryTerms terms results) s) = true
        <-> result h (tryTerms terms results) s = None).
Proof.
  induction terms as [| term rest IH]; intros results s.
  - cbn [tryTerms]. rewrite trace_ret, result_ret. split; [reflexivity |].
    cbn. split; discriminate.
  - cbn [tryTerms]. rewrite calls_geocode, result_geocode.
    cbn [calls map geocodes geocodeOf fst existsb rejected].
    destruct (fst (h (geocodeAsync term) s)) as [[| c l] |].
    + cbn [List.length Nat.ltb Nat.leb orb].
      destruct (IH [] (snd (h (geocodeAsync term) s))) as [Hc Hr].
      split; [| exact Hr]. f_equal. exact Hc.
    + cbn [List.length Nat.ltb Nat.leb]. rewrite trace_ret, result_ret.
      split; [reflexivity |]. cbn. split; discriminate.
    + rewrite trace_ret, result_ret. split; [reflexivity |]. cbn. tauto.
Qed.

Lemma fallback_calls (query : string) (s : S) :
  calls (trace h (geocodeWithFallback query) s)
  = map geocodeAsync
      (map fst (geocodes (trace h (geocodeWithFallback query) s)))
  /\ (existsb rejected (trace h (geocodeWithFallback query) s) = true
      <-> result h (geocodeWithFallback query) s = None).
Proof.
  unfold geocodeWithFallback. rewrite calls_geocode, result_geocode.
  cbn [calls map geocodes geocodeOf fst existsb rejected].
  destruct (fst (h (geocodeAsync query) s)) as [[| c l] |].
  - cbn [List.length Nat.eqb orb].
    destruct (tryTerms_calls (searchTerms query) []
                (snd (h (geocodeAsync query) s))) as [Hc Hr].
    split; [| exact Hr]. f_equal. exact Hc.
  - cbn [List.length Nat.eqb]. rewrite trace_ret, result_ret.
    split; [reflexivity |]. cbn. split; discriminate.
  - rewrite trace_ret, result_ret. split; [reflexivity |]. cbn. tauto.
Qed.

(** Every hit is reverse-geocoded, in order, whatever the answers; one of
    the calls was rejected exactly when [Promise.all] rejects. *)
Lemma reverseAll_calls (results : list Coords) :
  forall s,
    calls (trace h (reverseAll results) s) = map reverseGeocodeAsync results
    /\ (existsb rejected (trace h (reverseAll results) s) = true
        <-> all (result h (reverseAll results) s) = None).
Proof.
  induction results as [| r rest IH]; intro s.
  - cbn [reverseAll]. rewrite trace_ret, result_ret. split; [reflexivity |].
    cbn. split; discriminate.
  - cbn [reverseAll]. unfold reverseGeocode, call. cbn [bind].
    rewrite trace_vis, result_vis, trace_bind, result_bind, result_ret, trace_ret,
      app_nil_r.
    destruct r as [lat lng]. cbn [latitude longitude].
    destruct (IH (snd (h (reverseGeocodeAsync (mkCoords lat lng)) s))) as [Hc Hr].
    cbn [calls map existsb rejected projT1]. split.
    + f_equal. exact Hc.
    + destruct (fst (h (reverseGeocodeAsync (mkCoords lat lng)) s)) as [a |];
        cbn [option_map all orb].
      * rewrite Hr. destruct (all _); cbn [option_map]; split; congruence.
      * tauto.
Qed.

Lemma attempts_length (terms : list string)
    (tr : list (string * option (list Coords))) :
  attempts terms tr ->
  (1 <= List.length tr <= List.length terms)%nat.
Proof.
  induction 1 as [term rest a Ha | term | term rest tr Hne Hrest IH];
    cbn [List.length]; lia.
Qed.

End LookupCalls.

(** Extra X5.  A lookup issues between one and six geocoding calls, and
    after them one reverse-geocoding call for each hit of the geocoding
    phase, in the order of the hits, whatever the earlier reverse calls
    answered; it issues nothing else. *)
Theorem lookup_calls {S : Type} (h : Location.Handler S) (s : S) (query : string) :
  calls (trace h (Search.lookup query) s)
  = map Location.geocodeAsync
      (map fst (Location.geocodes (trace h (Search.lookup query) s)))
    ++ map Location.reverseGeocodeAsync
         (SearchTrace.hitsOf (result h (Search.geocodeWithFallback query) s))
  /\ (1 <= List.length (Location.geocodes (trace h (Search.lookup query) s)) <= 6)%nat.
Proof.
  split.
  - rewrite lookup_geocodes. unfold Search.lookup.
    rewrite trace_bind, calls_app.
    rewrite (proj1 (fallback_calls h query s)). f_equal.
    destruct (result h (Search.geocodeWithFallback query) s) as [[| r rest] |];
      cbn [SearchTrace.hitsOf List.length Nat.ltb Nat.leb];
      try (rewrite trace_ret; reflexivity).
    rewrite trace_bind, calls_app.
    rewrite (proj1 (reverseAll_calls h (r :: rest) _)).
    destruct (Search.all _); rewrite trace_ret; apply app_nil_r.
  - rewrite lookup_geocodes.
    apply (attempts_length (query :: Search.searchTerms query)).
    apply fallback_attempts.
Qed.

(** Extra X6.  A lookup ends in its [catch] exactly when one of its calls,
    a geocoding call or a reverse-geocoding call, was rejected; the search
    state is then left as it was. *)
Theorem lookup_caught_iff_rejected {S : Type} (h : Location.Handler S) (s : S)
    (query : string) (st : Search.SearchState) :
  (existsb SearchTrace.rejected (trace h (Search.lookup query) s) = true
   <-> result h (Search.lookup query) s = Search.Caught)
  /\ (result h (Search.lookup query) s = Search.Caught ->
      Search.settle (result h (Search.lookup query) s) st = st).
Proof.
  split; [| intros ->; reflexivity].
  unfold Search.lookup. rewrite trace_bind, result_bind, existsb_app, orb_true_iff.
  destruct (fallback_calls h query s) as [_ Hr].
  destruct (result h (Search.geocodeWithFallback query) s) as [[| r rest] |].
  - cbn [List.length Nat.ltb Nat.leb]. rewrite trace_ret, result_ret.
    split; [| discriminate].
    intros [F | F]; [apply Hr in F; discriminate | discriminate].
  - cbn [List.length Nat.ltb Nat.leb].
    rewrite trace_bind, result_bind, existsb_app.
    destruct (reverseAll_calls h (r :: rest)
                (final h (Search.geocodeWithFallback query) s)) as [_ Ha].
    destruct (Search.all _) as [addresses |]; rewrite trace_ret, result_ret.
    + split; [| discriminate].
      intros [F | F]; [apply Hr in F; discriminate |].
      cbn [existsb] in F. rewrite orb_false_r in F. apply Ha in F. discriminate.
    + split; [reflexivity |]. intros _. right.
      cbn [existsb]. rewrite orb_false_r. now apply Ha.
  - rewrite trace_ret, result_ret. split; [reflexivity |].
    intros _. left. now apply Hr.
Qed.

(* ===================================================================== *)
(** * The search box goes away *)
(* ===================================================================== *)

Section Teardown.

Import Search Timers SearchTrace.

Lemma idle_elapses (s : SearchState) (waits : list nat) :
  forall l,
    pending l = [] ->
    pending (snd (steps (s, l) (map Elapsed waits))) = []
    /\ ran (snd (steps (s, l) (map Elapsed waits))) = ran l.
Proof.
  induction waits as [| w rest IH]; intros l Hl.
  - split; [exact Hl | reflexivity].
  - cbn [map steps fold_left step fst snd].
    destruct (IH (elapse w l)) as [Hp Hr].
    + cbn [elapse pending]. rewrite Hl. reflexivity.
    + unfold steps in Hp, Hr. split; [exact Hp |].
      rewrite Hr. cbn [elapse ran]. rewrite Hl. apply app_nil_r.
Qed.

End Teardown.

(** Extra X7.  When the screen goes away after any history of keystrokes
    and waiting, the cleanup of the effect leaves no callback waiting: the
    lookups that ran are those that had run before, however long one waits
    afterwards. *)
Theorem unmount_cancels_lookup (history : list Search.Input) (waits : list nat) :
  Timers.pending
    (snd (SearchTrace.unmount (Search.steps (Search.initial, Timers.start) history)))
  = []
  /\ Timers.ran
       (snd (Search.steps
               (SearchTrace.unmount
                  (Search.steps (Search.initial, Timers.start) history))
               (map Search.Elapsed waits)))
     = Timers.ran (snd (Search.steps (Search.initial, Timers.start) history)).
Proof.
  pose proof (steps_tracked history _ start_tracked) as T.
  destruct (Search.steps (Search.initial, Timers.start) history) as [s l].
  pose proof (clear_tracked s l T) as P.
  unfold SearchTrace.unmount, Search.cleanup. cbn [fst snd]. split; [exact P |].
  rewrite (proj2 (idle_elapses s waits _ P)).
  apply (clear_frame s l).
Qed.

(* ===================================================================== *)
(** * A submission that is accepted *)
(* ===================================================================== *)

Section Outcome.

Import Backend CreateRouteScreen RouteForm.

Context {S : Type}.
Variable h : Backend.Handler S.

Lemma wentBack_app (a b : list Call) :
  wentBack (a ++ b) = (wentBack a + wentBack b)%nat.
Proof.
  induction a as [| c a IH]; [reflexivity |].
  destruct c; cbn [app wentBack]; rewrite IH; reflexivity.
Qed.

Lemma uploads_app (a b : list Call) : uploads (a ++ b) = uploads a ++ uploads b.
Proof.
  induction a as [| c a IH]; [reflexivity |].
  destruct c; cbn [app uploads]; rewrite IH; reflexivity.
Qed.

Lemma loadingAfter_app (loading : bool) (a b : list Call) :
  loadingAfter loading (a ++ b) = loadingAfter (loadingAfter loading a) b.
Proof. apply fold_left_app. Qed.

(** What a part of the submission does, as far as the statements below
    go: how often it navigates back, whether a write failed in it, what
    it leaves of [loading], and what it uploads. *)
Lemma uploadEach_trace (items : list MediaItem.t) (routeId : string) :
  forall s,
    wentBack (calls (trace h (uploadEach items routeId) s)) = 0%nat
    /\ existsb writeFailed (trace h (uploadEach items routeId) s) = false
    /\ (forall loading,
           loadingAfter loading (calls (trace h (uploadEach items routeId) s))
           = loading)
    /\ (exists n,
           uploads (calls (trace h (uploadEach items routeId) s))
           = firstn n (map MediaItem.uri items))
    /\ (existsb uploadFailed (trace h (uploadEach items routeId) s) = false ->
        uploads (calls (trace h (uploadEach items routeId) s))
        = map MediaItem.uri items)
    /\ (existsb uploadFailed (trace h (uploadEach items routeId) s) = false <->
        result h (uploadEach items routeId) s = None).
Proof.
  induction items as [| item rest IH]; intro s.
  - cbn [uploadEach]. rewrite trace_ret, result_ret.
    repeat split; try reflexivity. exists 0%nat. reflexivity.
  - cbn [uploadEach]. rewrite !trace_ask, !result_ask.
    destruct (h Date_now s) as [now s1]. cbn [fst snd].
    set (filePath := ("routes/" ++ routeId ++ "/" ++ JS.decimalN now ++ "."
                      ++ popOr "." (MediaItem.fileName item) "jpg")%string).
    destruct (h (storage_upload filePath (MediaItem.uri item)
                   (if MediaType_eqb (MediaItem.type item) video
                    then "video/mp4" else "image/jpeg")) s1) as [[e |] s2];
      cbn [fst snd].
    + rewrite trace_ret, result_ret.
      cbn [calls map projT1 wentBack existsb writeFailed uploadFailed uploads orb].
      repeat split; try reflexivity; try discriminate.
      exists 1%nat. reflexivity.
    + rewrite !trace_ask, !result_ask.
      destruct (h (getPublicUrl filePath) s2) as [publicUrl s3]. cbn [fst snd].
      destruct (h (select_media_attachments routeId) s3) as [currentRoute s4].
      cbn [fst snd].
      destruct (h (update_media_attachments routeId
                     (orEmpty currentRoute
                      ++ [MediaUrl.mk (MediaItem.type item) publicUrl
                            (MediaItem.description item)])) s4) as [[e |] s5];
        cbn [fst snd].
      * rewrite trace_ret, result_ret.
        cbn [calls map projT1 wentBack existsb writeFailed uploadFailed uploads orb].
        repeat split; try reflexivity; try discriminate.
        exists 1%nat. reflexivity.
      * destruct (IH s5) as (B & W & L & [n U] & A & R).
        cbn [calls map projT1 wentBack existsb writeFailed uploadFailed uploads orb
             loadingAfter fold_left].
        fold (calls (trace h (uploadEach rest routeId) s5)).
        repeat split.
        -- exact B.
        -- exact W.
        -- intro loading. apply L.
        -- exists (Datatypes.S n). cbn [firstn]. f_equal. exact U.
        -- intro F. f_equal. now apply A.
        -- apply R.
        -- apply R.
Qed.

Lemma filter_idem {A} (p : A -> bool) (l : list A) :
  filter p (filter p l) = filter p l.
Proof.
  induction l as [| x l IH]; [reflexivity |].
  cbn [filter]. destruct (p x) eqn:E; [| exact IH].
  cbn [filter]. rewrite E, IH. reflexivity.
Qed.

Lemma upload_trace (media : list MediaItem.t) (routeId : string) (s : S) :
  wentBack (calls (trace h (uploadMediaInBackground media routeId) s)) = 0%nat
  /\ existsb writeFailed (trace h (uploadMediaInBackground media routeId) s) = false
  /\ (forall loading,
         loadingAfter loading
           (calls (trace h (uploadMediaInBackground media routeId) s))
         = loading)
  /\ (exists n,
         uploads (calls (trace h (uploadMediaInBackground media routeId) s))
         = firstn n (map MediaItem.uri (filter isNew media)))
  /\ (existsb uploadFailed (trace h (uploadMediaInBackground media routeId) s)
      = false ->
      uploads (calls (trace h (uploadMediaInBackground media routeId) s))
      = map MediaItem.uri (filter isNew media)).
Proof.
  unfold uploadMediaInBackground. rewrite trace_bind.
  destruct (uploadEach_trace (filter isNew media) routeId s)
    as (B & W & L & [n U] & A & R).
  destruct (result h (uploadEach (filter isNew media) routeId) s) as [e |].
  - rewrite trace_ask, trace_ret, calls_app, wentBack_app, existsb_app, uploads_app.
    cbn [calls map projT1 wentBack uploads existsb writeFailed uploadFailed].
    rewrite B, app_nil_r. repeat split.
    + cbn [orb]. rewrite orb_false_r. exact W.
    + intro loading. rewrite loadingAfter_app, L. reflexivity.
    + exists n. exact U.
    + intro F. rewrite existsb_app in F. apply orb_false_iff in F. apply A, F.
  - rewrite trace_ret, !app_nil_r. repeat split; try assumption.
    exists n. exact U.
Qed.

Lemma afterWrite_trace (c : Closure) (route : option string) (s : S) :
  wentBack (calls (trace h (afterWrite c route) s)) = 1%nat
  /\ existsb writeFailed (trace h (afterWrite c route) s) = false
  /\ (forall loading,
         loadingAfter loading (calls (trace h (afterWrite c route) s)) = false)
  /\ (exists n,
         uploads (calls (trace h (afterWrite c route) s))
         = firstn n (map MediaItem.uri (filter isNew (media (screen c)))))
  /\ (JS.truthy route = true ->
      existsb uploadFailed (trace h (afterWrite c route) s) = false ->
      uploads (calls (trace h (afterWrite c route) s))
      = map MediaItem.uri (filter isNew (media (screen c)))).
Proof.
  unfold afterWrite. rewrite trace_bind.
  match goal with |- context [final h ?p s] => set (up := p) end.
  assert (Hup :
    wentBack (calls (trace h up s)) = 0%nat
    /\ existsb writeFailed (trace h up s) = false
    /\ (forall loading, loadingAfter loading (calls (trace h up s)) = loading)
    /\ (exists n,
           uploads (calls (trace h up s))
           = firstn n (map MediaItem.uri (filter isNew (media (screen c)))))
    /\ (JS.truthy route = true ->
        existsb uploadFailed (trace h up s) = false ->
        uploads (calls (trace h up s))
        = map MediaItem.uri (filter isNew (media (screen c))))).
  { subst up. destruct route as [id |].
    2:{ rewrite trace_ret. repeat split; try reflexivity; try discriminate.
        exists 0%nat. reflexivity. }
    destruct (0 <? List.length (media (screen c)))%nat eqn:Hm; cbn [andb].
    2:{ rewrite trace_ret. repeat split; try reflexivity.
        - exists 0%nat. reflexivity.
        - intros _ _. apply Nat.ltb_ge in Hm.
          destruct (media (screen c)); [reflexivity | cbn in Hm; lia]. }
    destruct (JS.truthy (Some id)) eqn:Ht.
    2:{ rewrite trace_ret. repeat split; try reflexivity; try discriminate.
        exists 0%nat. reflexivity. }
    destruct (0 <? List.length (filter isNew (media (screen c))))%nat eqn:Hn.
    2:{ rewrite trace_ret. apply Nat.ltb_ge in Hn.
        destruct (filter isNew (media (screen c))); [| cbn in Hn; lia].
        repeat split; try reflexivity. exists 0%nat. reflexivity. }
    rewrite trace_bind.
    destruct (upload_trace (filter isNew (media (screen c))) id s)
      as (B & W & L & [n U] & A).
    rewrite filter_idem in U, A.
    destruct (result h (uploadMediaInBackground _ id) s) as [e |].
    - unfold ask, call. rewrite trace_vis, trace_ret.
      rewrite calls_app, wentBack_app, existsb_app, uploads_app.
      cbn [calls map projT1 wentBack uploads existsb writeFailed uploadFailed].
      rewrite B, app_nil_r. repeat split.
      + cbn [orb]. rewrite orb_false_r. exact W.
      + intro loading. rewrite loadingAfter_app, L. reflexivity.
      + exists n. exact U.
      + intros _ F. rewrite existsb_app in F. apply orb_false_iff in F. apply A, F.
    - rewrite trace_ret, !app_nil_r. repeat split; try assumption.
      + exists n. exact U.
      + intros _. exact A. }
  destruct Hup as (B & W & L & [n U] & A).
  rewrite calls_app, wentBack_app, existsb_app, uploads_app, B.
  rewrite trace_ask.
  assert (Hnav :
    forall s1,
      let nav := trace h
                   (if isEditing c
                    then bind (ask goBack)
                           (fun _ =>
                              bind (ask previousScreen_name)
                                (fun previous =>
                                   match previous with
                                   | inl message => failed (ErrorObj message)
                                   | inr name =>
                                       if String.eqb name "RouteDetail"
                                       then ask mark_shouldRefresh
                                       else Ret tt
                                   end))
                    else ask goBack) s1 in
      wentBack (calls nav) = 1%nat
      /\ existsb writeFailed nav = false
      /\ existsb uploadFailed nav = false
      /\ (forall loading, loadingAfter loading (calls nav) = loading
                          \/ loadingAfter loading (calls nav) = false)
      /\ loadingAfter false (calls nav) = false
      /\ uploads (calls nav) = []).
  { intro s1. destruct (isEditing c).
    - cbn zeta. rewrite !trace_ask.
      destruct (fst (h previousScreen_name (snd (h goBack s1)))) as [message | name].
      + unfold failed. rewrite !trace_ask. unfold ask, call.
        rewrite trace_vis, trace_ret.
        repeat split; try reflexivity. intro loading. right. reflexivity.
      + destruct (String.eqb name "RouteDetail").
        * unfold ask, call. rewrite trace_vis, trace_ret.
          repeat split; try reflexivity. intro loading. left. reflexivity.
        * rewrite trace_ret.
          repeat split; try reflexivity. intro loading. left. reflexivity.
    - cbn zeta. unfold ask, call. rewrite trace_vis, trace_ret.
      repeat split; try reflexivity. intro loading. left. reflexivity. }
  specialize (Hnav (snd (h (setLoading false) (final h up s)))).
  cbn zeta in Hnav. destruct Hnav as (Nb & Nw & Nu & Nl & Nf & Nup).
  cbn [calls map projT1 wentBack uploads existsb writeFailed uploadFailed orb].
  fold (calls (trace h
                 (if isEditing c
                  then bind (ask goBack)
                         (fun _ =>
                            bind (ask previousScreen_name)
                              (fun previous =>
                                 match previous with
                                 | inl message => failed (ErrorObj message)
                                 | inr name =>
                                     if String.eqb name "RouteDetail"
                                     then ask mark_shouldRefresh
                                     else Ret tt
                                 end))
                  else ask goBack)
                 (snd (h (setLoading false) (final h up s))))).
  rewrite Nb, Nup, app_nil_r. repeat split.
  - apply orb_false_iff. split; [exact W | exact Nw].
  - intro loading. rewrite loadingAfter_app, L.
    cbn [loadingAfter fold_left]. exact Nf.
  - exists n. exact U.
  - intros T F. rewrite existsb_app in F. apply orb_false_iff in F. apply A; [exact T | apply F].
Qed.

Lemma failed_trace (err : Thrown) (s : S) :
  calls (trace h (failed err) s)
  = [ console_error "Route operation error:";
      setError (Some match err with
                     | ErrorObj message => message
                     | NotAnError => "Failed to save route. Please try again."
                     end);
      setLoading false ]
  /\ existsb writeFailed (trace h (failed err) s) = false
  /\ existsb uploadFailed (trace h (failed err) s) = false
  /\ existsb returnedId (trace h (failed err) s) = false.
Proof.
  unfold failed. rewrite !trace_ask. unfold ask, call.
  rewrite trace_vis, trace_ret. repeat split; reflexivity.
Qed.

Lemma no_rows_no_id (tr : list Backend.Event) :
  rows tr = [] -> existsb returnedId tr = false.
Proof.
  induction tr as [| [c a] tr IH]; [reflexivity |].
  rewrite rows_cons. destruct c; cbn [writtenRow]; try discriminate;
    intro H; cbn [existsb returnedId orb]; apply IH, H.
Qed.

(** What is left of an accepted submission once the row is written: with
    the answer [w] of the write and the answer [t] of the analytics call. *)
Lemma written_trace (c : Closure) (w : Written.t) (t : option Thrown) (s : S)
    (loading : bool) :
  let rest :=
    trace h
      match t with
      | Some e => failed e
      | None => afterWrite c (Written.data w)
      end s in
  wentBack (calls rest) = match t with Some _ => 0%nat | None => 1%nat end
  /\ existsb writeFailed rest = false
  /\ existsb returnedId rest = false
  /\ loadingAfter loading (calls rest) = false
  /\ (exists n,
         uploads (calls rest)
         = firstn n (map MediaItem.uri (filter isNew (media (screen c)))))
  /\ (t <> None -> uploads (calls rest) = [])
  /\ (t = None -> JS.truthy (Written.data w) = true ->
      existsb uploadFailed rest = false ->
      uploads (calls rest)
      = map MediaItem.uri (filter isNew (media (screen c)))).
Proof.
  destruct t as [e |]; cbn zeta.
  - destruct (failed_trace e s) as (C & W & U & I). rewrite C.
    repeat split; try assumption; try reflexivity; try discriminate.
    exists 0%nat. reflexivity.
  - destruct (afterWrite_trace c (Written.data w) s) as (B & W & L & U & A).
    repeat split; try assumption.
    + apply no_rows_no_id, afterWrite_rows.
    + apply L.
    + intro F. now elim F.
    + intros _. exact A.
Qed.

Ltac measure :=
  cbn [calls map projT1 wentBack uploads existsb writeFailed returnedId
       uploadFailed orb loadingAfter fold_left Written.error Written.data].

(** The write of the row was rejected: the [catch] runs. *)
Ltac write_rejected :=
  match goal with
  | |- context [trace h (failed ?e) ?s5] =>
      let C := fresh "C" in
      let W := fresh "W" in
      destruct (failed_trace e s5) as (C & W & _ & _);
      measure; fold (calls (trace h (failed e) s5));
      rewrite C; measure;
      repeat split; try reflexivity; try discriminate;
      exists 0%nat; reflexivity
  end.

(** The write of the row was accepted: the analytics call answered [t]. *)
Ltac write_accepted c :=
  match goal with
  | |- context [trace h match ?t with
                        | Some e => failed e
                        | None => afterWrite c ?d
                        end ?s6] =>
  let B := fresh "B" in
  let W := fresh "W" in
  let I := fresh "I" in
  let L := fresh "L" in
  let U := fresh "U" in
  let F := fresh "F" in
  let A := fresh "A" in
  let rest := fresh "rest" in
  destruct (written_trace c (Written.mk d None) t s6 true)
    as (B & W & I & L & U & F & A);
  cbn zeta in B, W, I, L, U, F, A; cbn [Written.data] in *;
  measure;
  match goal with
  | |- context [trace h ?p s6] =>
      fold (calls (trace h p s6));
      fold (loadingAfter true (calls (trace h p s6)));
      set (rest := trace h p s6) in *
  end;
  change (existsb writeFailed rest = false) in W;
  change (existsb returnedId rest = false) in I;
  destruct t as [e |]; cbn [orb];
  [ rewrite B, L; repeat split; try reflexivity; try discriminate;
    [ exact U | intros _; apply F; discriminate ]
  | rewrite B, L, W; repeat split; try reflexivity; try discriminate;
    [ exact U
    | let T := fresh "T" in
      let X := fresh "X" in
      intros _ T X; apply A; [reflexivity | | exact X];
      rewrite I, orb_false_r in T; exact T ] ]
  end.

Lemma submit_trace (c : Closure) (s : S) (loading : bool) :
  JS.truthy (user_id c) = true ->
  JS.blank (FormData.name (formData (screen c))) = false ->
  wentBack (calls (trace h (handleCreate c) s))
  = (if existsb writeFailed (trace h (handleCreate c) s) then 0 else 1)%nat
  /\ loadingAfter loading (calls (trace h (handleCreate c) s)) = false
  /\ (exists n,
         uploads (calls (trace h (handleCreate c) s))
         = firstn n (map MediaItem.uri (filter isNew (media (screen c)))))
  /\ (existsb writeFailed (trace h (handleCreate c) s) = true ->
      uploads (calls (trace h (handleCreate c) s)) = [])
  /\ (existsb writeFailed (trace h (handleCreate c) s) = false ->
      existsb returnedId (trace h (handleCreate c) s) = true ->
      existsb uploadFailed (trace h (handleCreate c) s) = false ->
      uploads (calls (trace h (handleCreate c) s))
      = map MediaItem.uri (filter isNew (media (screen c)))).
Proof.
  intros Hu Hb. unfold handleCreate.
  destruct (user_id c) as [[| a u] |]; try discriminate.
  rewrite Hb, !trace_ask.
  destruct (h (setLoading true) s) as [[] s1]. cbn [fst snd].
  destruct (h (setError None) s1) as [[] s2]. cbn [fst snd].
  destruct (routeId c) as [[| a' r'] |]; rewrite !trace_ask;
    repeat match goal with
      | |- context [fst (h ?call ?s')] =>
          lazymatch call with
          | insert _ _ => fail
          | update _ _ => fail
          | _ => destruct (h call s') as [? ?]; cbn [fst snd]
          end
      end;
    match goal with
    | |- context [Written.error (fst (h ?write ?s'))] =>
        destruct (h write s') as [[d [e |]] s5];
        cbn [fst snd Written.error Written.data]
    end;
    try write_rejected;
    rewrite trace_ask;
    match goal with
    | |- context [fst (h ?track ?s')] =>
        destruct (h track s') as [t s6]; cbn [fst snd]
    end;
    write_accepted c.
Qed.

End Outcome.

(** Extra X8.  A submission that is accepted (a signed-in user, a name
    that is not blank) navigates back exactly once when the write of the
    row and the analytics call after it succeed, whether or not an upload
    fails, and not at all when one of the two fails; either way it leaves
    [loading] false. *)
Theorem submit_navigates_back {S : Type} (h : Backend.Handler S) (s : S)
    (c : CreateRouteScreen.Closure) (loading : bool) :
  JS.truthy (CreateRouteScreen.user_id c) = true ->
  JS.blank
    (Backend.FormData.name
       (CreateRouteScreen.formData (CreateRouteScreen.screen c))) = false ->
  RouteForm.wentBack (calls (trace h (CreateRouteScreen.handleCreate c) s))
  = (if existsb RouteForm.writeFailed (trace h (CreateRouteScreen.handleCreate c) s)
     then 0 else 1)%nat
  /\ RouteForm.loadingAfter loading
       (calls (trace h (CreateRouteScreen.handleCreate c) s)) = false.
Proof.
  intros Hu Hb.
  destruct (submit_trace h c s loading Hu Hb) as (B & L & _).
  split; assumption.
Qed.

Lemma submit_navigates_back_witness :
  RouteForm.wentBack
    (calls
       (trace Memory.handler
          (CreateRouteScreen.handleCreate
             (Example.creating
                (Example.screenWith "Evening loop" [Example.A; Example.B]
                   [Example.localA; Example.localNew])))
          Example.empty))
  = (if existsb RouteForm.writeFailed
          (trace Memory.handler
             (CreateRouteScreen.handleCreate
                (Example.creating
                   (Example.screenWith "Evening loop" [Example.A; Example.B]
                      [Example.localA; Example.localNew])))
             Example.empty)
     then 0 else 1)%nat
  /\ RouteForm.loadingAfter true
       (calls
          (trace Memory.handler
             (CreateRouteScreen.handleCreate
                (Example.creating
                   (Example.screenWith "Evening loop" [Example.A; Example.B]
                      [Example.localA; Example.localNew])))
             Example.empty)) = false.
Proof.
  apply (submit_navigates_back Memory.handler Example.empty
           (Example.creating
              (Example.screenWith "Evening loop" [Example.A; Example.B]
                 [Example.localA; Example.localNew])) true);
    reflexivity.
Defined.

(** Extra X9.  An accepted submission uploads the media items whose uri
    does not start with [http], in the order of the list, and stops at the
    first failure: what it uploads is a prefix of them; nothing when the
    write of the row or the analytics call failed; all of them when the
    write returned a row with an id and no upload failed. *)
Theorem submit_uploads_new_media {S : Type} (h : Backend.Handler S) (s : S)
    (c : CreateRouteScreen.Closure) :
  JS.truthy (CreateRouteScreen.user_id c) = true ->
  JS.blank
    (Backend.FormData.name
       (CreateRouteScreen.formData (CreateRouteScreen.screen c))) = false ->
  (exists n,
      RouteForm.uploads (calls (trace h (CreateRouteScreen.handleCreate c) s))
      = firstn n
          (map MediaItem.uri
             (filter CreateRouteScreen.isNew
                (CreateRouteScreen.media (CreateRouteScreen.screen c)))))
  /\ (existsb RouteForm.writeFailed (trace h (CreateRouteScreen.handleCreate c) s)
      = true ->
      RouteForm.uploads (calls (trace h (CreateRouteScreen.handleCreate c) s)) = [])
  /\ (existsb RouteForm.writeFailed (trace h (CreateRouteScreen.handleCreate c) s)
      = false ->
      existsb RouteForm.returnedId (trace h (CreateRouteScreen.handleCreate c) s)
      = true ->
      existsb RouteForm.uploadFailed (trace h (CreateRouteScreen.handleCreate c) s)
      = false ->
      RouteForm.uploads (calls (trace h (CreateRouteScreen.handleCreate c) s))
      = map MediaItem.uri
          (filter CreateRouteScreen.isNew
             (CreateRouteScreen.media (CreateRouteScreen.screen c)))).
Proof.
  intros Hu Hb.
  destruct (submit_trace h c s true Hu Hb) as (_ & _ & U & F & A).
  repeat split; assumption.
Qed.

Lemma submit_uploads_new_media_witness :
  RouteForm.uploads
    (calls
       (trace Memory.handler
          (CreateRouteScreen.handleCreate
             (Example.editing
                (Example.screenWith "Evening loop" [Example.A; Example.B]
                   [Example.localA; Example.localNew])))
          Example.stored))
  = ["file://new"].
Proof.
  apply (submit_uploads_new_media Memory.handler Example.stored
           (Example.editing
              (Example.screenWith "Evening loop" [Example.A; Example.B]
                 [Example.localA; Example.localNew])));
    reflexivity.
Defined.

Section Saved.

Import Backend CreateRouteScreen RouteForm.

Lemma final_ask {S A} (h : Backend.Handler S) (c : Call)
    (k : Answer c -> Backend.Prog A) (s : S) :
  final h (bind (ask c) k) s = final h (k (fst (h c s))) (snd (h c s)).
Proof. unfold ask, call. cbn [bind]. rewrite final_vis. reflexivity. Qed.

Lemma withAttachments_twice (d : RouteData.t) (a b : list MediaUrl.t) :
  Memory.withAttachments (Memory.withAttachments d a) b = Memory.withAttachments d b.
Proof. reflexivity. Qed.

(** Against the in-memory backend no upload fails, and each adds one
    attachment to the row. *)
Lemma uploadEach_memory (items : list MediaItem.t) (routeId : string) :
  forall (st : Memory.Store) (d : RouteData.t),
    Memory.row st = Some d ->
    result Memory.handler (uploadEach items routeId) st = None
    /\ Memory.row (final Memory.handler (uploadEach items routeId) st)
       = Some (Memory.withAttachments d
                 (RouteData.media_attachments d
                  ++ published routeId (Memory.clock st) items)).
Proof.
  induction items as [| item rest IH]; intros st d Hd.
  - cbn [uploadEach published]. rewrite result_ret, final_ret, app_nil_r.
    split; [reflexivity |]. rewrite Hd. destruct d. reflexivity.
  - cbn [uploadEach published].
    repeat (progress (rewrite ?result_ask, ?final_ask;
                      cbn [Memory.handler fst snd Memory.row Memory.clock])).
    rewrite Hd. cbn [option_map orEmpty].
    match goal with
    | |- context [final Memory.handler (uploadEach rest routeId) ?st'] =>
        destruct (IH st' (Memory.withAttachments d
                            (RouteData.media_attachments d
                             ++ [MediaUrl.mk (MediaItem.type item)
                                   ("https://cdn/" ++ "routes/" ++ routeId ++ "/"
                                    ++ JS.decimalN (Memory.clock st) ++ "."
                                    ++ popOr "." (MediaItem.fileName item) "jpg")
                                   (MediaItem.description item)]))
                    eq_refl) as [R F]
    end.
    split; [exact R |].
    rewrite F. cbn [Memory.clock]. rewrite withAttachments_twice.
    f_equal. f_equal.
    destruct d. cbn [Memory.withAttachments RouteData.media_attachments].
    rewrite <- app_assoc. reflexivity.
Qed.

Lemma afterWrite_memory (c : Closure) (id : string) (st : Memory.Store)
    (d : RouteData.t) :
  Memory.row st = Some d ->
  JS.truthy (Some id) = true ->
  Memory.row (final Memory.handler (afterWrite c (Some id)) st)
  = Some (Memory.withAttachments d
            (RouteData.media_attachments d
             ++ published id (Memory.clock st) (filter isNew (media (screen c))))).
Proof.
  intros Hd Hid. unfold afterWrite. rewrite final_bind.
  match goal with
  | |- context [final Memory.handler ?p st] =>
      assert (Hup :
        Memory.row (final Memory.handler p st)
        = Some (Memory.withAttachments d
                  (RouteData.media_attachments d
                   ++ published id (Memory.clock st)
                        (filter isNew (media (screen c))))));
      [| generalize dependent (final Memory.handler p st) ]
  end.
  - rewrite Hid.
    destruct (0 <? List.length (media (screen c)))%nat eqn:Hm; cbn [andb].
    2:{ apply Nat.ltb_ge in Hm.
        destruct (media (screen c)); [| cbn in Hm; lia].
        cbn [filter published]. rewrite final_ret, app_nil_r, Hd.
        destruct d. reflexivity. }
    destruct (0 <? List.length (filter isNew (media (screen c))))%nat eqn:Hn.
    2:{ apply Nat.ltb_ge in Hn.
        destruct (filter isNew (media (screen c))); [| cbn in Hn; lia].
        cbn [published]. rewrite final_ret, app_nil_r, Hd.
        destruct d. reflexivity. }
    rewrite final_bind. unfold uploadMediaInBackground.
    rewrite result_bind, final_bind, filter_idem.
    destruct (uploadEach_memory (filter isNew (media (screen c))) id st d Hd)
      as [R F].
    rewrite R, result_ret, !final_ret. exact F.
  - intros st' Hup. rewrite final_ask. cbn [Memory.handler fst snd].
    destruct (isEditing c).
    + rewrite !final_ask. cbn [Memory.handler fst snd].
      rewrite String.eqb_refl. exact Hup.
    + exact Hup.
Qed.

End Saved.

(** Extra X10.  Against the in-memory backend an accepted submission
    writes one row, and the row the table holds in the end is that row with
    one more attachment for each media item whose uri does not start with
    [http], under the public url of the uploaded file: such an item is in
    the row twice when the row written already holds it under its local
    uri. *)
Theorem saved_row_holds_uploads (c : CreateRouteScreen.Closure) (st : Memory.Store) :
  JS.truthy (CreateRouteScreen.user_id c) = true ->
  JS.blank
    (Backend.FormData.name
       (CreateRouteScreen.formData (CreateRouteScreen.screen c))) = false ->
  exists data,
    Backend.rows (trace Memory.handler (CreateRouteScreen.handleCreate c) st) = [data]
    /\ Memory.row (final Memory.handler (CreateRouteScreen.handleCreate c) st)
       = Some (Memory.withAttachments data
                 (Backend.RouteData.media_attachments data
                  ++ RouteForm.published (RouteForm.savedId c) (Memory.clock st)
                       (filter CreateRouteScreen.isNew
                          (CreateRouteScreen.media (CreateRouteScreen.screen c))))).
Proof.
  intros Hu Hb. unfold CreateRouteScreen.handleCreate, RouteForm.savedId.
  destruct (CreateRouteScreen.user_id c) as [[| a u] |]; try discriminate.
  rewrite Hb.
  destruct (CreateRouteScreen.routeId c) as [[| a' r'] |];
    repeat (progress (rewrite ?trace_ask, ?final_ask;
                      cbn [Memory.handler fst snd Backend.Written.error
                           Backend.Written.data]));
    eexists; (split;
     [ rewrite !rows_cons; cbn [Backend.writtenRow];
       rewrite afterWrite_rows; reflexivity
     | match goal with
       | |- context [final Memory.handler
                       (CreateRouteScreen.afterWrite c (Some ?id)) ?st'] =>
           rewrite (afterWrite_memory c id st' _ eq_refl eq_refl)
       end; reflexivity ]).
Qed.

Lemma saved_row_holds_uploads_witness :
  exists data,
    Backend.rows
      (trace Memory.handler
         (CreateRouteScreen.handleCreate
            (Example.creating
               (Example.screenWith "Evening loop" [Example.A; Example.B]
                  [Example.localA; Example.localNew])))
         Example.empty) = [data]
    /\ Memory.row
         (final Memory.handler
            (CreateRouteScreen.handleCreate
               (Example.creating
                  (Example.screenWith "Evening loop" [Example.A; Example.B]
                     [Example.localA; Example.localNew])))
            Example.empty)
       = Some (Memory.withAttachments data
                 (Backend.RouteData.media_attachments data
                  ++ RouteForm.published "route-1" 1714557600000%N
                       [Example.localNew])).
Proof.
  apply (saved_row_holds_uploads
           (Example.creating
              (Example.screenWith "Evening loop" [Example.A; Example.B]
                 [Example.localA; Example.localNew]))
           Example.empty); reflexivity.
Defined.

(** Extra X11.  An accepted submission without a route id reads nothing
    back: its first calls are the two of the form's own state, two readings
    of the clock and one [insert]; that is the one row it writes, and the
    row holds, for every local media item, whatever its uri, the
    attachment [{type, url: uri, description}] of the item, in the order
    of the items, and the signed-in user as its creator. *)
Theorem create_writes_every_media_item {S : Type} (h : Backend.Handler S) (s : S)
    (c : CreateRouteScreen.Closure) :
  JS.truthy (CreateRouteScreen.user_id c) = true ->
  JS.blank
    (Backend.FormData.name
       (CreateRouteScreen.formData (CreateRouteScreen.screen c))) = false ->
  JS.truthy (CreateRouteScreen.routeId c) = false ->
  exists (data : Backend.RouteData.t) (created : string),
    firstn 5 (calls (trace h (CreateRouteScreen.handleCreate c) s))
    = [ Backend.setLoading true; Backend.setError None; Backend.toISOString;
        Backend.toISOString; Backend.insert data created ]
    /\ Backend.rows (trace h (CreateRouteScreen.handleCreate c) s) = [data]
    /\ Backend.RouteData.media_attachments data
       = map (fun m =>
                MediaUrl.mk (MediaItem.type m) (MediaItem.uri m)
                  (MediaItem.description m))
           (CreateRouteScreen.media (CreateRouteScreen.screen c))
    /\ Some (Backend.RouteData.creator_id data) = CreateRouteScreen.user_id c.
Proof.
  intros Hu Hb Hr.
  destruct (CreateRouteScreen.user_id c) as [[| a u] |] eqn:Eu; try discriminate.
  destruct (create_calls h c s (String a u) Eu ltac:(discriminate) Hb Hr)
    as (t & created & rest & Hc & Hrows).
  exists (CreateRouteScreen.baseRouteData (String a u) (CreateRouteScreen.screen c) t
            (map CreateRouteScreen.attachmentOf
               (CreateRouteScreen.media (CreateRouteScreen.screen c)))), created.
  unfold Backend.rows. rewrite Hc. repeat split.
  rewrite writtenRows_app. cbn [Backend.writtenRows Backend.writtenRow app].
  f_equal. exact Hrows.
Qed.

Lemma create_writes_every_media_item_witness :
  exists (data : Backend.RouteData.t) (created : string),
    firstn 5
      (calls
         (trace Memory.handler
            (CreateRouteScreen.handleCreate
               (Example.creating
                  (Example.screenWith "Evening loop" [Example.A; Example.B]
                     [Example.localA; Example.localNew])))
            Example.empty))
    = [ Backend.setLoading true; Backend.setError None; Backend.toISOString;
        Backend.toISOString; Backend.insert data created ]
    /\ Backend.rows
         (trace Memory.handler
            (CreateRouteScreen.handleCreate
               (Example.creating
                  (Example.screenWith "Evening loop" [Example.A; Example.B]
                     [Example.localA; Example.localNew])))
            Example.empty) = [data]
    /\ Backend.RouteData.media_attachments data
       = map (fun m =>
                MediaUrl.mk (MediaItem.type m) (MediaItem.uri m)
                  (MediaItem.description m))
           [Example.localA; Example.localNew]
    /\ Some (Backend.RouteData.creator_id data) = Some "user-1".
Proof.
  apply (create_writes_every_media_item Memory.handler Example.empty
           (Example.creating
              (Example.screenWith "Evening loop" [Example.A; Example.B]
                 [Example.localA; Example.localNew])));
    reflexivity.
Defined.

(* ===================================================================== *)
(** * Loading a route, and saving what was loaded *)
(* ===================================================================== *)

Section Reload.

Import Backend CreateRouteScreen RouteForm.

Context {S : Type}.
Variable h : Backend.Handler S.

Lemma mediaItems_attachments (attachments : list MediaUrl.t) :
  forall s,
    map attachmentOf (result h (mediaItems attachments) s) = attachments.
Proof.
  induction attachments as [| m rest IH]; intro s.
  - reflexivity.
  - cbn [mediaItems]. rewrite !result_ask, result_bind, result_ret.
    cbn [map]. rewrite IH. destruct m. reflexivity.
Qed.

Lemma mediaItems_reads (attachments : list MediaUrl.t) :
  forall s,
    existsb writes (calls (trace h (mediaItems attachments) s)) = false.
Proof.
  induction attachments as [| m rest IH]; intro s.
  - reflexivity.
  - cbn [mediaItems]. rewrite !trace_ask, trace_bind, trace_ret, app_nil_r.
    cbn [calls map projT1 existsb writes orb]. apply IH.
Qed.

Lemma uris_of_attachments (items : list MediaItem.t) :
  map MediaUrl.url (map attachmentOf items) = map MediaItem.uri items.
Proof. rewrite map_map. reflexivity. Qed.

Lemma filter_all {A} (p : A -> bool) (l : list A) :
  (forall x, In x l -> p x = true) -> filter p l = l.
Proof.
  induction l as [| x l IH]; intro H; [reflexivity |].
  cbn [filter]. rewrite (H x (or_introl eq_refl)). f_equal.
  apply IH. intros y Hy. apply H. now right.
Qed.

Lemma filter_none {A} (p : A -> bool) (l : list A) :
  (forall x, In x l -> p x = false) -> filter p l = [].
Proof.
  induction l as [| x l IH]; intro H; [reflexivity |].
  cbn [filter]. rewrite (H x (or_introl eq_refl)).
  apply IH. intros y Hy. apply H. now right.
Qed.

(** Media whose uris are all urls of stored attachments add nothing: the
    row keeps the stored attachments that are still among them. *)
Lemma reconcile_known (stored : list MediaUrl.t) (media : list MediaItem.t) :
  incl (map MediaItem.uri media) (map MediaUrl.url stored) ->
  reconcile stored media
  = filter (fun m => JS.includes (map MediaItem.uri media) (MediaUrl.url m)) stored.
Proof.
  intro H. unfold reconcile. rewrite (filter_none _ media), app_nil_r.
  - reflexivity.
  - intros x Hx. apply andb_false_iff. left. apply negb_false_iff.
    apply includes_In, H, in_map, Hx.
Qed.

Lemma filter_all_from {A} (l : list A) :
  forall k index,
    (index < k)%nat ->
    JS.filteri_from k (fun _ i => negb (i =? index)%nat) l = l.
Proof.
  induction l as [| x l IH]; intros k index H; [reflexivity |].
  cbn [JS.filteri_from].
  replace (k =? index)%nat with false by (symmetry; apply Nat.eqb_neq; lia).
  cbn [negb]. f_equal. apply IH. lia.
Qed.

Lemma filteri_without {A} (index : nat) (l : list A) :
  forall k,
    JS.filteri_from k (fun _ i => negb (i =? k + index)%nat) l = without index l.
Proof.
  revert index. induction l as [| x l IH]; intros index k.
  - unfold without. destruct index; reflexivity.
  - cbn [JS.filteri_from]. destruct index as [| index].
    + rewrite Nat.add_0_r, Nat.eqb_refl. cbn [negb].
      unfold without. cbn [firstn skipn app].
      rewrite (filter_all_from l (Datatypes.S k) k); [reflexivity | lia].
    + replace (k =? k + Datatypes.S index)%nat with false
        by (symmetry; apply Nat.eqb_neq; lia).
      cbn [negb]. change (without (Datatypes.S index) (x :: l))
        with (x :: without index l). f_equal.
      rewrite <- (IH index (Datatypes.S k)).
      replace (Datatypes.S k + index)%nat with (k + Datatypes.S index)%nat by lia.
      reflexivity.
Qed.

Lemma filteri_removes {A} (index : nat) (l : list A) :
  JS.filteri (fun _ i => negb (i =? index)%nat) l = without index l.
Proof. exact (filteri_without index l 0). Qed.

Lemma without_incl {A} (l : list A) :
  forall index, incl (without index l) l.
Proof.
  induction l as [| x l IH]; intros index y Hy.
  - destruct index; exact Hy.
  - destruct index as [| index].
    + right. exact Hy.
    + change (In y (x :: without index l)) in Hy.
      destruct Hy as [-> | Hy]; [now left | right; apply (IH index), Hy].
Qed.

Lemma map_without {A B} (f : A -> B) (index : nat) (l : list A) :
  map f (without index l) = without index (map f l).
Proof.
  unfold without. rewrite map_app, firstn_map, skipn_map. reflexivity.
Qed.

Lemma without_beyond {A} (index : nat) (l : list A) :
  (List.length l <= index)%nat -> without index l = l.
Proof.
  intro H. unfold without.
  rewrite firstn_all2 by exact H. rewrite skipn_all2 by lia. apply app_nil_r.
Qed.

(** With urls that differ, the stored attachments whose url is left after
    the removal of one are the stored attachments without that one. *)
Lemma keep_without (l : list MediaUrl.t) :
  forall index,
    NoDup (map MediaUrl.url l) ->
    filter (fun m => JS.includes (without index (map MediaUrl.url l)) (MediaUrl.url m)) l
    = without index l.
Proof.
  induction l as [| x l IH]; intros index H.
  - unfold without. destruct index; reflexivity.
  - cbn [map] in H. inversion H as [| u us Hx Hl]; subst.
    destruct index as [| index].
    + change (without 0 (map MediaUrl.url (x :: l))) with (map MediaUrl.url l).
      change (without 0 (x :: l)) with l.
      cbn [filter].
      destruct (JS.includes (map MediaUrl.url l) (MediaUrl.url x)) eqn:E.
      * apply includes_In in E. contradiction.
      * apply filter_all. intros y Hy. apply includes_In, in_map, Hy.
    + change (without (Datatypes.S index) (map MediaUrl.url (x :: l)))
        with (MediaUrl.url x :: without index (map MediaUrl.url l)).
      change (without (Datatypes.S index) (x :: l)) with (x :: without index l).
      cbn [filter]. unfold JS.includes at 1. cbn [existsb].
      rewrite String.eqb_refl. cbn [orb]. f_equal.
      rewrite <- (IH index Hl). apply filter_ext_in.
      intros y Hy. unfold JS.includes. cbn [existsb].
      replace (String.eqb (MediaUrl.url y) (MediaUrl.url x)) with false;
        [reflexivity |].
      symmetry. apply String.eqb_neq. intro E. apply Hx. rewrite <- E.
      apply in_map, Hy.
Qed.

End Reload.

(** Extra X12.  The media items [loadRouteData] makes of the stored
    attachments stand for exactly these attachments, and a submission of
    them as loaded writes the stored attachments back, in order and without
    a new one. *)
Theorem reload_media_round_trip {S : Type} (h : Backend.Handler S) (s : S)
    (stored : list MediaUrl.t) :
  map CreateRouteScreen.attachmentOf
    (result h (CreateRouteScreen.mediaItems stored) s) = stored
  /\ CreateRouteScreen.reconcile stored
       (result h (CreateRouteScreen.mediaItems stored) s) = stored.
Proof.
  split; [apply mediaItems_attachments |].
  rewrite reconcile_known.
  - apply filter_all. intros m Hm. apply includes_In.
    rewrite <- uris_of_attachments, mediaItems_attachments.
    apply in_map, Hm.
  - rewrite <- uris_of_attachments, mediaItems_attachments. apply incl_refl.
Qed.

(** Extra X13.  When the urls of the stored attachments differ from one
    another, removing the media item at [index] from the media as loaded
    and submitting drops the stored attachment at [index] and nothing else;
    an index beyond the list removes nothing. *)
Theorem reload_remove_drops_one {S : Type} (h : Backend.Handler S) (s : S)
    (stored : list MediaUrl.t) (index : nat) (scr : CreateRouteScreen.Screen) :
  NoDup (map MediaUrl.url stored) ->
  CreateRouteScreen.media scr = result h (CreateRouteScreen.mediaItems stored) s ->
  CreateRouteScreen.reconcile stored
    (CreateRouteScreen.media (CreateRouteScreen.handleRemoveMedia index scr))
  = RouteForm.without index stored
  /\ ((List.length stored <= index)%nat ->
      CreateRouteScreen.handleRemoveMedia index scr = scr).
Proof.
  intros Hd Hm. unfold CreateRouteScreen.handleRemoveMedia.
  rewrite filteri_removes. split.
  - cbn [CreateRouteScreen.media CreateRouteScreen.setMedia].
    rewrite reconcile_known.
    + rewrite map_without, Hm, <- uris_of_attachments, mediaItems_attachments.
      apply keep_without, Hd.
    + rewrite map_without, Hm, <- uris_of_attachments, mediaItems_attachments.
      apply without_incl.
  - intro Hl. rewrite without_beyond.
    + destruct scr. reflexivity.
    + rewrite <- (length_map CreateRouteScreen.attachmentOf), Hm,
        mediaItems_attachments. exact Hl.
Qed.

Lemma reload_remove_drops_one_witness :
  CreateRouteScreen.reconcile [Example.a; Example.b]
    (CreateRouteScreen.media
       (CreateRouteScreen.handleRemoveMedia 0
          (CreateRouteScreen.setMedia
             (result Memory.handler
                (CreateRouteScreen.mediaItems [Example.a; Example.b])
                Example.stored)
             CreateRouteScreen.initial)))
  = [Example.b].
Proof.
  apply (reload_remove_drops_one Memory.handler Example.stored
           [Example.a; Example.b] 0
           (CreateRouteScreen.setMedia
              (result Memory.handler
                 (CreateRouteScreen.mediaItems [Example.a; Example.b])
                 Example.stored)
              CreateRouteScreen.initial)).
  - repeat constructor; cbn; intuition discriminate.
  - reflexivity.
Defined.

Section Fields.

Import Backend CreateRouteScreen RouteForm.

Lemma orString_empty (x : string) : orString (Some x) EmptyString = x.
Proof. destruct x; reflexivity. Qed.

Lemma orString_self (x fallback : string) :
  fallback <> EmptyString ->
  (orString (Some x) fallback = x <-> x <> EmptyString).
Proof.
  intro H. destruct x as [| a r]; cbn [orString].
  - split; [intro E; contradiction | intro E; now elim E].
  - split; [discriminate | reflexivity].
Qed.

Lemma loaded_formData (route : Row.t) (items : option (list MediaItem.t))
    (s : Screen) :
  formData (loaded route items s)
  = {| FormData.name := orString (Row.name route) EmptyString;
       FormData.description := orString (Row.description route) EmptyString;
       FormData.difficulty := orString (Row.difficulty route) "beginner";
       FormData.spot_type := orString (Row.spot_type route) "urban";
       FormData.visibility := orString (Row.visibility route) "public";
       FormData.best_season := orString (Row.best_season route) "all";
       FormData.best_times := orString (Row.best_times route) "anytime";
       FormData.vehicle_types :=
         match Row.vehicle_types route with
         | Some v => v
         | None => ["passenger_car"]
         end;
       FormData.activity_level := orString (Row.activity_level route) "moderate";
       FormData.spot_subtype := orString (Row.spot_subtype route) "standard";
       FormData.transmission_type := orString (Row.transmission_type route) "both";
       FormData.category := orString (Row.category route) "parking" |}.
Proof.
  unfold loaded.
  destruct (Row.waypoint_details route) as [details |];
    [destruct (waypointsOf details) |];
    destruct (Row.exercises route), items; reflexivity.
Qed.

Lemma details_stable (ws : list Waypoint.t) :
  forall k,
    JS.mapi_from k
      (fun wp index =>
         {| WaypointData.lat := Waypoint.latitude wp;
            WaypointData.lng := Waypoint.longitude wp;
            WaypointData.title :=
              if JS.truthy (Some (Waypoint.title wp)) then Waypoint.title wp
              else waypointLabel (index + 1);
            WaypointData.description := Waypoint.description wp |})
      (waypointsOf
         (JS.mapi_from k
            (fun wp index =>
               {| WaypointData.lat := Waypoint.latitude wp;
                  WaypointData.lng := Waypoint.longitude wp;
                  WaypointData.title :=
                    if JS.truthy (Some (Waypoint.title wp)) then Waypoint.title wp
                    else waypointLabel (index + 1);
                  WaypointData.description := Waypoint.description wp |})
            ws))
    = JS.mapi_from k
        (fun wp index =>
           {| WaypointData.lat := Waypoint.latitude wp;
              WaypointData.lng := Waypoint.longitude wp;
              WaypointData.title :=
                if JS.truthy (Some (Waypoint.title wp)) then Waypoint.title wp
                else waypointLabel (index + 1);
              WaypointData.description := Waypoint.description wp |})
        ws.
Proof.
  induction ws as [| wp ws IH]; intro k; [reflexivity |].
  cbn [JS.mapi_from waypointsOf map]. fold (waypointsOf).
  f_equal; [| apply IH].
  cbn [Waypoint.latitude Waypoint.longitude Waypoint.title Waypoint.description
       WaypointData.lat WaypointData.lng WaypointData.title
       WaypointData.description].
  destruct (JS.truthy (Some (Waypoint.title wp))) eqn:E.
  - rewrite E. reflexivity.
  - reflexivity.
Qed.

End Fields.

(** Extra X14.  Of the fields of the form read back from a row that
    [handleCreate] wrote, the name, the description and the vehicle types
    are the ones written; each of the nine fields that [loadRouteData]
    reads with a default other than the empty string is the one written
    when that is not empty, and its default when it is: [beginner],
    [urban], [public], [all], [anytime], [moderate], [standard], [both]
    and [parking].  So the fields come back as they were written exactly
    when each of the nine holds a choice. *)
Theorem form_fields_round_trip (user updated_at : string) (m : list MediaUrl.t)
    (items : option (list MediaItem.t)) (s s0 : CreateRouteScreen.Screen) :
  let f := CreateRouteScreen.formData s in
  let back :=
    CreateRouteScreen.formData
      (CreateRouteScreen.loaded
         (Memory.rowOf (CreateRouteScreen.baseRouteData user s updated_at m))
         items s0) in
  let orDefault (written fallback : string) :=
    match written with
    | EmptyString => fallback
    | _ => written
    end in
  Backend.FormData.name back = Backend.FormData.name f
  /\ Backend.FormData.description back = Backend.FormData.description f
  /\ Backend.FormData.vehicle_types back = Backend.FormData.vehicle_types f
  /\ Backend.FormData.difficulty back
     = orDefault (Backend.FormData.difficulty f) "beginner"
  /\ Backend.FormData.spot_type back
     = orDefault (Backend.FormData.spot_type f) "urban"
  /\ Backend.FormData.visibility back
     = orDefault (Backend.FormData.visibility f) "public"
  /\ Backend.FormData.best_season back
     = orDefault (Backend.FormData.best_season f) "all"
  /\ Backend.FormData.best_times back
     = orDefault (Backend.FormData.best_times f) "anytime"
  /\ Backend.FormData.activity_level back
     = orDefault (Backend.FormData.activity_level f) "moderate"
  /\ Backend.FormData.spot_subtype back
     = orDefault (Backend.FormData.spot_subtype f) "standard"
  /\ Backend.FormData.transmission_type back
     = orDefault (Backend.FormData.transmission_type f) "both"
  /\ Backend.FormData.category back
     = orDefault (Backend.FormData.category f) "parking"
  /\ (back = f <-> RouteForm.filledIn f).
Proof.
  cbv zeta. rewrite loaded_formData. unfold RouteForm.filledIn.
  destruct (CreateRouteScreen.formData s) as
    [name description difficulty spot_type visibility best_season best_times
       vehicle_types activity_level spot_subtype transmission_type category]
    eqn:Ef.
  unfold Memory.rowOf, CreateRouteScreen.baseRouteData. rewrite Ef.
  cbn [Backend.Row.name Backend.Row.description Backend.Row.difficulty
       Backend.Row.spot_type Backend.Row.visibility Backend.Row.best_season
       Backend.Row.best_times Backend.Row.vehicle_types
       Backend.Row.activity_level Backend.Row.spot_subtype
       Backend.Row.transmission_type Backend.Row.category
       Backend.RouteData.name Backend.RouteData.description
       Backend.RouteData.difficulty Backend.RouteData.spot_type
       Backend.RouteData.visibility Backend.RouteData.best_season
       Backend.RouteData.best_times Backend.RouteData.vehicle_types
       Backend.RouteData.activity_level Backend.RouteData.spot_subtype
       Backend.RouteData.transmission_type Backend.RouteData.category
       Backend.FormData.name Backend.FormData.description
       Backend.FormData.difficulty Backend.FormData.spot_type
       Backend.FormData.visibility Backend.FormData.best_season
       Backend.FormData.best_times Backend.FormData.vehicle_types
       Backend.FormData.activity_level Backend.FormData.spot_subtype
       Backend.FormData.transmission_type Backend.FormData.category].
  rewrite !orString_empty.
  assert (D : forall x fallback : string,
             CreateRouteScreen.orString (Some x) fallback
             = match x with
               | EmptyString => fallback
               | _ => x
               end)
    by (intros [| a r] fallback; reflexivity).
  do 3 (split; [reflexivity |]).
  do 9 (split; [apply D |]).
  split.
  - intro H. injection H as H1 H2 H3 H4 H5 H6 H7 H8 H9.
    repeat split; intro E; subst; discriminate.
  - intros (H1 & H2 & H3 & H4 & H5 & H6 & H7 & H8 & H9).
    f_equal;
      match goal with
      | |- CreateRouteScreen.orString (Some ?x) ?fallback = ?x =>
          apply (orString_self x fallback); [discriminate | assumption]
      end.
Qed.

(** Extra X15.  A list of waypoints that was saved and loaded is saved
    again as it was saved the first time: the titles the first save filled
    in are kept, and a second load gives the same waypoints. *)
Theorem waypoints_stable_after_reload (ws : list Waypoint.t) :
  CreateRouteScreen.waypointDetails
    (CreateRouteScreen.waypointsOf (CreateRouteScreen.waypointDetails ws))
  = CreateRouteScreen.waypointDetails ws
  /\ CreateRouteScreen.waypointsOf
       (CreateRouteScreen.waypointDetails
          (CreateRouteScreen.waypointsOf (CreateRouteScreen.waypointDetails ws)))
     = CreateRouteScreen.waypointsOf (CreateRouteScreen.waypointDetails ws).
Proof.
  assert (H : CreateRouteScreen.waypointDetails
                (CreateRouteScreen.waypointsOf (CreateRouteScreen.waypointDetails ws))
              = CreateRouteScreen.waypointDetails ws)
    by apply (details_stable ws 0).
  split; [exact H | now rewrite H].
Qed.

Section Loaded.

Import Backend CreateRouteScreen.

Lemma loaded_error (route : Row.t) (items : option (list MediaItem.t)) (s : Screen) :
  error (loaded route items s) = error s.
Proof.
  unfold loaded.
  destruct (Row.waypoint_details route) as [details |];
    [destruct (waypointsOf details) |];
    destruct (Row.exercises route), items; reflexivity.
Qed.

Lemma loaded_media (route : Row.t) (items : option (list MediaItem.t)) (s : Screen) :
  media (loaded route items s)
  = match items with
    | Some m => m
    | None => media s
    end.
Proof.
  unfold loaded.
  destruct (Row.waypoint_details route) as [details |];
    [destruct (waypointsOf details) |];
    destruct (Row.exercises route), items; reflexivity.
Qed.

End Loaded.

(** Extra X16.  [loadRouteData] reads and never writes.  When the read
    fails it logs, sets the error message of the form and leaves the rest
    of the form as it is; when the read finds no row it changes nothing;
    when it finds a row, the media of the form stand for the attachments
    of the row, or stay when the row has none. *)
Theorem load_reads_only {S : Type} (h : Backend.Handler S) (s : S) (id : string)
    (scr : CreateRouteScreen.Screen) :
  existsb Backend.writes (calls (trace h (CreateRouteScreen.loadRouteData id) s))
  = false
  /\ (Backend.Selected.error (fst (h (Backend.select_all id) s)) <> None ->
      calls (trace h (CreateRouteScreen.loadRouteData id) s)
      = [Backend.select_all id; Backend.console_error "Error loading route:"]
      /\ result h (CreateRouteScreen.loadRouteData id) s scr
         = CreateRouteScreen.setScreenError (Some "Failed to load route data") scr)
  /\ (Backend.Selected.error (fst (h (Backend.select_all id) s)) = None ->
      Backend.Selected.data (fst (h (Backend.select_all id) s)) = None ->
      calls (trace h (CreateRouteScreen.loadRouteData id) s) = [Backend.select_all id]
      /\ result h (CreateRouteScreen.loadRouteData id) s scr = scr)
  /\ (forall route,
         Backend.Selected.error (fst (h (Backend.select_all id) s)) = None ->
         Backend.Selected.data (fst (h (Backend.select_all id) s)) = Some route ->
         CreateRouteScreen.error (result h (CreateRouteScreen.loadRouteData id) s scr)
         = CreateRouteScreen.error scr
         /\ match Backend.Row.media_attachments route with
            | Some attachments =>
                map CreateRouteScreen.attachmentOf
                  (CreateRouteScreen.media
                     (result h (CreateRouteScreen.loadRouteData id) s scr))
                = attachments
            | None =>
                CreateRouteScreen.media
                  (result h (CreateRouteScreen.loadRouteData id) s scr)
                = CreateRouteScreen.media scr
            end).
Proof.
  unfold CreateRouteScreen.loadRouteData. rewrite trace_ask, result_ask.
  destruct (h (Backend.select_all id) s) as [[data [e |]] s1];
    cbn [fst snd Backend.Selected.error Backend.Selected.data].
  - rewrite trace_ask, result_ask, trace_ret, result_ret.
    split; [reflexivity |]. split; [intros _; split; reflexivity |].
    split; [discriminate |]. intros route F. discriminate.
  - destruct data as [route |].
    + split; [| split; [intro F; now elim F |
                        split; [intros _ F; discriminate |]]].
      * destruct (Backend.Row.media_attachments route) as [attachments |].
        -- rewrite trace_bind, trace_ret, app_nil_r. apply mediaItems_reads.
        -- rewrite trace_ret. reflexivity.
      * intros route0 _ E. injection E as <-.
        destruct (Backend.Row.media_attachments route) as [attachments |].
        -- rewrite result_bind, result_ret, loaded_error, loaded_media.
           split; [reflexivity | apply mediaItems_attachments].
        -- rewrite result_ret, loaded_error, loaded_media.
           split; reflexivity.
    + rewrite trace_ret, result_ret.
      split; [reflexivity |]. split; [intro F; now elim F |].
      split; [intros _ _; split; reflexivity |]. intros route _ F. discriminate.
Qed.

(* ===================================================================== *)
(** * The lists of the form *)
(* ===================================================================== *)

Section Lists.

Import Backend CreateRouteScreen RouteForm.

Lemma without_last {A} (l : list A) (x : A) :
  without (List.length l) (l ++ [x]) = l.
Proof.
  unfold without. rewrite firstn_app, Nat.sub_diag, firstn_all. cbn [firstn].
  rewrite skipn_all2 by (rewrite length_app; cbn; lia).
  now rewrite !app_nil_r.
Qed.

Lemma setMedia_same (s : Screen) : setMedia (media s) s = s.
Proof. destruct s. reflexivity. Qed.

Lemma setWaypoints_same (s : Screen) : setWaypoints (waypoints s) s = s.
Proof. destruct s. reflexivity. Qed.

End Lists.

(** Extra X17.  [handleRemoveMedia] takes the item at the index out of the
    media and keeps the others in order.  [handleAddMedia] reads the clock
    once and appends one item, which stands for an attachment of the type
    and uri given, without a description; removing the item at the index
    it was added at gives the form back as it was. *)
Theorem media_add_then_remove {S : Type} (h : Backend.Handler S) (s : S)
    (type : MediaType) (uri : string) (index : nat)
    (scr : CreateRouteScreen.Screen) :
  CreateRouteScreen.media (CreateRouteScreen.handleRemoveMedia index scr)
  = RouteForm.without index (CreateRouteScreen.media scr)
  /\ calls (trace h (RouteForm.handleAddMedia type uri) s) = [Backend.Date_now]
  /\ map CreateRouteScreen.attachmentOf
       (CreateRouteScreen.media (result h (RouteForm.handleAddMedia type uri) s scr))
     = map CreateRouteScreen.attachmentOf (CreateRouteScreen.media scr)
       ++ [MediaUrl.mk type uri None]
  /\ CreateRouteScreen.handleRemoveMedia
       (List.length (CreateRouteScreen.media scr))
       (result h (RouteForm.handleAddMedia type uri) s scr)
     = scr.
Proof.
  unfold RouteForm.handleAddMedia, CreateRouteScreen.handleRemoveMedia.
  rewrite !filteri_removes, trace_ask, result_ask, trace_ret, result_ret.
  split; [reflexivity |]. split; [reflexivity |]. split.
  - cbn [CreateRouteScreen.media CreateRouteScreen.setMedia].
    rewrite map_app. reflexivity.
  - cbn [CreateRouteScreen.media CreateRouteScreen.setMedia].
    rewrite without_last. destruct scr. reflexivity.
Qed.

(** Extra X18.  The button that removes the last waypoint undoes an
    addition: after a tap on the map, a device location or a search
    selection, either the addition added nothing, or removing the last
    waypoint gives the waypoints from before.  On a form without waypoints
    the button changes nothing. *)
Theorem removeLast_undoes_addition {S : Type} (h : Location.Handler S) (e : S)
    (a : CreateRouteScreen.Addition) (s : CreateRouteScreen.Screen) :
  (CreateRouteScreen.waypoints (CreateRouteScreen.add h e a s)
   = CreateRouteScreen.waypoints s
   \/ CreateRouteScreen.waypoints
        (CreateRouteScreen.removeLast (CreateRouteScreen.add h e a s))
      = CreateRouteScreen.waypoints s)
  /\ (CreateRouteScreen.waypoints s = [] -> CreateRouteScreen.removeLast s = s).
Proof.
  split.
  - unfold CreateRouteScreen.removeLast.
    cbn [CreateRouteScreen.waypoints CreateRouteScreen.setWaypoints].
    destruct a as [[lat lng] | | r].
    + right. rewrite (proj1 (tap_adds h s lat lng e)). apply removelast_last.
    + pose proof (locate_adds h s e) as H.
      destruct (fst (h Location.getCurrentPositionAsync e)) as [position |].
      * destruct (fst (h (Location.reverseGeocodeAsync _) _)) as [addresses |].
        -- right. rewrite (proj1 H). apply removelast_last.
        -- left. apply H.
      * left. apply H.
    + cbn [CreateRouteScreen.add].
      destruct (Search.coords r) as [c |] eqn:E.
      * right. rewrite (selection_adds s r c E). apply removelast_last.
      * left. unfold CreateRouteScreen.handleLocationSelect. rewrite E.
        reflexivity.
  - intro H. unfold CreateRouteScreen.removeLast. rewrite H.
    cbn [removelast]. rewrite <- H. apply setWaypoints_same.
Qed.

(** Extra X19.  [handleAddExercise] does nothing without a title: no call,
    the exercises and the draft stay.  With a title it reads the clock
    once, appends one exercise with the time read as its id and empties the
    draft.  [handleRemoveExercise] removes every exercise with the id
    given: removing by the id of the exercise just added removes it, and
    with it any older exercise that has the same id; when no older exercise
    has that id, the exercises are as before the addition. *)
Theorem exercise_add_then_remove {S : Type} (h : Backend.Handler S) (s : S)
    (newExercise : RouteForm.NewExercise) (exercises : list Exercise.t) :
  (JS.truthy (RouteForm.title newExercise) = false ->
   trace h (RouteForm.handleAddExercise newExercise exercises) s = []
   /\ result h (RouteForm.handleAddExercise newExercise exercises) s
      = (exercises, newExercise))
  /\ (JS.truthy (RouteForm.title newExercise) = true ->
      calls (trace h (RouteForm.handleAddExercise newExercise exercises) s)
      = [Backend.Date_now]
      /\ (exists added,
             fst (result h (RouteForm.handleAddExercise newExercise exercises) s)
             = exercises ++ [added]
             /\ Exercise.id added = JS.decimalN (fst (h Backend.Date_now s))
             /\ Some (Exercise.title added) = RouteForm.title newExercise)
      /\ snd (result h (RouteForm.handleAddExercise newExercise exercises) s)
         = RouteForm.noExercise
      /\ RouteForm.handleRemoveExercise
           (JS.decimalN (fst (h Backend.Date_now s)))
           (fst (result h (RouteForm.handleAddExercise newExercise exercises) s))
         = RouteForm.handleRemoveExercise
             (JS.decimalN (fst (h Backend.Date_now s))) exercises
      /\ ((forall ex, In ex exercises ->
                      Exercise.id ex <> JS.decimalN (fst (h Backend.Date_now s))) ->
          RouteForm.handleRemoveExercise
            (JS.decimalN (fst (h Backend.Date_now s)))
            (fst (result h (RouteForm.handleAddExercise newExercise exercises) s))
          = exercises)).
Proof.
  unfold RouteForm.handleAddExercise.
  destruct (RouteForm.title newExercise) as [[| a r] |]; cbn [JS.truthy].
  - split; [intros _; split; reflexivity | discriminate].
  - split; [discriminate | intros _].
    rewrite trace_ask, result_ask, trace_ret, result_ret. cbn [fst snd].
    assert (R : RouteForm.handleRemoveExercise
                  (JS.decimalN (fst (h Backend.Date_now s)))
                  (exercises
                   ++ [ {| Exercise.id := JS.decimalN (fst (h Backend.Date_now s));
                           Exercise.title := String a r;
                           Exercise.description :=
                             CreateRouteScreen.orString
                               (RouteForm.description newExercise) EmptyString;
                           Exercise.duration := RouteForm.duration newExercise;
                           Exercise.repetitions :=
                             RouteForm.repetitions newExercise |} ])
                = RouteForm.handleRemoveExercise
                    (JS.decimalN (fst (h Backend.Date_now s))) exercises).
    { unfold RouteForm.handleRemoveExercise. rewrite filter_app.
      cbn [filter Exercise.id]. rewrite String.eqb_refl. cbn [negb].
      apply app_nil_r. }
    split; [reflexivity |]. split; [eexists; repeat split; reflexivity |].
    split; [reflexivity |]. split; [exact R |].
    intro F. rewrite R. unfold RouteForm.handleRemoveExercise.
    apply filter_all. intros ex Hex. apply negb_true_iff, String.eqb_neq, F, Hex.
  - split; [intros _; split; reflexivity | discriminate].
Qed.

(** Extra X20.  [handleDelete] does nothing without a route id.  With one
    it asks first; [Cancel] ends it there.  [Delete] issues one deletion
    between [setLoading(true)] and [setLoading(false)]; it navigates back
    exactly when the deletion succeeded and sets the error message of the
    form exactly when it failed. *)
Theorem delete_asks_first {S : Type} (h : Backend.Handler S) (s : S)
    (c : CreateRouteScreen.Closure) (pressed : RouteForm.Choice) :
  (JS.truthy (CreateRouteScreen.routeId c) = false ->
   trace h (RouteForm.handleDelete c pressed) s = [])
  /\ (forall id,
         CreateRouteScreen.routeId c = Some id ->
         JS.truthy (Some id) = true ->
         calls (trace h (RouteForm.handleDelete c pressed) s)
         = Backend.Alert_alert "Delete Route"
             "Are you sure you want to delete this route? This action cannot be undone."
           :: match pressed with
              | RouteForm.Cancel => []
              | RouteForm.Delete =>
                  [ Backend.setLoading true;
                    Backend.delete id;
                    if existsb RouteForm.deleteFailed
                         (trace h (RouteForm.handleDelete c pressed) s)
                    then Backend.setError (Some "Failed to delete route")
                    else Backend.goBack;
                    Backend.setLoading false ]
              end).
Proof.
  unfold RouteForm.handleDelete.
  destruct (CreateRouteScreen.routeId c) as [[| a r] |]; cbn [JS.truthy].
  - split; [reflexivity | intros id E; injection E as <-; discriminate].
  - split; [discriminate | intros id E _; injection E as <-].
    rewrite trace_ask. destruct pressed.
    + rewrite trace_ret. reflexivity.
    + rewrite !trace_ask, trace_bind.
      destruct (h (Backend.Alert_alert _ _) s) as [[] s1]. cbn [fst snd].
      destruct (h (Backend.setLoading true) s1) as [[] s2]. cbn [fst snd].
      destruct (h (Backend.delete (String a r)) s2) as [[e |] s3]; cbn [fst snd];
        unfold Backend.ask, call; rewrite !trace_vis, !trace_ret; reflexivity.
  - split; [reflexivity | discriminate].
Qed.

Section Titles.

Import CreateRouteScreen RouteForm.

Lemma chars_app (a b : string) : chars (a ++ b) = chars a ++ chars b.
Proof. induction a as [| x a IH]; [reflexivity | cbn; now rewrite IH]. Qed.

Lemma append_nil_r (s : string) : (s ++ EmptyString)%string = s.
Proof. induction s as [| a s IH]; [reflexivity | cbn; now rewrite IH]. Qed.

Lemma append_assoc (a b c : string) :
  ((a ++ b) ++ c)%string = (a ++ (b ++ c))%string.
Proof. induction a as [| x a IH]; [reflexivity | cbn; now rewrite IH]. Qed.

Lemma lastPiece_clean (sep : ascii) (s : string) :
  forall acc,
    ~ In sep (chars acc) -> ~ In sep (chars (lastPiece sep acc s)).
Proof.
  induction s as [| a s IH]; intros acc H; cbn [lastPiece].
  - exact H.
  - destruct (Ascii.eqb a sep) eqn:E.
    + apply IH. intros [].
    + apply IH. rewrite chars_app. intro F. apply in_app_or in F.
      destruct F as [F | [F | []]]; [now apply H |].
      subst a. rewrite Ascii.eqb_refl in E. discriminate.
Qed.

Lemma lastPiece_suffix (sep : ascii) (s : string) :
  forall acc,
    exists front, (acc ++ s)%string = (front ++ lastPiece sep acc s)%string.
Proof.
  induction s as [| a s IH]; intro acc; cbn [lastPiece].
  - exists EmptyString. now rewrite append_nil_r.
  - destruct (Ascii.eqb a sep).
    + destruct (IH EmptyString) as [front Hf]. cbn [String.append] in Hf.
      exists (acc ++ String a front)%string.
      rewrite append_assoc. cbn [String.append]. now rewrite <- Hf.
    + destruct (IH (acc ++ String a EmptyString)%string) as [front Hf].
      exists front. rewrite <- Hf, append_assoc. reflexivity.
Qed.

Lemma lastPiece_whole (sep : ascii) (s : string) :
  forall acc,
    ~ In sep (chars s) -> lastPiece sep acc s = (acc ++ s)%string.
Proof.
  induction s as [| a s IH]; intros acc H; cbn [lastPiece].
  - now rewrite append_nil_r.
  - destruct (Ascii.eqb a sep) eqn:E.
    + apply Ascii.eqb_eq in E. subst a. elim H. now left.
    + rewrite IH, append_assoc; [reflexivity |].
      intro F. apply H. now right.
Qed.

End Titles.

(** Extra X21.  The piece of a string after its last separator, as the
    form takes the file name of a uri and the extension of a file name:
    it holds no separator, the string ends with it, and it is the whole
    string when the string holds no separator.  With a fallback that is
    not empty the name or extension taken is not empty. *)
Theorem last_piece_has_no_separator (sep : ascii) (s fallback : string) :
  ~ In sep (RouteForm.chars (CreateRouteScreen.lastPiece sep EmptyString s))
  /\ (exists front,
         s = (front ++ CreateRouteScreen.lastPiece sep EmptyString s)%string)
  /\ (~ In sep (RouteForm.chars s) ->
      CreateRouteScreen.lastPiece sep EmptyString s = s)
  /\ (CreateRouteScreen.popOr sep s fallback
      = match CreateRouteScreen.lastPiece sep EmptyString s with
        | EmptyString => fallback
        | piece => piece
        end)
  /\ (fallback <> EmptyString ->
      CreateRouteScreen.popOr sep s fallback <> EmptyString).
Proof.
  split; [apply lastPiece_clean; intros [] |].
  split; [apply (lastPiece_suffix sep s EmptyString) |].
  split; [apply (lastPiece_whole sep s EmptyString) |].
  unfold CreateRouteScreen.popOr.
  destruct (CreateRouteScreen.lastPiece sep EmptyString s) as [| a r];
    cbn [JS.truthy]; split; try reflexivity; try discriminate.
  intro H. exact H.
Qed.

(** Extra X22.  The title the form makes of an address is empty exactly
    when the address has no street, no city and no country; a part that is
    present alone is the title. *)
Theorem title_empty_iff_no_part (street city country : option string) :
  (CreateRouteScreen.titleOf street city country = EmptyString
   <-> JS.truthy street = false /\ JS.truthy city = false
       /\ JS.truthy country = false)
  /\ (JS.truthy city = false -> JS.truthy country = false ->
      forall part, street = Some part ->
                   CreateRouteScreen.titleOf street city country = part).
Proof.
  unfold CreateRouteScreen.titleOf, JS.join. split.
  - destruct street as [[| a1 r1] |], city as [[| a2 r2] |],
      country as [[| a3 r3] |];
      cbn [JS.filterBoolean JS.truthy String.concat String.append];
      split; try reflexivity; try discriminate; try tauto;
      intros (H1 & H2 & H3); discriminate.
  - intros Hc Hk part ->.
    destruct city as [[| a2 r2] |], country as [[| a3 r3] |]; try discriminate;
      destruct part; reflexivity.
Qed.

(* ===================================================================== *)
(** * The location handlers of the map screen *)
(* ===================================================================== *)

Lemma centre_shown (lat lng : Q) :
  Region.shows (Region.mk lat lng 0.01 0.01) lat lng.
Proof.
  unfold Region.shows.
  cbn [Region.latitude Region.longitude Region.latitudeDelta Region.longitudeDelta].
  unfold Qdiv. change (/ 2) with (1 # 2). repeat split; lra.
Qed.

(** Extra X23.  Selecting a search result on the map screen does nothing
    when the result has no coordinates.  Otherwise it centres the map on
    the result, with the viewport the form takes for the same selection,
    hides the result list and keeps its entries; it adds no waypoint and
    issues no call, and the text it puts in the search box is empty when
    the result has no street, city or country. *)
Theorem map_selection_recentres (result : Search.SearchResult)
    (s : MapSearch.Screen) (scr : CreateRouteScreen.Screen) :
  (Search.coords result = None -> MapSearch.handleLocationSelect result s = s)
  /\ (forall p,
         Search.coords result = Some p ->
         Region.shows (MapSearch.region (MapSearch.handleLocationSelect result s))
           (Location.latitude p) (Location.longitude p)
         /\ MapSearch.region (MapSearch.handleLocationSelect result s)
            = CreateRouteScreen.region
                (CreateRouteScreen.handleLocationSelect result scr)
         /\ Search.searchResults
              (MapSearch.search (MapSearch.handleLocationSelect result s))
            = Search.searchResults (MapSearch.search s)
         /\ Search.showSearchResults
              (MapSearch.search (MapSearch.handleLocationSelect result s))
            = false
         /\ Search.searchTimeout
              (MapSearch.search (MapSearch.handleLocationSelect result s))
            = Search.searchTimeout (MapSearch.search s)
         /\ (JS.truthy (Search.street result) = false ->
             JS.truthy (Search.city result) = false ->
             JS.truthy (Search.country result) = false ->
             Search.searchQuery
               (MapSearch.search (MapSearch.handleLocationSelect result s))
             = EmptyString)).
Proof.
  unfold MapSearch.handleLocationSelect, CreateRouteScreen.handleLocationSelect.
  split.
  - intros ->. reflexivity.
  - intros p ->.
    cbn [MapSearch.region MapSearch.search Search.searchResults
         Search.showSearchResults Search.searchTimeout Search.searchQuery].
    split; [apply centre_shown |]. split; [reflexivity |].
    split; [reflexivity |]. split; [reflexivity |]. split; [reflexivity |].
    intros Hs Hc Hk.
    destruct (Search.street result) as [[| a1 r1] |]; try discriminate;
      destruct (Search.city result) as [[| a2 r2] |]; try discriminate;
      destruct (Search.country result) as [[| a3 r3] |]; try discriminate;
      reflexivity.
Qed.

(** Extra X24.  [handleLocateMe] of the map screen asks for the position
    once.  When that fails the screen stays as it is; otherwise the map is
    centred on the position with a viewport that shows it, and the search
    box is left alone. *)
Theorem map_locate_recentres {S : Type} (h : Location.Handler S) (e : S)
    (s : MapSearch.Screen) :
  calls (trace h MapSearch.handleLocateMe e) = [Location.getCurrentPositionAsync]
  /\ match fst (h Location.getCurrentPositionAsync e) with
     | None => result h MapSearch.handleLocateMe e s = s
     | Some p =>
         MapSearch.region (result h MapSearch.handleLocateMe e s)
         = Region.mk (Location.latitude p) (Location.longitude p) 0.01 0.01
         /\ Region.shows (MapSearch.region (result h MapSearch.handleLocateMe e s))
              (Location.latitude p) (Location.longitude p)
         /\ MapSearch.search (result h MapSearch.handleLocateMe e s)
            = MapSearch.search s
     end.
Proof.
  unfold MapSearch.handleLocateMe. rewrite result_position.
  unfold Location.getCurrentPosition, call. cbn [bind]. rewrite trace_vis.
  destruct (fst (h Location.getCurrentPositionAsync e)) as [p |];
    rewrite trace_ret, result_ret.
  - split; [reflexivity |]. cbn [MapSearch.region MapSearch.search].
    split; [reflexivity |]. split; [apply centre_shown | reflexivity].
  - split; reflexivity.
Qed.

(* ===================================================================== *)
(** * The screens are mounted *)
(* ===================================================================== *)

(** The parts of a statement, and the ones that hold by computation. *)
Ltac parts :=
  repeat match goal with
    | |- _ /\ _ => split
    | |- _ <-> _ => split
    | |- ~ _ => intro
    | |- _ -> _ => intro
    end.

Ltac settle :=
  try solve [ reflexivity | discriminate | contradiction | congruence
            | left; reflexivity
            | cbn [In] in *; intuition (discriminate || congruence) ].

Section Mounted.

Import Startup.

Context {S : Type}.
Variable h : Startup.Handler S.

Lemma startup_trace {A} (c : Call) (k : Answer c -> Startup.Prog A) (e : S) :
  trace h (bind (ask c) k) e
  = existT Answer c (fst (h c e)) :: trace h (k (fst (h c e))) (snd (h c e)).
Proof. unfold ask, call. cbn [bind]. rewrite trace_vis. reflexivity. Qed.

Lemma startup_result {A} (c : Call) (k : Answer c -> Startup.Prog A) (e : S) :
  result h (bind (ask c) k) e = result h (k (fst (h c e))) (snd (h c e)).
Proof. unfold ask, call. cbn [bind]. rewrite result_vis. reflexivity. Qed.

Lemma caught_trace (e : S) :
  trace h caught e
  = [existT Answer (console_error "Error getting current location:")
       (fst (h (console_error "Error getting current location:") e))]
  /\ result h caught e = CreateRouteScreen.setRegion CreateRouteScreen.initialRegion.
Proof.
  unfold caught. rewrite startup_trace, startup_result, trace_ret, result_ret.
  split; reflexivity.
Qed.

End Mounted.

(** Extra X25.  The effect of the map screen that asks for the position
    never changes the span of the viewport.  It asks for the position
    exactly when the permission request answered [granted].  When a call
    is rejected the state stays as it is, the map is not marked ready; when
    none is, the map is marked ready, and it is moved only if the
    permission was granted. *)
Theorem map_mount_keeps_span {S : Type} (h : Startup.Handler S) (e : S)
    (s : Startup.MapState) :
  Region.latitudeDelta (Startup.region (result h Startup.mapMounted e s))
  = Region.latitudeDelta (Startup.region s)
  /\ Region.longitudeDelta (Startup.region (result h Startup.mapMounted e s))
     = Region.longitudeDelta (Startup.region s)
  /\ (existsb Startup.locates (calls (trace h Startup.mapMounted e)) = true
      <-> fst (h Startup.requestForegroundPermissionsAsync e) = Some "granted")
  /\ (existsb Startup.rejected (trace h Startup.mapMounted e) = true ->
      result h Startup.mapMounted e s = s)
  /\ (existsb Startup.rejected (trace h Startup.mapMounted e) = false ->
      Startup.isMapReady (result h Startup.mapMounted e s) = true
      /\ (fst (h Startup.requestForegroundPermissionsAsync e) <> Some "granted" ->
          Startup.region (result h Startup.mapMounted e s) = Startup.region s)).
Proof.
  unfold Startup.mapMounted. rewrite startup_trace, startup_result.
  destruct (h Startup.requestForegroundPermissionsAsync e) as [[status |] e1];
    cbn [fst snd].
  - destruct (String.eqb status "granted") eqn:G.
    + apply String.eqb_eq in G. subst status.
      rewrite startup_trace, startup_result.
      destruct (h (Startup.service Location.getCurrentPositionAsync) e1)
        as [[p |] e2]; cbn [fst snd]; rewrite trace_ret, result_ret;
        cbn [calls map projT1 existsb Startup.locates Startup.rejected
             SearchTrace.rejected orb Startup.region Startup.isMapReady
             Region.latitudeDelta Region.longitudeDelta];
        repeat split; try reflexivity; try discriminate.
      intro F. now elim F.
    + rewrite trace_ret, result_ret.
      cbn [calls map projT1 existsb Startup.locates Startup.rejected orb
           Startup.region Startup.isMapReady].
      repeat split; try reflexivity; try discriminate.
      intro F. injection F as ->. discriminate.
  - rewrite trace_ret, result_ret.
    cbn [calls map projT1 existsb Startup.locates Startup.rejected orb].
    repeat split; try reflexivity; try discriminate.
Qed.

(** Extra X26.  The effect of the form that starts a new route at the
    position of the device does nothing when a route is edited.  Without
    the location permission in the render it requests the permission and
    goes no further, whatever the request answers: it does not ask for the
    position and adds no waypoint.  With the permission it requests
    nothing.  In every case the waypoints stay, or are replaced by one
    waypoint at the position; and when a call is rejected, the effect logs
    and the form is the one from before with the default region. *)
Theorem form_mount_starts_at_position {S : Type} (h : Startup.Handler S) (e : S)
    (isEditing locationPermission : bool) (scr : CreateRouteScreen.Screen) :
  (isEditing = true ->
   trace h (Startup.formMounted isEditing locationPermission) e = []
   /\ result h (Startup.formMounted isEditing locationPermission) e scr = scr)
  /\ (isEditing = false -> locationPermission = false ->
      hd_error (calls (trace h (Startup.formMounted isEditing locationPermission) e))
      = Some Startup.requestLocationPermission
      /\ existsb Startup.locates
           (calls (trace h (Startup.formMounted isEditing locationPermission) e))
         = false
      /\ CreateRouteScreen.waypoints
           (result h (Startup.formMounted isEditing locationPermission) e scr)
         = CreateRouteScreen.waypoints scr)
  /\ (locationPermission = true ->
      ~ In Startup.requestLocationPermission
          (calls (trace h (Startup.formMounted isEditing locationPermission) e)))
  /\ (CreateRouteScreen.waypoints
        (result h (Startup.formMounted isEditing locationPermission) e scr)
      = CreateRouteScreen.waypoints scr
      \/ exists w,
          CreateRouteScreen.waypoints
            (result h (Startup.formMounted isEditing locationPermission) e scr)
          = [w]
          /\ Waypoint.description w = "Current location")
  /\ (existsb Startup.rejected
        (trace h (Startup.formMounted isEditing locationPermission) e) = true ->
      result h (Startup.formMounted isEditing locationPermission) e scr
      = CreateRouteScreen.setRegion CreateRouteScreen.initialRegion scr
      /\ In (Startup.console_error "Error getting current location:")
           (calls (trace h (Startup.formMounted isEditing locationPermission) e))).
Proof.
  unfold Startup.formMounted. destruct isEditing.
  { rewrite trace_ret, result_ret. parts; settle. }
  destruct locationPermission.
  - rewrite startup_trace, startup_result.
    destruct (h Startup.getCurrentLocation e) as [[[p |] |] e1]; cbn [fst snd].
    + rewrite startup_trace, startup_result.
      destruct (h (Startup.service (Location.reverseGeocodeAsync _)) e1)
        as [[[| address rest] |] e2]; cbn [fst snd].
      * rewrite trace_ret, result_ret.
        cbn [calls map projT1 existsb Startup.rejected SearchTrace.rejected orb].
        parts; settle.
      * rewrite trace_ret, result_ret.
        cbn [calls map projT1 existsb Startup.rejected SearchTrace.rejected orb].
        parts; settle.
        right. eexists. split; reflexivity.
      * destruct (caught_trace h e2) as [T R]. rewrite T, R.
        cbn [calls map projT1 existsb Startup.rejected SearchTrace.rejected orb].
        parts; settle.
    + rewrite trace_ret, result_ret.
      cbn [calls map projT1 existsb Startup.rejected orb].
      parts; settle.
    + destruct (caught_trace h e1) as [T R]. rewrite T, R.
      cbn [calls map projT1 existsb Startup.rejected orb].
      parts; settle.
  - rewrite startup_trace, startup_result.
    destruct (h Startup.requestLocationPermission e) as [[[] |] e1]; cbn [fst snd].
    + rewrite trace_ret, result_ret.
      cbn [calls map projT1 existsb Startup.rejected Startup.locates orb hd_error].
      parts; settle.
    + destruct (caught_trace h e1) as [T R]. rewrite T, R.
      cbn [calls map projT1 existsb Startup.rejected Startup.locates orb hd_error].
      parts; settle.
Qed.

(* ===================================================================== *)
(** * Picking media *)
(* ===================================================================== *)

Lemma calls_cons {E : Type} {R : E -> Type} (c : E) (a : R c)
    (tr : list (Free.Event E R)) :
  calls (existT R c a :: tr) = c :: calls tr.
Proof. reflexivity. Qed.

Lemma last_piece_nonempty (sep : ascii) (s fallback : string) :
  fallback <> EmptyString -> CreateRouteScreen.popOr sep s fallback <> EmptyString.
Proof.
  intro H. unfold CreateRouteScreen.popOr.
  destruct (CreateRouteScreen.lastPiece sep EmptyString s); cbn [JS.truthy];
    [exact H | discriminate].
Qed.

Section Picking.

Import CreateRouteScreen Picker.

Context {S : Type}.
Variable h : Picker.Handler S.

Lemma picker_trace {A} (c : Call) (k : Answer c -> Picker.Prog A) (e : S) :
  trace h (bind (ask c) k) e
  = existT Answer c (fst (h c e)) :: trace h (k (fst (h c e))) (snd (h c e)).
Proof. unfold ask, call. cbn [bind]. rewrite trace_vis. reflexivity. Qed.

Lemma picker_result {A} (c : Call) (k : Answer c -> Picker.Prog A) (e : S) :
  result h (bind (ask c) k) e = result h (k (fst (h c e))) (snd (h c e)).
Proof. unfold ask, call. cbn [bind]. rewrite result_vis. reflexivity. Qed.

Lemma caught_shape (label message : string) (e : S) :
  exists a b,
    trace h (caught label message) e
    = [ existT Answer (form (Backend.console_error label)) a;
        existT Answer (form (Backend.Alert_alert "Error" message)) b ]
    /\ result h (caught label message) e = (fun prev => prev).
Proof.
  unfold caught. rewrite !picker_trace, !picker_result, trace_ret, result_ret.
  eexists. eexists. split; reflexivity.
Qed.

Lemma denied_shape (message : string) (e : S) :
  exists a,
    trace h (denied message) e
    = [existT Answer (form (Backend.Alert_alert "Permission needed" message)) a]
    /\ result h (denied message) e = (fun prev => prev).
Proof.
  unfold denied. rewrite !picker_trace, !picker_result, trace_ret, result_ret.
  eexists. split; reflexivity.
Qed.

Lemma freshId_shape {A} (k : string -> Picker.Prog A) (e : S) :
  exists id e' a b,
    trace h (bind freshId k) e
    = existT Answer (form Backend.Date_now) a
        :: existT Answer (form Backend.Math_random) b :: trace h (k id) e'
    /\ result h (bind freshId k) e = result h (k id) e'.
Proof.
  unfold freshId, ask, call. cbn [bind]. rewrite !trace_vis, !result_vis.
  eexists. eexists. eexists. eexists. split; reflexivity.
Qed.

Lemma itemsOf_calls (assets : list Asset) :
  forall e,
    existsb camera (calls (trace h (itemsOf assets) e)) = false
    /\ existsb alerts (calls (trace h (itemsOf assets) e)) = false
    /\ map MediaItem.uri (result h (itemsOf assets) e) = map uri assets.
Proof.
  induction assets as [| asset rest IH]; intro e.
  - repeat split; reflexivity.
  - cbn [itemsOf].
    match goal with
    | |- context [bind freshId ?k] =>
        destruct (freshId_shape k e) as (id & e' & a & b & T & R)
    end.
    rewrite T, R, trace_bind, result_bind, trace_ret, result_ret, app_nil_r.
    rewrite !calls_cons.
    cbn [existsb camera alerts orb map MediaItem.uri].
    destruct (IH e') as (C & A & U). rewrite U.
    repeat split; assumption || reflexivity.
Qed.

(** The cases left once the calls are written out. *)
Ltac cases :=
  parts; settle;
  repeat match goal with
    | H : _ \/ _ |- _ => destruct H
    | H : False |- _ => destruct H
    end;
  subst; settle.

Ltac measure_picker :=
  cbn [calls map projT1 existsb alerts launches camera cameraEmpty orb hd_error In].

Ltac failure :=
  match goal with
  | |- context [trace h (caught ?l ?m) ?e'] =>
      let a := fresh "a" in
      let b := fresh "b" in
      let T := fresh "T" in
      let R := fresh "R" in
      destruct (caught_shape l m e') as (a & b & T & R); rewrite T, R
  | |- context [trace h (denied ?m) ?e'] =>
      let a := fresh "a" in
      let T := fresh "T" in
      let R := fresh "R" in
      destruct (denied_shape m e') as (a & T & R); rewrite T, R
  end;
  measure_picker; cases.

Lemma launch_outcome (useCamera : bool) (media : list MediaItem.t) (e1 : S)
    (scr : Screen) :
  let launch :=
    bind (ask (launchImageLibraryAsync (negb useCamera)))
      (fun result =>
         match result with
         | None =>
             caught "Error picking media:" "Failed to select media. Please try again."
         | Some None => Ret (fun prev => prev)
         | Some (Some assets) =>
             bind (itemsOf assets)
               (fun newMedia => Ret (setMedia (media ++ newMedia)))
         end) in
  existsb camera (calls (trace h launch e1)) = false
  /\ (existsb alerts (calls (trace h launch e1)) = true ->
      result h launch e1 scr = scr)
  /\ existsb launches (calls (trace h launch e1)) = true
  /\ (result h launch e1 scr = scr
      \/ exists assets newMedia,
          In (existT Answer (launchImageLibraryAsync (negb useCamera))
                (Some (Some assets)))
            (trace h launch e1)
          /\ map MediaItem.uri newMedia = map uri assets
          /\ result h launch e1 scr = setMedia (media ++ newMedia) scr).
Proof.
  cbn zeta. rewrite picker_trace, picker_result.
  destruct (h (launchImageLibraryAsync (negb useCamera)) e1)
    as [[[assets |] |] e2]; cbn [fst snd].
  - rewrite trace_bind, result_bind, trace_ret, result_ret, app_nil_r.
    destruct (itemsOf_calls assets e2) as (C & A & U).
    rewrite calls_cons. cbn [existsb camera alerts launches orb].
    split; [exact C |]. split; [rewrite A; discriminate |].
    split; [reflexivity |]. right. exists assets. eexists.
    split; [left; reflexivity |]. split; [exact U | reflexivity].
  - rewrite trace_ret, result_ret. measure_picker. cases.
  - failure.
Qed.

(** What [pickMedia] does once the permission request is answered. *)
Lemma pick_outcome (useCamera : bool) (media : list MediaItem.t)
    (e : S)
    (scr : Screen) :
  hd_error (calls (trace h (pickMedia useCamera media) e))
  = Some (if useCamera then requestCameraPermissionsAsync
          else requestMediaLibraryPermissionsAsync)
  /\ existsb camera (calls (trace h (pickMedia useCamera media) e)) = false
  /\ (existsb alerts (calls (trace h (pickMedia useCamera media) e)) = true ->
      result h (pickMedia useCamera media) e scr = scr)
  /\ (existsb launches (calls (trace h (pickMedia useCamera media) e)) = false ->
      existsb alerts (calls (trace h (pickMedia useCamera media) e)) = true)
  /\ (result h (pickMedia useCamera media) e scr = scr
      \/ exists assets newMedia,
          In (existT Answer (launchImageLibraryAsync (negb useCamera))
                (Some (Some assets)))
            (trace h (pickMedia useCamera media) e)
          /\ map MediaItem.uri newMedia = map uri assets
          /\ result h (pickMedia useCamera media) e scr
             = setMedia (media ++ newMedia) scr).
Proof.
  unfold pickMedia.
  destruct useCamera; rewrite picker_trace, picker_result;
    match goal with
    | |- context [fst (h ?c e)] => destruct (h c e) as [[status |] e1]
    end; cbn [fst snd]; try failure;
    (destruct (String.eqb status "granted"); [| failure]);
    match goal with
    | |- context [launchImageLibraryAsync (negb ?u)] =>
        destruct (launch_outcome u media e1 scr) as (C & A & L & R)
    end;
    cbn zeta in C, A, L, R; rewrite calls_cons;
    cbn [existsb camera alerts launches orb hd_error In];
    (split; [reflexivity |]); (split; [exact C |]); (split; [exact A |]);
    (split; [intro F; rewrite F in L; discriminate |]);
    (destruct R as [R | (assets & newMedia & I & U & R)]; [now left | right]);
    exists assets, newMedia; (split; [right; exact I |]); split; assumption.
Qed.

(** Without the permission [pickMedia] shows its alert and stops; a
    rejected request ends in the [catch]; with the permission the media
    library is opened next. *)
Lemma pick_permission (useCamera : bool) (media : list MediaItem.t) (e : S)
    (scr : Screen) :
  (forall status,
      permission (trace h (pickMedia useCamera media) e) = Some (Some status) ->
      status <> "granted"%string ->
      calls (trace h (pickMedia useCamera media) e)
      = [ if useCamera then requestCameraPermissionsAsync
          else requestMediaLibraryPermissionsAsync;
          form (Backend.Alert_alert "Permission needed"
                  (if useCamera
                   then "Camera permission is required to take photos/videos"
                   else "Media library permission is required to select photos/videos")) ]
      /\ result h (pickMedia useCamera media) e scr = scr)
  /\ (permission (trace h (pickMedia useCamera media) e) = Some None ->
      calls (trace h (pickMedia useCamera media) e)
      = [ if useCamera then requestCameraPermissionsAsync
          else requestMediaLibraryPermissionsAsync;
          form (Backend.console_error "Error picking media:");
          form (Backend.Alert_alert "Error"
                  "Failed to select media. Please try again.") ]
      /\ result h (pickMedia useCamera media) e scr = scr)
  /\ (permission (trace h (pickMedia useCamera media) e)
      = Some (Some "granted"%string) ->
      nth_error (calls (trace h (pickMedia useCamera media) e)) 1
      = Some (launchImageLibraryAsync (negb useCamera))).
Proof.
  unfold pickMedia.
  destruct useCamera; rewrite picker_trace, picker_result;
    match goal with
    | |- context [fst (h ?c e)] => destruct (h c e) as [[status |] e1]
    end; cbn [fst snd permission permissionOf];
    (split; [| split]).
  all: try (intros; discriminate).
  all: first
    [ (* the permission was not granted *)
      intros status' [= <-] Hs;
      rewrite (proj2 (String.eqb_neq status "granted") Hs);
      match goal with
      | |- context [trace h (denied ?m) ?e'] =>
          destruct (denied_shape m e') as (a & T & R); rewrite T, R
      end;
      split; reflexivity
    | (* it was granted *)
      intros [= ->]; rewrite String.eqb_refl, calls_cons;
      unfold ask, call; cbn [bind]; rewrite trace_vis, calls_cons;
      reflexivity
    | (* the request was rejected *)
      intros _;
      match goal with
      | |- context [trace h (caught ?l ?m) ?e'] =>
          destruct (caught_shape l m e') as (a & b & T & R); rewrite T, R
      end;
      split; reflexivity ].
Qed.

(** Extra X27.  [pickMedia] asks for the camera permission or for the
    media library permission, as [useCamera] says.  When the status that
    comes back is not [granted] it shows the alert [Permission needed],
    calls nothing else and leaves the form as it is; when the request is
    rejected it logs the error, shows the alert [Error] and leaves the form
    as it is.  With the permission it opens the media library next, in
    either case: it never launches the camera.  Whenever it shows an alert
    the form stays as it is; otherwise the form stays, or its media become
    the media of the render followed by one item for each asset picked, in
    the order picked. *)
Theorem pick_media_opens_library (useCamera : bool) (media : list MediaItem.t)
    (e : S)
    (scr : Screen) :
  (hd_error (calls (trace h (pickMedia useCamera media) e))
   = Some (if useCamera then requestCameraPermissionsAsync
           else requestMediaLibraryPermissionsAsync)
   /\ existsb camera (calls (trace h (pickMedia useCamera media) e)) = false
   /\ (existsb alerts (calls (trace h (pickMedia useCamera media) e)) = true ->
       result h (pickMedia useCamera media) e scr = scr)
   /\ (existsb launches (calls (trace h (pickMedia useCamera media) e)) = false ->
       existsb alerts (calls (trace h (pickMedia useCamera media) e)) = true)
   /\ (result h (pickMedia useCamera media) e scr = scr
       \/ exists assets newMedia,
           In (existT Answer (launchImageLibraryAsync (negb useCamera))
                 (Some (Some assets)))
             (trace h (pickMedia useCamera media) e)
           /\ map MediaItem.uri newMedia = map uri assets
           /\ result h (pickMedia useCamera media) e scr
              = setMedia (media ++ newMedia) scr))
  /\ (forall status,
        permission (trace h (pickMedia useCamera media) e) = Some (Some status) ->
        status <> "granted"%string ->
        calls (trace h (pickMedia useCamera media) e)
        = [ if useCamera then requestCameraPermissionsAsync
            else requestMediaLibraryPermissionsAsync;
            form (Backend.Alert_alert "Permission needed"
                    (if useCamera
                     then "Camera permission is required to take photos/videos"
                     else "Media library permission is required to select photos/videos")) ]
        /\ result h (pickMedia useCamera media) e scr = scr)
  /\ (permission (trace h (pickMedia useCamera media) e) = Some None ->
      calls (trace h (pickMedia useCamera media) e)
      = [ if useCamera then requestCameraPermissionsAsync
          else requestMediaLibraryPermissionsAsync;
          form (Backend.console_error "Error picking media:");
          form (Backend.Alert_alert "Error"
                  "Failed to select media. Please try again.") ]
      /\ result h (pickMedia useCamera media) e scr = scr)
  /\ (permission (trace h (pickMedia useCamera media) e)
      = Some (Some "granted"%string) ->
      nth_error (calls (trace h (pickMedia useCamera media) e)) 1
      = Some (launchImageLibraryAsync (negb useCamera))).
Proof.
  split; [apply pick_outcome | apply pick_permission].
Qed.

Lemma capture_outcome (videos : bool) (media : list MediaItem.t) (e : S)
    (scr : Screen) :
  hd_error (calls (trace h (capture videos media) e))
  = Some requestCameraPermissionsAsync
  /\ (existsb alerts (calls (trace h (capture videos media) e)) = true ->
      result h (capture videos media) e scr = scr)
  /\ (existsb launches (calls (trace h (capture videos media) e)) = false ->
      existsb alerts (calls (trace h (capture videos media) e)) = true)
  /\ (forall c,
         In c (calls (trace h (capture videos media) e)) ->
         launches c = true -> c = launchCameraAsync videos)
  /\ (existsb cameraEmpty (trace h (capture videos media) e) = true ->
      existsb alerts (calls (trace h (capture videos media) e)) = true)
  /\ (result h (capture videos media) e scr = scr
      \/ exists item,
          result h (capture videos media) e scr = setMedia (media ++ [item]) scr
          /\ MediaItem.type item = (if videos then video else image)
          /\ MediaItem.fileName item <> EmptyString
          /\ existsb alerts (calls (trace h (capture videos media) e)) = false).
Proof.
  unfold capture. rewrite picker_trace, picker_result.
  destruct (h requestCameraPermissionsAsync e) as [[status |] e1]; cbn [fst snd];
    [| destruct videos; failure].
  destruct (String.eqb status "granted"); [| failure].
  rewrite picker_trace, picker_result.
  destruct (h (launchCameraAsync videos) e1) as [[[assets |] |] e2]; cbn [fst snd].
  - match goal with
    | |- context [bind freshId ?k] =>
        destruct (freshId_shape k e2) as (id & e3 & a & b & T & R)
    end.
    rewrite T, R. destruct assets as [| asset rest]; [destruct videos; failure |].
    rewrite trace_ret, result_ret. measure_picker.
    split; [reflexivity |]. split; [discriminate |]. split; [discriminate |].
    split; [intros c [<- | [<- | [<- | [<- | []]]]]; try discriminate; reflexivity |].
    split; [discriminate |].
    right. eexists. split; [reflexivity |].
    cbn [MediaItem.type MediaItem.fileName].
    split; [reflexivity |]. split; [| reflexivity].
    apply last_piece_nonempty. destruct videos; discriminate.
  - rewrite trace_ret, result_ret. measure_picker. cases.
  - destruct videos; failure.
Qed.

End Picking.

(** Extra X28.  [takePhoto] and [recordVideo] ask for the camera
    permission first and launch nothing but the camera, for photos and for
    videos respectively, and nothing without the permission.  When an alert
    is shown the form stays as it is; an alert is shown when nothing was
    launched and when the camera came back with no asset.  Otherwise the
    form stays, or its media become the media of the render followed by
    one item, an image from [takePhoto] and a video from [recordVideo],
    with a file name that is not empty. *)
Theorem camera_adds_one_item {S : Type} (h : Picker.Handler S) (e : S)
    (videos : bool) (media : list MediaItem.t) (scr : CreateRouteScreen.Screen) :
  let shoot := if videos then Picker.recordVideo else Picker.takePhoto in
  hd_error (calls (trace h (shoot media) e))
  = Some Picker.requestCameraPermissionsAsync
  /\ (existsb Picker.alerts (calls (trace h (shoot media) e)) = true ->
      result h (shoot media) e scr = scr)
  /\ (existsb Picker.launches (calls (trace h (shoot media) e)) = false ->
      existsb Picker.alerts (calls (trace h (shoot media) e)) = true)
  /\ (forall c,
         In c (calls (trace h (shoot media) e)) ->
         Picker.launches c = true -> c = Picker.launchCameraAsync videos)
  /\ (existsb Picker.cameraEmpty (trace h (shoot media) e) = true ->
      existsb Picker.alerts (calls (trace h (shoot media) e)) = true)
  /\ (result h (shoot media) e scr = scr
      \/ exists item,
          result h (shoot media) e scr
          = CreateRouteScreen.setMedia (media ++ [item]) scr
          /\ MediaItem.type item = (if videos then video else image)
          /\ MediaItem.fileName item <> EmptyString
          /\ existsb Picker.alerts (calls (trace h (shoot media) e)) = false).
Proof.
  cbn zeta.
  replace (if videos then Picker.recordVideo else Picker.takePhoto)
    with (Picker.capture videos) by (destruct videos; reflexivity).
  apply capture_outcome.
Qed.

(* ===================================================================== *)
(** * The result list holds each spot once *)
(* ===================================================================== *)

Section Distinct.

Import Location Search SearchTrace.

Lemma firstSeen_out (seen rest out : list SearchResult) :
  firstSeen seen rest out ->
  incl out rest
  /\ (forall a, In a out -> forall b, In b seen -> ~ sameSpot b a)
  /\ distinctSpots out.
Proof.
  induction 1 as [seen | seen a rest out Hdup _ IH | seen a rest out Hnew _ IH].
  - split; [intros x [] | split; [intros a [] | exact I]].
  - destruct IH as (I & N & D). split; [| split].
    + intros x Hx. right. apply I, Hx.
    + intros x Hx b Hb. apply (N x Hx b), in_or_app. now left.
    + exact D.
  - destruct IH as (I & N & D). split; [| split; [| split]].
    + intros x [-> | Hx]; [now left | right; apply I, Hx].
    + intros x [<- | Hx] b Hb; [apply Hnew, Hb |].
      apply (N x Hx b), in_or_app. now left.
    + intros b Hb. apply (N b Hb a), in_or_app. right. now left.
    + exact D.
Qed.

Lemma firstSeen_fixed (l : list SearchResult) :
  forall seen,
    distinctSpots l ->
    (forall a, In a l -> forall b, In b seen -> ~ sameSpot b a) ->
    firstSeen seen l l.
Proof.
  induction l as [| a r IH]; intros seen D N.
  - constructor.
  - destruct D as [Da Dr]. apply firstSeen_emit.
    + intros b Hb. apply (N a (or_introl eq_refl) b Hb).
    + apply IH; [exact Dr |].
      intros x Hx b Hb. apply in_app_or in Hb.
      destruct Hb as [Hb | [<- | []]].
      * apply (N x (or_intror Hx) b Hb).
      * apply Da, Hx.
Qed.

Lemma firstSeen_functional (seen rest out1 : list SearchResult) :
  firstSeen seen rest out1 ->
  forall out2, firstSeen seen rest out2 -> out1 = out2.
Proof.
  induction 1 as [seen | seen a rest out Hdup _ IH | seen a rest out Hnew _ IH];
    intros out2 H2; inversion H2; subst.
  - reflexivity.
  - now apply IH.
  - destruct Hdup as (b & Hb & Hs).
    match goal with H : forall b, In b seen -> ~ sameSpot b a |- _ =>
      elim (H b Hb Hs) end.
  - match goal with H : exists b, In b seen /\ sameSpot b a |- _ =>
      destruct H as (b & Hb & Hs) end.
    elim (Hnew b Hb Hs).
  - f_equal. now apply IH.
Qed.

End Distinct.

(** Extra X29.  Of hits that carry coordinates, the result list holds
    entries of the hits only and no two entries at the same spot, and
    removing duplicates from it again changes nothing. *)
Theorem dedup_is_idempotent (addresses : list Search.SearchResult) :
  Forall Search.located addresses ->
  incl (Search.uniqueAddresses addresses) addresses
  /\ SearchTrace.distinctSpots (Search.uniqueAddresses addresses)
  /\ Search.uniqueAddresses (Search.uniqueAddresses addresses)
     = Search.uniqueAddresses addresses.
Proof.
  intro L.
  destruct (firstSeen_out [] addresses _ (unique_firstSeen addresses L))
    as (I & N & D).
  split; [exact I |]. split; [exact D |].
  assert (L' : Forall Search.located (Search.uniqueAddresses addresses)).
  { apply Forall_forall. intros x Hx.
    apply (proj1 (Forall_forall _ _) L), I, Hx. }
  apply (firstSeen_functional [] (Search.uniqueAddresses addresses)).
  - apply unique_firstSeen, L'.
  - apply firstSeen_fixed; [exact D | intros a _ b []].
Qed.

Lemma dedup_is_idempotent_witness :
  incl
    (Search.uniqueAddresses
       [ Search.withCoords [Example.storgatan] Example.lund;
         Search.withCoords [] Example.malmo;
         Search.withCoords [Example.storgatan] Example.lund ])
    [ Search.withCoords [Example.storgatan] Example.lund;
      Search.withCoords [] Example.malmo;
      Search.withCoords [Example.storgatan] Example.lund ]
  /\ SearchTrace.distinctSpots
       (Search.uniqueAddresses
          [ Search.withCoords [Example.storgatan] Example.lund;
            Search.withCoords [] Example.malmo;
            Search.withCoords [Example.storgatan] Example.lund ])
  /\ Search.uniqueAddresses
       (Search.uniqueAddresses
          [ Search.withCoords [Example.storgatan] Example.lund;
            Search.withCoords [] Example.malmo;
            Search.withCoords [Example.storgatan] Example.lund ])
     = Search.uniqueAddresses
         [ Search.withCoords [Example.storgatan] Example.lund;
           Search.withCoords [] Example.malmo;
           Search.withCoords [Example.storgatan] Example.lund ].
Proof.
  apply (dedup_is_idempotent
           [ Search.withCoords [Example.storgatan] Example.lund;
             Search.withCoords [] Example.malmo;
             Search.withCoords [Example.storgatan] Example.lund ]).
  repeat constructor; discriminate.
Defined.

(* ===================================================================== *)
(** * The entry shown at a spot *)
(* ===================================================================== *)

Section Entries.

Import Location Search SearchTrace.

Context {S : Type}.
Variable h : Location.Handler S.

Lemma reverses_app (a b : list Location.Event) :
  reverses (a ++ b) = reverses a ++ reverses b.
Proof.
  induction a as [| ev a IH]; [reflexivity |].
  cbn [app reverses]. destruct (reverseOf ev); rewrite IH; reflexivity.
Qed.

(** The geocoding phase issues no reverse-geocoding call. *)
Lemma tryTerms_no_reverse (terms : list string) :
  forall results s, reverses (trace h (tryTerms terms results) s) = [].
Proof.
  induction terms as [| term rest IH]; intros results s; [reflexivity |].
  cbn [tryTerms]. unfold geocode, call. cbn [bind]. rewrite trace_vis.
  cbn [reverses reverseOf].
  destruct (fst (h (geocodeAsync term) s)) as [results' |]; [| reflexivity].
  destruct (0 <? List.length results')%nat; [reflexivity | apply IH].
Qed.

Lemma fallback_no_reverse (query : string) (s : S) :
  reverses (trace h (geocodeWithFallback query) s) = [].
Proof.
  unfold geocodeWithFallback, geocode, call. cbn [bind]. rewrite trace_vis.
  cbn [reverses reverseOf].
  destruct (fst (h (geocodeAsync query) s)) as [results |]; [| reflexivity].
  destruct (List.length results =? 0)%nat;
    [apply tryTerms_no_reverse | reflexivity].
Qed.

(** The entry the code builds for a hit is the entry of the hit. *)
Lemma withCoords_entry (address : list Address) (hit : Coords) :
  withCoords address hit = entryOf hit address.
Proof. destruct hit, address; reflexivity. Qed.

(** Every hit is reverse-geocoded, and its entry is built from the answer
    to its own call. *)
Lemma reverseAll_answers (results : list Coords) :
  forall s,
    map fst (reverses (trace h (reverseAll results) s)) = results
    /\ result h (reverseAll results) s
       = map (fun r => option_map (entryOf (fst r)) (snd r))
           (reverses (trace h (reverseAll results) s)).
Proof.
  induction results as [| r rest IH]; intro s; [split; reflexivity |].
  cbn [reverseAll]. unfold reverseGeocode, call. cbn [bind].
  rewrite trace_vis, result_vis, trace_bind, result_bind, trace_ret, result_ret,
    app_nil_r.
  cbn [reverses reverseOf map fst snd].
  destruct r as [lat lng]. cbn [latitude longitude].
  destruct (IH (snd (h (reverseGeocodeAsync (mkCoords lat lng)) s))) as [Hf Hr].
  split; [now rewrite Hf |].
  rewrite <- Hr. f_equal.
  destruct (fst (h (reverseGeocodeAsync (mkCoords lat lng)) s)) as [address |];
    [| reflexivity].
  cbn [option_map]. now rewrite withCoords_entry.
Qed.

(** When [Promise.all] resolves, every call was answered. *)
Lemma all_answered (calls : list (Coords * option (list Address)))
    (addresses : list SearchResult) :
  all (map (fun r => option_map (entryOf (fst r)) (snd r)) calls) = Some addresses ->
  exists found : list (Coords * list Address),
    calls = map (fun hit => (fst hit, Some (snd hit))) found
    /\ addresses = map (fun hit => entryOf (fst hit) (snd hit)) found.
Proof.
  revert addresses.
  induction calls as [| [hit [address |]] calls IH]; intros addresses; cbn [map all].
  - intros [= <-]. exists []. split; reflexivity.
  - cbn [option_map fst snd].
    destruct (all (map _ calls)) as [rest |] eqn:E; [| discriminate].
    intros [= <-]. destruct (IH rest eq_refl) as (found & -> & ->).
    exists ((hit, address) :: found). split; reflexivity.
  - discriminate.
Qed.

(** A lookup that ends with a list shows the deduplicated entries of its
    hits, each built from the answer to the reverse geocoding of the hit. *)
Lemma lookup_entries (query : string) (s : S) (out : list SearchResult) :
  result h (lookup query) s = Found out ->
  exists found : list (Coords * list Address),
    result h (geocodeWithFallback query) s = Some (map fst found)
    /\ reverses (trace h (lookup query) s)
       = map (fun hit => (fst hit, Some (snd hit))) found
    /\ out = uniqueAddresses (map (fun hit => entryOf (fst hit) (snd hit)) found).
Proof.
  unfold lookup. rewrite trace_bind, result_bind, reverses_app, fallback_no_reverse.
  destruct (result h (geocodeWithFallback query) s) as [hits |];
    [| discriminate].
  destruct hits as [| r rest]; [discriminate |].
  cbn [List.length Nat.ltb Nat.leb app].
  rewrite trace_bind, result_bind, reverses_app.
  destruct (reverseAll_answers (r :: rest) (final h (geocodeWithFallback query) s))
    as [Hf Hr].
  rewrite Hr.
  destruct (all _) as [addresses |] eqn:Eall; [| discriminate].
  rewrite trace_ret, result_ret, app_nil_r. intros [= <-].
  destruct (all_answered _ _ Eall) as (found & Hc & ->).
  exists found. rewrite Hc in Hf |- *. split; [| split; reflexivity].
  f_equal. rewrite <- Hf, map_map. reflexivity.
Qed.

Lemma entries_located (found : list (Coords * list Address)) :
  Forall located (map (fun hit => entryOf (fst hit) (snd hit)) found).
Proof.
  apply Forall_forall. intros e He. apply in_map_iff in He.
  destruct He as (hit & <- & _). discriminate.
Qed.

End Entries.

(** Whether two entries are at the same spot can be told. *)
Lemma sameSpot_dec (a b : Search.SearchResult) :
  Search.sameSpot a b \/ ~ Search.sameSpot a b.
Proof.
  unfold Search.sameSpot.
  destruct (Search.coords a) as [x |], (Search.coords b) as [y |]; try tauto.
  destruct (Qeq_dec (Location.latitude x) (Location.latitude y)),
    (Qeq_dec (Location.longitude x) (Location.longitude y)); tauto.
Qed.

(** An entry of a list has a first entry at its spot. *)
Lemma first_at_spot (e : Search.SearchResult) (l : list Search.SearchResult) :
  Search.located e -> In e l -> exists first, Search.firstAt e first l.
Proof.
  intros Le. induction l as [| x l IH]; [intros [] |].
  intros Hin. destruct (sameSpot_dec x e) as [Hx | Hx].
  - exists x, [], l. split; [reflexivity |]. split; [exact Hx | intros b []].
  - destruct Hin as [-> | Hin]; [elim Hx; now apply sameSpot_refl |].
    destruct (IH Hin) as (first & before & after & -> & Hs & Hb).
    exists first, (x :: before), after. split; [reflexivity |].
    split; [exact Hs |]. intros b [<- | Hb']; auto.
Qed.

(** Deduplication in first-seen order shows, at a spot not seen before,
    the first entry there and no other. *)
Lemma firstSeen_first (a first : Search.SearchResult)
    (seen rest out : list Search.SearchResult) :
  Search.firstSeen seen rest out ->
  (forall b, In b seen -> ~ Search.sameSpot b a) ->
  Search.firstAt a first rest ->
  Search.onlyAt a first out.
Proof.
  induction 1 as [seen | seen x rest out Hx H IH | seen x rest out Hx H IH];
    intros Hnew (before & after & E & Hs & Hb).
  - destruct before; discriminate.
  - destruct before as [| y before]; cbn [app] in E; injection E as <- ->.
    + destruct Hx as (c & Hc & Hcx). elim (Hnew c Hc).
      eapply sameSpot_trans; eassumption.
    + apply IH.
      * intros b Hin. apply in_app_or in Hin.
        destruct Hin as [Hin | [<- | []]]; [now apply Hnew |].
        apply Hb. now left.
      * exists before, after. split; [reflexivity |]. split; [exact Hs |].
        intros b Hin. apply Hb. now right.
  - destruct before as [| y before]; cbn [app] in E; injection E as <- ->.
    + exists [], out. split; [reflexivity |]. split; [exact Hs |].
      cbn [app]. intros b Hin Hba.
      destruct (firstSeen_out _ _ _ H) as (_ & N & _).
      apply (N b Hin x); [apply in_or_app; right; now left |].
      eapply sameSpot_trans; [exact Hs |]. now apply sameSpot_sym.
    + destruct IH as (before' & after' & -> & Hs' & Hb').
      * intros b Hin. apply in_app_or in Hin.
        destruct Hin as [Hin | [<- | []]]; [now apply Hnew |].
        apply Hb. now left.
      * exists before, after. split; [reflexivity |]. split; [exact Hs |].
        intros b Hin. apply Hb. now right.
      * exists (x :: before'), after'. split; [reflexivity |].
        split; [exact Hs' |].
        cbn [app]. intros b [<- | Hin]; [apply Hb; now left | now apply Hb'].
Qed.

(** Claim C3, as amended.  A lookup that shows a list has reverse-geocoded
    each of its hits, in order; the entry of a hit holds the parts of the
    first address found there and the coordinates of the hit.  The list
    shown is these entries in first-seen order, without every entry whose
    latitude and longitude are both equal to those of an entry seen before:
    for each hit, the list holds exactly one entry at its coordinates, and
    that entry is the one of the first hit there.  Equality is equality of
    the numbers; no tolerance is applied. *)
Theorem lookup_dedup_exact {S : Type} (h : Location.Handler S) (s : S)
    (query : string) (out : list Search.SearchResult) :
  result h (Search.lookup query) s = Search.Found out ->
  exists found : list (Location.Coords * list Location.Address),
    result h (Search.geocodeWithFallback query) s = Some (map fst found)
    /\ Location.reverses (trace h (Search.lookup query) s)
       = map (fun hit => (fst hit, Some (snd hit))) found
    /\ Search.firstSeen []
         (map (fun hit => Search.entryOf (fst hit) (snd hit)) found) out
    /\ forall e,
         In e (map (fun hit => Search.entryOf (fst hit) (snd hit)) found) ->
         exists first,
           Search.firstAt e first
             (map (fun hit => Search.entryOf (fst hit) (snd hit)) found)
           /\ Search.onlyAt e first out.
Proof.
  intros Hout.
  destruct (lookup_entries h query s out Hout) as (found & Hg & Hr & ->).
  assert (Hloc := entries_located found).
  assert (F := unique_firstSeen _ Hloc).
  exists found. split; [exact Hg |]. split; [exact Hr |]. split; [exact F |].
  intros e He.
  assert (Le : Search.located e)
    by (apply (proj1 (Forall_forall _ _) Hloc), He).
  destruct (first_at_spot e _ Le He) as (first & Hfirst).
  exists first. split; [exact Hfirst |].
  apply (firstSeen_first e first [] _ _ F); [intros b [] | exact Hfirst].
Qed.

(** The lookup of [Lund] with two hits at one spot. *)
Lemma lookup_dedup_exact_witness :
  exists found : list (Location.Coords * list Location.Address),
    result Scripted.handler (Search.geocodeWithFallback "Lund") Example.lundScript
    = Some (map fst found)
    /\ Location.reverses
         (trace Scripted.handler (Search.lookup "Lund") Example.lundScript)
       = map (fun hit => (fst hit, Some (snd hit))) found
    /\ Search.firstSeen []
         (map (fun hit => Search.entryOf (fst hit) (snd hit)) found)
         Example.lundShown
    /\ forall e,
         In e (map (fun hit => Search.entryOf (fst hit) (snd hit)) found) ->
         exists first,
           Search.firstAt e first
             (map (fun hit => Search.entryOf (fst hit) (snd hit)) found)
           /\ Search.onlyAt e first Example.lundShown.
Proof.
  apply (lookup_dedup_exact Scripted.handler Example.lundScript "Lund"
           Example.lundShown).
  vm_compute. reflexivity.
Defined.
